(** * Nordic financial planner: the simulation and statistics core

    A shallow embedding of
      - [src/simulation/taxCalculator.js]     (class [TaxCalculator]),
      - [src/simulation/monteCarloEngine.js]  (class [MonteCarloEngine]),
      - [src/simulation/histogramBinner.js]   (class [HistogramBinner]),
      - [src/utils/statistics.js]             (class [Statistics]),
      - [src/utils/timeSeriesStats.js]        ([computeTimeSeriesBands]),
    followed by the properties the specification states about them.

    Numbers.  A JavaScript number is modelled as an exact rational ([Q],
    compared with [==]): the development speaks about the arithmetic the
    code writes down, not about binary64 rounding or overflow.  The two
    non-numeric values the code can produce from finite inputs are kept:
    [undefined] (a read outside an array, [None] in a slot) and [NaN]
    (arithmetic on [undefined], and [0 / 0]).  A statement that holds of
    the formulas but, in binary64, only up to rounding says so ("in exact
    arithmetic"), and where rounding decides a statement the function is
    given a second time over binary64 floats ([HistogramBinner64]).

    Integers.  Horizons, trial counts, bin counts and array indices are
    [Z]; array lengths are [nat].

    Arrays.  A JavaScript array is a list of slots, [None] being a hole or
    [undefined].  [new Array(n)] throws a [RangeError] outside
    [0 .. 2^32 - 1]; a write past the end extends the array with holes.

    Exceptions.  A function that can throw returns a [result]. *)

From Stdlib Require Import String.
From Stdlib Require Import QArith Qround Qminmax Qpower ZArith List Lia.
From Stdlib Require Import Bool Permutation Sorted Lqa.
From Stdlib Require Floats Uint63.
Import ListNotations.

Open Scope string_scope.
Open Scope list_scope.
Open Scope Q_scope.

(* ================================================================== *)
(** * The JavaScript values the code manipulates *)
(* ================================================================== *)

Module Js.

Inductive JsError : Type :=
| RangeError (msg : string)
| TypeError (msg : string)
| Error (msg : string).

Inductive result (A : Type) : Type :=
| Ok (a : A)
| Throw (e : JsError).
Arguments Ok {A} a.
Arguments Throw {A} e.

Definition rbind {A B : Type} (c : result A) (k : A -> result B) : result B :=
  match c with
  | Ok a => k a
  | Throw e => Throw e
  end.

(** A number that may be [NaN]. *)
Inductive jsnum : Type :=
| Num (q : Q)
| NaN.

(** [ToNumber] on a slot value: [undefined] becomes [NaN]. *)
Definition ToNumber (v : option Q) : jsnum :=
  match v with
  | Some q => Num q
  | None => NaN
  end.

Definition lift2 (f : Q -> Q -> Q) (a b : jsnum) : jsnum :=
  match a, b with
  | Num x, Num y => Num (f x y)
  | _, _ => NaN
  end.

Definition jadd : jsnum -> jsnum -> jsnum := lift2 Qplus.
Definition jsub : jsnum -> jsnum -> jsnum := lift2 Qminus.
Definition jmul : jsnum -> jsnum -> jsnum := lift2 Qmult.
(** [Math.max(a, b)]: [NaN] as soon as one argument is. *)
Definition jmax : jsnum -> jsnum -> jsnum := lift2 Qmax.

(** [a / b] where [b] is a length: [0 / 0] is [NaN].  A non-zero numerator
    over zero would be an infinity, which the model does not represent;
    the code only divides a sum or a count over [b] elements by [b], so
    the numerator is zero whenever [b] is. *)
Definition jdiv (a b : jsnum) : jsnum :=
  match a, b with
  | Num x, Num y => if Qeq_bool y 0 then NaN else Num (x / y)
  | _, _ => NaN
  end.

(** [a > b] on slot values: a comparison with [undefined] is [false]. *)
Definition js_gt (a b : option Q) : bool :=
  match a, b with
  | Some x, Some y => negb (Qle_bool x y)
  | _, _ => false
  end.

(** ** Arrays *)

Definition MAX_ARRAY_LENGTH : Z := 4294967295.

(** [new Array(n)] *)
Definition new_Array {A : Type} (n : Z) : result (list (option A)) :=
  if ((0 <=? n) && (n <=? MAX_ARRAY_LENGTH))%Z
  then Ok (repeat None (Z.to_nat n))
  else Throw (RangeError "Invalid array length").

(** [a[i]] for a natural index *)
Definition js_get {A : Type} (a : list (option A)) (i : nat) : option A :=
  match nth_error a i with
  | Some v => v
  | None => None
  end.

(** [a[i]] for an integer index: negative indices are not elements *)
Definition js_getZ {A : Type} (a : list (option A)) (i : Z) : option A :=
  if (i <? 0)%Z then None else js_get a (Z.to_nat i).

(** [a[i]] on a dense array of numbers, for an integer index *)
Definition num_at (a : list Q) (i : Z) : option Q :=
  if (i <? 0)%Z then None else nth_error a (Z.to_nat i).

(** [a[i] = v]: in range the slot is replaced, past the end the array
    grows and the slots in between are holes. *)
Definition js_set {A : Type} (a : list (option A)) (i : nat) (v : option A)
  : list (option A) :=
  firstn i a ++ repeat None (i - length a) ++ v :: skipn (S i) a.

(** [for (let i = lo; i < lo + n; i++) body], the state threaded through *)
Fixpoint for_range {St : Type} (lo n : nat) (body : nat -> St -> St) (s : St)
  : St :=
  match n with
  | O => s
  | S n' => for_range (S lo) n' body (body lo s)
  end.

(** ** Objects whose set of properties matters: keys in insertion order *)

Definition JsObject : Type := list (string * option Q).

Fixpoint obj_get (o : JsObject) (k : string) : option (option Q) :=
  match o with
  | [] => None
  | (k', v) :: o' => if String.eqb k k' then Some v else obj_get o' k
  end.

(** [o[k] = v]: an existing property keeps its place *)
Fixpoint obj_set (o : JsObject) (k : string) (v : option Q) : JsObject :=
  match o with
  | [] => [(k, v)]
  | (k', v') :: o' =>
      if String.eqb k k' then (k', v) :: o' else (k', v') :: obj_set o' k v
  end.

(** [{ ...o, ...src }] *)
Definition obj_spread (o src : JsObject) : JsObject :=
  fold_left (fun acc kv => obj_set acc (fst kv) (snd kv)) src o.

Definition obj_keys (o : JsObject) : list string := map fst o.

(** ** [array.sort((a, b) => a - b)] *)

Fixpoint insert_sorted (x : Q) (l : list Q) : list Q :=
  match l with
  | [] => [x]
  | y :: l' => if Qle_bool x y then x :: l else y :: insert_sorted x l'
  end.

(** Ascending numeric order; equal elements keep their order (the sort
    of the language is stable). *)
Fixpoint sort_numeric (l : list Q) : list Q :=
  match l with
  | [] => []
  | x :: l' => insert_sorted x (sort_numeric l')
  end.

Fixpoint defined {A : Type} (a : list (option A)) : list A :=
  match a with
  | [] => []
  | Some x :: a' => x :: defined a'
  | None :: a' => defined a'
  end.

(** On an array with [undefined] slots the numbers are sorted and the
    [undefined]s go to the end without being compared. *)
Definition sort_slots (a : list (option Q)) : list (option Q) :=
  map Some (sort_numeric (defined a))
    ++ repeat None (length a - length (defined a)).

End Js.
Import Js.

(* ================================================================== *)
(** * taxCalculator.js *)
(* ================================================================== *)

Module TaxCalculator.

Definition CAPITAL_GAINS_RATE : Q := 0.3784.
Definition STEP_UP_FACTOR : Q := 1.72.
Definition FLAT_RATE : Q := 0.22.

Definition calculateCapitalGainsTax (totalValue costBasis : Q) : Q :=
  let capitalGains := Qmax 0 (totalValue - costBasis) in
  let tax := capitalGains * CAPITAL_GAINS_RATE in
  tax.

Definition calculateCapitalGainsTaxStepUp (totalValue costBasis : Q) : Q :=
  let capitalGains := Qmax 0 (totalValue - costBasis) in
  let steppedUpGains := capitalGains * STEP_UP_FACTOR in
  let tax := steppedUpGains * FLAT_RATE in
  tax.

Definition calculateAfterTaxValue (totalValue costBasis : Q) : Q :=
  let tax := calculateCapitalGainsTax totalValue costBasis in
  totalValue - tax.

Definition calculateEffectiveTaxRate (totalValue costBasis : Q) : Q :=
  let capitalGains := Qmax 0 (totalValue - costBasis) in
  if Qeq_bool capitalGains 0 then 0
  else
    let tax := calculateCapitalGainsTax totalValue costBasis in
    tax / capitalGains.

(** [riskFreeRate] absent: 0.039 *)
Definition calculateShielding (costBasis years : Q) (riskFreeRate : option Q)
  : Q :=
  let riskFreeRate :=
    match riskFreeRate with
    | Some r => r
    | None => 0.039
    end in
  costBasis * riskFreeRate * years.

End TaxCalculator.

(* ================================================================== *)
(** * monteCarloEngine.js *)
(* ================================================================== *)

Module MonteCarloEngine.

Definition NORWEGIAN_TAX_RATE : Q := 0.3784.

(** ** The historical data handed to the constructor *)

(** [ret] is the property [return] of an entry. *)
Record AnnualReturn : Type := { year : Z; ret : Q }.
Record ReturnStatistics : Type := { mean_return : Q; std_deviation : Q }.
Record HistoricalReturns : Type :=
  { annual_returns : list AnnualReturn; statistics : ReturnStatistics }.

Record Engine : Type := { returns : list Q; meanReturn : Q; stdDev : Q }.

Definition constructor (historicalReturns : HistoricalReturns) : Engine :=
  {| returns := map ret (annual_returns historicalReturns);
     meanReturn := mean_return (statistics historicalReturns);
     stdDev := std_deviation (statistics historicalReturns) |}.

(** ** Randomness and exceptions

    The engine draws from [Math.random()] and can throw.  The random
    source is the sequence of the values the successive calls return,
    together with the number of calls made so far. *)

Record Rng : Type := { draws : nat -> Q; next : nat }.

Definition M (A : Type) : Type := Rng -> result (A * Rng).

Definition mret {A : Type} (a : A) : M A := fun g => Ok (a, g).

Definition mbind {A B : Type} (c : M A) (k : A -> M B) : M B :=
  fun g =>
    match c g with
    | Ok (a, g') => k a g'
    | Throw e => Throw e
    end.

Definition lift {A : Type} (r : result A) : M A :=
  fun g =>
    match r with
    | Ok a => Ok (a, g)
    | Throw e => Throw e
    end.

Definition Math_random : M Q :=
  fun g => Ok (draws g (next g), {| draws := draws g; next := S (next g) |}).

Declare Scope engine_scope.
Delimit Scope engine_scope with engine.
Notation "x <- c ;; k" := (mbind c (fun x => k))
  (at level 61, c at next level, right associativity) : engine_scope.
Notation "' p <- c ;; k" := (mbind c (fun x => match x with p => k end))
  (at level 61, p pattern, c at next level, right associativity) : engine_scope.
Open Scope engine_scope.

(** [for (let i = lo; i < lo + n; i++) body] inside the engine *)
Fixpoint for_range_m {St : Type} (lo n : nat) (body : nat -> St -> M St) (s : St)
  : M St :=
  match n with
  | O => mret s
  | S n' => s' <- body lo s ;; for_range_m (S lo) n' body s'
  end.

(** ** generateReturnPath *)

Definition generateReturnPath (this : Engine) (years : Z)
  : M (list (option Q)) :=
  path <- lift (new_Array years) ;;
  for_range_m 0 (Z.to_nat years)
    (fun i path =>
       r <- Math_random ;;
       let randomIndex :=
         Qfloor (r * inject_Z (Z.of_nat (length (returns this)))) in
       mret (js_set path i (num_at (returns this) randomIndex)))
    path.

(** ** calculateMortgageSavingsValue

    [Math.pow(1 + monthlyRate, totalMonths)] has an integer exponent here
    and is [Qpower]; the two agree on every finite result. *)

Definition calculateMortgageSavingsValue
    (monthlyPayment : Q) (years : Z) (annualRate : Q) : Q :=
  let monthlyRate := annualRate / 12 in
  let totalMonths := (years * 12)%Z in
  if Qeq_bool monthlyRate 0 then
    monthlyPayment * inject_Z totalMonths
  else
    let futureValue :=
      monthlyPayment *
        ((Qpower (1 + monthlyRate) totalMonths - 1) / monthlyRate) in
    futureValue.

(** ** calculateMortgageScenario *)

Definition calculateMortgageScenario
    (monthlyAmount : Q) (years : Z) (mortgageRate : Q) : Q :=
  calculateMortgageSavingsValue monthlyAmount years mortgageRate.

(** ** calculateStockScenario *)

Definition calculateStockScenario
    (monthlyAmount allocation : Q) (returns : list (option Q))
    (mortgageRate : Q) (years : Z) : jsnum :=
  let monthlyToStock := monthlyAmount * allocation in
  let monthlyToMortgage := monthlyAmount * (1 - allocation) in
  let '(stockValue, totalInvested) :=
    for_range 0 (length returns)
      (fun year '(stockValue, totalInvested) =>
         let annualReturn := js_get returns year in
         let annualContribution := monthlyToStock * 12 in
         let stockValue := jadd stockValue (Num annualContribution) in
         let totalInvested := totalInvested + annualContribution in
         let stockValue :=
           jmul stockValue (jadd (Num 1) (ToNumber annualReturn)) in
         (stockValue, totalInvested))
      (Num 0, 0) in
  let capitalGains := jmax (Num 0) (jsub stockValue (Num totalInvested)) in
  let tax := jmul capitalGains (Num NORWEGIAN_TAX_RATE) in
  let afterTaxStockValue := jsub stockValue tax in
  let mortgageSavings :=
    calculateMortgageSavingsValue monthlyToMortgage years mortgageRate in
  jadd afterTaxStockValue (Num mortgageSavings).

(** ** calculateStockScenarioWithPath *)

Record ScenarioWithPath : Type :=
  { finalValue : jsnum; yearlyValues : list (option jsnum) }.

Definition calculateStockScenarioWithPath
    (monthlyAmount allocation : Q) (returns : list (option Q))
    (mortgageRate : Q) (years : Z) : result ScenarioWithPath :=
  let monthlyToStock := monthlyAmount * allocation in
  let monthlyToMortgage := monthlyAmount * (1 - allocation) in
  rbind (new_Array (years + 1)) (fun yearlyValues =>
  let yearlyValues := js_set yearlyValues 0 (Some (Num 0)) in
  let '(stockValue, totalInvested, yearlyValues) :=
    for_range 0 (length returns)
      (fun year '(stockValue, totalInvested, yearlyValues) =>
         let annualContribution := monthlyToStock * 12 in
         let stockValue := jadd stockValue (Num annualContribution) in
         let totalInvested := totalInvested + annualContribution in
         let stockValue :=
           jmul stockValue (jadd (Num 1) (ToNumber (js_get returns year))) in
         let yearlyValues := js_set yearlyValues (year + 1) (Some stockValue) in
         (stockValue, totalInvested, yearlyValues))
      (Num 0, 0, yearlyValues) in
  let capitalGains := jmax (Num 0) (jsub stockValue (Num totalInvested)) in
  let tax := jmul capitalGains (Num NORWEGIAN_TAX_RATE) in
  let afterTaxStockValue := jsub stockValue tax in
  let mortgageSavings :=
    calculateMortgageSavingsValue monthlyToMortgage years mortgageRate in
  Ok {| finalValue := jadd afterTaxStockValue (Num mortgageSavings);
        yearlyValues := yearlyValues |}).

(** ** calculateMortgagePath *)

Definition calculateMortgagePath
    (monthlyPayment : Q) (years : Z) (annualRate : Q)
  : result (list (option Q)) :=
  let monthlyRate := annualRate / 12 in
  rbind (new_Array (years + 1)) (fun path =>
  let path := js_set path 0 (Some 0) in
  Ok (for_range 1 (Z.to_nat years)
        (fun year path =>
           let totalMonths := (Z.of_nat year * 12)%Z in
           if Qeq_bool monthlyRate 0 then
             js_set path year (Some (monthlyPayment * inject_Z totalMonths))
           else
             js_set path year
               (Some (monthlyPayment *
                        ((Qpower (1 + monthlyRate) totalMonths - 1)
                           / monthlyRate))))
        path)).

(** ** runSimulation *)

Record SimulationParams : Type :=
  { monthlyInvestment : Q;
    timeHorizon : Z;
    mortgageRate : Q;
    stockAllocation : Q;            (* 0-100 *)
    numSimulations : option Z }.    (* absent: 10000 *)

Record SimulationResults : Type :=
  { stock : list (option jsnum); mortgage : list (option Q) }.

Definition numSimulations_or_default (params : SimulationParams) : Z :=
  match numSimulations params with
  | Some n => n
  | None => 10000%Z
  end.

Definition runSimulation (this : Engine) (params : SimulationParams)
  : M SimulationResults :=
  let monthlyInvestment := monthlyInvestment params in
  let timeHorizon := timeHorizon params in
  let mortgageRate := mortgageRate params in
  let stockAllocation := stockAllocation params in
  let numSimulations := numSimulations_or_default params in
  stockResults <- lift (new_Array numSimulations) ;;
  mortgageResults <- lift (new_Array numSimulations) ;;
  ' (stockResults, mortgageResults) <-
    for_range_m 0 (Z.to_nat numSimulations)
      (fun i '(stockResults, mortgageResults) =>
         returns <- generateReturnPath this timeHorizon ;;
         let stockResults :=
           js_set stockResults i
             (Some (calculateStockScenario monthlyInvestment
                      (stockAllocation / 100) returns mortgageRate
                      timeHorizon)) in
         let mortgageResults :=
           js_set mortgageResults i
             (Some (calculateMortgageScenario monthlyInvestment timeHorizon
                      mortgageRate)) in
         mret (stockResults, mortgageResults))
      (stockResults, mortgageResults) ;;
  mret {| stock := stockResults; mortgage := mortgageResults |}.

(** ** runSimulationWithTimeSeries *)

Record TimeSeries : Type :=
  { stockPaths : list (option (list (option jsnum)));
    mortgagePath : list (option Q) }.

(** The object returned has the properties [stock], [mortgage] and
    [timeSeries]; the first two are prefixed here, the names being taken by
    [SimulationResults]. *)
Record TimeSeriesResults : Type :=
  { ts_stock : list (option jsnum);
    ts_mortgage : list (option Q);
    timeSeries : TimeSeries }.

Definition runSimulationWithTimeSeries
    (this : Engine) (params : SimulationParams) : M TimeSeriesResults :=
  let monthlyInvestment := monthlyInvestment params in
  let timeHorizon := timeHorizon params in
  let mortgageRate := mortgageRate params in
  let stockAllocation := stockAllocation params in
  let numSimulations := numSimulations_or_default params in
  stockResults <- lift (new_Array numSimulations) ;;
  mortgageResults <- lift (new_Array numSimulations) ;;
  stockPaths <- lift (new_Array numSimulations) ;;
  ' (stockResults, mortgageResults, stockPaths) <-
    for_range_m 0 (Z.to_nat numSimulations)
      (fun i '(stockResults, mortgageResults, stockPaths) =>
         returns <- generateReturnPath this timeHorizon ;;
         scenario <- lift (calculateStockScenarioWithPath monthlyInvestment
                             (stockAllocation / 100) returns mortgageRate
                             timeHorizon) ;;
         let stockResults :=
           js_set stockResults i (Some (finalValue scenario)) in
         let stockPaths :=
           js_set stockPaths i (Some (yearlyValues scenario)) in
         let mortgageResults :=
           js_set mortgageResults i
             (Some (calculateMortgageScenario monthlyInvestment timeHorizon
                      mortgageRate)) in
         mret (stockResults, mortgageResults, stockPaths))
      (stockResults, mortgageResults, stockPaths) ;;
  mortgagePath <- lift (calculateMortgagePath monthlyInvestment timeHorizon
                          mortgageRate) ;;
  mret {| ts_stock := stockResults;
          ts_mortgage := mortgageResults;
          timeSeries := {| stockPaths := stockPaths;
                           mortgagePath := mortgagePath |} |}.

End MonteCarloEngine.

(* ================================================================== *)
(** * histogramBinner.js *)
(* ================================================================== *)

Module HistogramBinner.

Record Bin : Type :=
  { binStart : Q;
    binEnd : Q;
    count : nat;
    midpoint : Q;
    percentage : option Q }.    (* absent until the last pass adds it *)

Definition with_count (bin : Bin) (c : nat) : Bin :=
  {| binStart := binStart bin; binEnd := binEnd bin; count := c;
     midpoint := midpoint bin; percentage := percentage bin |}.

Definition with_percentage (bin : Bin) (p : Q) : Bin :=
  {| binStart := binStart bin; binEnd := binEnd bin; count := count bin;
     midpoint := midpoint bin; percentage := Some p |}.

(** [for (let value of array) body], the body possibly throwing *)
Fixpoint for_of_r {St : Type} (a : list Q) (body : Q -> St -> result St) (s : St)
  : result St :=
  match a with
  | [] => Ok s
  | value :: a' => rbind (body value s) (for_of_r a' body)
  end.

(** [o.k]: an absent property reads as [undefined] *)
Definition obj_read (o : JsObject) (k : string) : option Q :=
  match obj_get o k with
  | Some v => v
  | None => None
  end.

Definition nat_Q (n : nat) : Q := inject_Z (Z.of_nat n).

Section WithMath.

(** [Math.pow] at a fractional exponent and [Math.sqrt] are not rational
    functions: they are taken as given.  Integer powers are [Qpower]. *)
Variable Math_pow : Q -> Q -> Q.
Variable Math_sqrt : Q -> Q.

(** ** calculateOptimalBins *)

Definition calculateOptimalBins (sortedData : list Q) : Z :=
  let n := length sortedData in
  match num_at sortedData (Qfloor (nat_Q n * 0.25)),
        num_at sortedData (Qfloor (nat_Q n * 0.75)),
        num_at sortedData (Z.of_nat n - 1),
        num_at sortedData 0 with
  | Some q1, Some q3, Some hi, Some lo =>
      let iqr := q3 - q1 in
      let binWidth := (2 * iqr) / Math_pow (nat_Q n) (1 / 3) in
      let range := hi - lo in
      let numBins :=
        if negb (Qle_bool binWidth 0) then Qceiling (range / binWidth)
        else 30%Z in
      Z.max 20 (Z.min 60 numBins)
  | _, _, _, _ =>
      (* only on the empty array: the quartiles are undefined, binWidth is
         NaN and [binWidth > 0] is false *)
      Z.max 20 (Z.min 60 30)
  end.

(** ** binData *)

Definition binData (data : list Q) (numBins : option Z)
  : result (list (option Bin)) :=
  match data with
  | [] => Ok []
  | _ :: _ =>
      let sortedData := sort_numeric data in
      let numBins :=
        match numBins with
        | None => calculateOptimalBins sortedData
        | Some k => k
        end in
      (* sortedData is not empty: the defaults are never read *)
      let min := hd 0 sortedData in
      let max := last sortedData 0 in
      if Qeq_bool min max then
        Ok [Some {| binStart := min; binEnd := max; count := length data;
                    midpoint := min; percentage := Some 100 |}]
      else
        let binWidth := (max - min) / inject_Z numBins in
        rbind (new_Array numBins) (fun bins =>
        let bins :=
          for_range 0 (Z.to_nat numBins)
            (fun i bins =>
               js_set bins i
                 (Some {| binStart := min + nat_Q i * binWidth;
                          binEnd := min + (nat_Q i + 1) * binWidth;
                          count := 0;
                          midpoint := min + (nat_Q i + 0.5) * binWidth;
                          percentage := None |}))
            bins in
        rbind
          (for_of_r sortedData
             (fun value bins =>
                let binIndex :=
                  Z.min (Qfloor ((value - min) / binWidth)) (numBins - 1) in
                match js_getZ bins binIndex with
                | Some bin =>
                    Ok (js_set bins (Z.to_nat binIndex)
                          (Some (with_count bin (count bin + 1))))
                | None =>
                    Throw (TypeError "Cannot read properties of undefined")
                end)
             bins)
          (fun bins =>
        let totalCount := length data in
        Ok (map (option_map
                   (fun bin =>
                      with_percentage bin
                        (nat_Q (count bin) / nat_Q totalCount * 100)))
              bins)))
  end.

(** ** calculatePercentiles *)

Definition calculatePercentiles (data : list Q) : JsObject :=
  let sorted := sort_numeric data in
  let n := length sorted in
  [ ("p5", num_at sorted (Qfloor (nat_Q n * 0.05)));
    ("p25", num_at sorted (Qfloor (nat_Q n * 0.25)));
    ("p50", num_at sorted (Qfloor (nat_Q n * 0.50)));
    ("p75", num_at sorted (Qfloor (nat_Q n * 0.75)));
    ("p95", num_at sorted (Qfloor (nat_Q n * 0.95))) ].

(** ** calculateStatistics: [None] is [null] *)

Definition calculateStatistics (data : list Q) : option JsObject :=
  match data with
  | [] => None
  | _ :: _ =>
      let sorted := sort_numeric data in
      let n := length sorted in
      let mean := fold_left Qplus data 0 / nat_Q n in
      let squareDiffs := map (fun val => Qpower (val - mean) 2) data in
      let variance := fold_left Qplus squareDiffs 0 / nat_Q n in
      let stdDev := Math_sqrt variance in
      let percentiles := calculatePercentiles data in
      Some (obj_spread
              [ ("mean", Some mean);
                ("median", obj_read percentiles "p50");
                ("stdDev", Some stdDev);
                ("min", num_at sorted 0);
                ("max", num_at sorted (Z.of_nat n - 1)) ]
              percentiles)
  end.

End WithMath.

(** ** calculateOutperformanceProbability *)

Definition calculateOutperformanceProbability (data1 data2 : list Q)
  : result jsnum :=
  if negb (length data1 =? length data2)%nat then
    Throw (Error "Data arrays must have equal length")
  else
    let wins :=
      for_range 0 (length data1)
        (fun i wins =>
           if js_gt (nth_error data1 i) (nth_error data2 i)
           then (wins + 1)%nat else wins)
        0%nat in
    Ok (jdiv (Num (nat_Q wins)) (Num (nat_Q (length data1)))).

End HistogramBinner.

(* ================================================================== *)
(** * histogramBinner.js in binary64 *)
(* ================================================================== *)

(** [calculateOptimalBins] and [binData] once more, line by line, with
    numbers as the binary64 floats the language computes with: the
    primitive floats of the kernel, IEEE 754 with rounding to nearest,
    ties to even, whose [+], [-], [*] and [/] are those of JavaScript.
    Counts, bin counts and indices stay integers.  The arrays hold
    numbers other than [NaN] (on [NaN] the order [sort] produces depends
    on the engine). *)

Module HistogramBinner64.

Import PrimFloat FloatOps SpecFloat.
Local Open Scope float_scope.

Record Bin : Type :=
  { binStart : float;
    binEnd : float;
    count : nat;
    midpoint : float;
    percentage : option float }.    (* absent until the last pass adds it *)

Definition with_count (bin : Bin) (c : nat) : Bin :=
  {| binStart := binStart bin; binEnd := binEnd bin; count := c;
     midpoint := midpoint bin; percentage := percentage bin |}.

Definition with_percentage (bin : Bin) (p : float) : Bin :=
  {| binStart := binStart bin; binEnd := binEnd bin; count := count bin;
     midpoint := midpoint bin; percentage := Some p |}.

(** A length, a count or an index as a number: exact below [2^53], and
    array lengths stay below [2^32]. *)
Definition of_nat (n : nat) : float := of_uint63 (Uint63.of_Z (Z.of_nat n)).

(** A bin count as a number (exact for a valid array length) *)
Definition of_Z (z : Z) : float :=
  if (z <? 0)%Z then - of_uint63 (Uint63.of_Z (- z))
  else of_uint63 (Uint63.of_Z z).

(** [ToNumber] on a slot value: [undefined] becomes [NaN]. *)
Definition ToNumber (v : option float) : float :=
  match v with
  | Some x => x
  | None => nan
  end.

(** What [Math.floor] and [Math.ceil] return: an integer, an infinity or
    [NaN]. *)
Inductive integral : Type :=
| Finite (z : Z)
| Infinite (negative : bool)
| NotANumber.

(** [Math.floor]: a finite float is [m * 2^e] for integers [m] and [e]. *)
Definition Math_floor (x : float) : integral :=
  match Prim2SF x with
  | S754_zero _ => Finite 0
  | S754_infinity s => Infinite s
  | S754_nan => NotANumber
  | S754_finite s m e =>
      let n := if s then Z.neg m else Z.pos m in
      Finite (if (0 <=? e)%Z then n * 2 ^ e else n / 2 ^ (- e))%Z
  end.

(** [Math.ceil(x)] is [-Math.floor(-x)]. *)
Definition Math_ceil (x : float) : integral :=
  match Math_floor (- x) with
  | Finite z => Finite (- z)
  | Infinite s => Infinite (negb s)
  | NotANumber => NotANumber
  end.

(** [a[i]] for what [Math.floor] returned: only an integer inside the
    array reads an element. *)
Definition at_index (a : list float) (i : integral) : option float :=
  match i with
  | Finite z => if (z <? 0)%Z then None else nth_error a (Z.to_nat z)
  | _ => None
  end.

(** ** [array.sort((a, b) => a - b)]: [a - b <= 0] exactly when [a <= b] *)

Fixpoint insert_sorted (x : float) (l : list float) : list float :=
  match l with
  | [] => [x]
  | y :: l' => if x <=? y then x :: l else y :: insert_sorted x l'
  end.

Fixpoint sort_numeric (l : list float) : list float :=
  match l with
  | [] => []
  | x :: l' => insert_sorted x (sort_numeric l')
  end.

(** [for (let value of array) body], the body possibly throwing *)
Fixpoint for_of_r {St : Type} (a : list float)
    (body : float -> St -> result St) (s : St) : result St :=
  match a with
  | [] => Ok s
  | value :: a' => rbind (body value s) (for_of_r a' body)
  end.

Section WithMath.

(** [Math.pow], taken as given. *)
Variable Math_pow : float -> float -> float.

(** ** calculateOptimalBins: [None] is [NaN] *)

Definition calculateOptimalBins (sortedData : list float) : option Z :=
  let n := length sortedData in
  let q1 := at_index sortedData (Math_floor (of_nat n * 0.25)) in
  let q3 := at_index sortedData (Math_floor (of_nat n * 0.75)) in
  let iqr := ToNumber q3 - ToNumber q1 in
  let binWidth := (2 * iqr) / Math_pow (of_nat n) (1 / 3) in
  let range :=
    ToNumber (at_index sortedData (Finite (Z.of_nat n - 1)))
    - ToNumber (at_index sortedData (Finite 0)) in
  let numBins :=
    if 0 <? binWidth then Math_ceil (range / binWidth) else Finite 30 in
  (* Math.max(20, Math.min(60, numBins)) *)
  match numBins with
  | Finite z => Some (Z.max 20 (Z.min 60 z))
  | Infinite true => Some 20%Z
  | Infinite false => Some 60%Z
  | NotANumber => None
  end.

(** ** binData *)

Definition binData (data : list float) (numBins : option Z)
  : result (list (option Bin)) :=
  match data with
  | [] => Ok []
  | _ :: _ =>
      let sortedData := sort_numeric data in
      (* from here on [None] is [NaN] *)
      let numBins :=
        match numBins with
        | None => calculateOptimalBins sortedData
        | Some k => Some k
        end in
      (* sortedData is not empty: the defaults are never read *)
      let min := hd 0 sortedData in
      let max := last sortedData 0 in
      if min =? max then
        Ok [Some {| binStart := min; binEnd := max; count := length data;
                    midpoint := min; percentage := Some 100 |}]
      else
        match numBins with
        | None => Throw (RangeError "Invalid array length")
        | Some numBins =>
            let binWidth := (max - min) / of_Z numBins in
            rbind (new_Array numBins) (fun bins =>
            let bins :=
              for_range 0 (Z.to_nat numBins)
                (fun i bins =>
                   js_set bins i
                     (Some {| binStart := min + of_nat i * binWidth;
                              binEnd := min + (of_nat i + 1) * binWidth;
                              count := 0;
                              midpoint := min + (of_nat i + 0.5) * binWidth;
                              percentage := None |}))
                bins in
            rbind
              (for_of_r sortedData
                 (fun value bins =>
                    (* Math.min(Math.floor(...), numBins - 1); [None] is
                       [NaN] or [-Infinity], where [bins[binIndex]] is
                       undefined *)
                    let binIndex :=
                      match Math_floor ((value - min) / binWidth) with
                      | Finite z => Some (Z.min z (numBins - 1))
                      | Infinite false => Some (numBins - 1)%Z
                      | Infinite true => None
                      | NotANumber => None
                      end in
                    match binIndex with
                    | Some i =>
                        match js_getZ bins i with
                        | Some bin =>
                            Ok (js_set bins (Z.to_nat i)
                                  (Some (with_count bin (count bin + 1))))
                        | None =>
                            Throw
                              (TypeError
                                 "Cannot read properties of undefined")
                        end
                    | None =>
                        Throw
                          (TypeError "Cannot read properties of undefined")
                    end)
                 bins)
              (fun bins =>
            let totalCount := length data in
            Ok (map (option_map
                       (fun bin =>
                          with_percentage bin
                            (of_nat (count bin) / of_nat totalCount * 100)))
                  bins)))
        end
  end.

End WithMath.

End HistogramBinner64.

(* ================================================================== *)
(** * utils/statistics.js *)
(* ================================================================== *)

Module Statistics.

Import HistogramBinner.

(** ** percentile: [None] is [undefined] *)

Definition percentile (sortedArray : list Q) (p : Q) : option Q :=
  if (length sortedArray =? 0)%nat then Some 0
  else
    let index := Qfloor (nat_Q (length sortedArray) * p) in
    num_at sortedArray (Z.min index (Z.of_nat (length sortedArray) - 1)).

(** ** mean *)

Definition mean (array : list Q) : Q :=
  if (length array =? 0)%nat then 0
  else fold_left Qplus array 0 / nat_Q (length array).

(** ** median

    The array is not empty where it is read, and [mid - 1] and [mid] are
    indices of it: the default of [nth] is never returned. *)

Definition median (array : list Q) : Q :=
  if (length array =? 0)%nat then 0
  else
    let sorted := sort_numeric array in
    let mid := (length sorted / 2)%nat in
    if (length sorted mod 2 =? 0)%nat then
      (nth (mid - 1) sorted 0 + nth mid sorted 0) / 2
    else nth mid sorted 0.

(** ** variance *)

Definition variance (array : list Q) : Q :=
  if (length array =? 0)%nat then 0
  else
    let avg := mean array in
    let squareDiffs := map (fun val => Qpower (val - avg) 2) array in
    mean squareDiffs.

(** ** probabilityOutperforms *)

Definition probabilityOutperforms (scenario1 scenario2 : list Q)
  : result jsnum :=
  if negb (length scenario1 =? length scenario2)%nat then
    Throw (Error "Arrays must have equal length")
  else
    let wins :=
      for_range 0 (length scenario1)
        (fun i wins =>
           if js_gt (nth_error scenario1 i) (nth_error scenario2 i)
           then (wins + 1)%nat else wins)
        0%nat in
    Ok (jdiv (Num (nat_Q wins)) (Num (nat_Q (length scenario1)))).

Section WithMath.

Variable Math_sqrt : Q -> Q.

(** ** stdDev *)

Definition stdDev (array : list Q) : Q :=
  if (length array =? 0)%nat then 0
  else
    let avg := mean array in
    let squareDiffs := map (fun val => Qpower (val - avg) 2) array in
    let avgSquareDiff := mean squareDiffs in
    Math_sqrt avgSquareDiff.

(** ** summarize: [None] is [null] *)

Definition summarize (data : list Q) : option JsObject :=
  match data with
  | [] => None
  | _ :: _ =>
      let sorted := sort_numeric data in
      Some [ ("count", Some (nat_Q (length data)));
             ("mean", Some (mean data));
             ("median", Some (median data));
             ("stdDev", Some (stdDev data));
             ("min", num_at sorted 0);
             ("max", num_at sorted (Z.of_nat (length sorted) - 1));
             ("p5", percentile sorted 0.05);
             ("p25", percentile sorted 0.25);
             ("p75", percentile sorted 0.75);
             ("p95", percentile sorted 0.95) ]
  end.

End WithMath.

End Statistics.

(* ================================================================== *)
(** * timeSeriesStats.js *)
(* ================================================================== *)

Module TimeSeriesStats.

Import HistogramBinner.

Record Band : Type :=
  { year : Z;
    p5 : option Q;
    p25 : option Q;
    p50 : option Q;
    p75 : option Q;
    p95 : option Q;
    mean : jsnum }.

Definition computeTimeSeriesBands (paths : list (list Q)) (years : Z)
  : result (list (option Band)) :=
  let numSims := length paths in
  rbind (new_Array (years + 1)) (fun bands =>
  Ok (for_range 0 (Z.to_nat (years + 1))
        (fun y bands =>
           (* numSims is the length of an array: the allocation succeeds *)
           let values : list (option Q) := repeat None numSims in
           let values :=
             for_range 0 numSims
               (fun i values => js_set values i (nth_error (nth i paths []) y))
               values in
           let values := sort_slots values in
           let sum :=
             for_range 0 numSims
               (fun i sum => jadd sum (ToNumber (js_get values i)))
               (Num 0) in
           js_set bands y
             (Some {| year := Z.of_nat y;
                      p5 := js_getZ values (Qfloor (nat_Q numSims * 0.05));
                      p25 := js_getZ values (Qfloor (nat_Q numSims * 0.25));
                      p50 := js_getZ values (Qfloor (nat_Q numSims * 0.50));
                      p75 := js_getZ values (Qfloor (nat_Q numSims * 0.75));
                      p95 := js_getZ values (Qfloor (nat_Q numSims * 0.95));
                      mean := jdiv sum (Num (nat_Q numSims)) |}))
        bands)).

End TimeSeriesStats.

(* ================================================================== *)
(** * hooks/useSimulation.js: what the hook derives from a run *)
(* ================================================================== *)

Module UseSimulation.

Import TimeSeriesStats.

(** A band with the mortgage value of its year, [{ ...band, mortgage }]. *)
Record TimeSeriesDatum : Type := { band : Band; mortgage : option Q }.

(** [stockBands.map((band, i) => ({ ...band, mortgage: mortgagePath[i] }))] *)
Definition timeSeriesData
    (stockBands : list (option Band)) (mortgagePath : list (option Q))
  : list (option TimeSeriesDatum) :=
  map (fun '(i, slot) =>
         option_map
           (fun band => {| band := band; mortgage := js_get mortgagePath i |})
           slot)
      (combine (seq 0 (length stockBands)) stockBands).

(** [probabilityMortgageWins: 1 - probabilityStockWins] *)
Definition probabilityMortgageWins (probabilityStockWins : jsnum) : jsnum :=
  jsub (Num 1) probabilityStockWins.

End UseSimulation.

(* ================================================================== *)
(** * components/TimeChart.jsx: the rows of the fan chart *)
(* ================================================================== *)

Module TimeChart.

Import TimeSeriesStats.

Record ChartRow : Type :=
  { year : Z;
    base : option Q;
    outerLower : jsnum;
    innerBand : jsnum;
    outerUpper : jsnum;
    median : option Q;
    mortgage : option Q;
    _p5 : option Q;
    _p25 : option Q;
    _p50 : option Q;
    _p75 : option Q;
    _p95 : option Q;
    _mean : jsnum }.

(** [timeSeriesData.map(d => ({ year: d.year, base: d.p5, ... }))] *)
Definition chartData (timeSeriesData : list (option UseSimulation.TimeSeriesDatum))
  : list (option ChartRow) :=
  map (option_map
         (fun d =>
            let b := UseSimulation.band d in
            {| year := TimeSeriesStats.year b;
               base := p5 b;
               outerLower := jsub (ToNumber (p25 b)) (ToNumber (p5 b));
               innerBand := jsub (ToNumber (p75 b)) (ToNumber (p25 b));
               outerUpper := jsub (ToNumber (p95 b)) (ToNumber (p75 b));
               median := p50 b;
               mortgage := UseSimulation.mortgage d;
               _p5 := p5 b;
               _p25 := p25 b;
               _p50 := p50 b;
               _p75 := p75 b;
               _p95 := p95 b;
               _mean := mean b |}))
      timeSeriesData.

End TimeChart.

(* ================================================================== *)
(** * components/HistogramChart.jsx: the axis of the histogram *)
(* ================================================================== *)

Module HistogramChart.

Import HistogramBinner.

(** [value < bound] on numbers *)
Definition Qltb (x y : Q) : bool := negb (Qle_bool y x).

(** [roundTo] *)
Definition roundTo (value : Q) : Q :=
  if Qltb value 100000 then inject_Z (Qceiling (value / 10000)) * 10000
  else if Qltb value 1000000 then inject_Z (Qceiling (value / 100000)) * 100000
  else inject_Z (Qceiling (value / 500000)) * 500000.

(** The loop of [generateTicks]: a tick is pushed while it is at most
    [max], and the loop is left once 8 ticks are in the array, so that
    [slots] counts the pushes still allowed. *)
Fixpoint ticks_loop (slots : nat) (tick max tickInterval : Q) : list Q :=
  match slots with
  | O => []
  | S slots' =>
      if Qle_bool tick max
      then tick :: ticks_loop slots' (tick + tickInterval) max tickInterval
      else []
  end.

(** [generateTicks] *)
Definition generateTicks (min max : Q) : list Q :=
  let range := max - min in
  let tickInterval :=
    if Qle_bool range 500000 then 100000
    else if Qle_bool range 2000000 then 250000
    else if Qle_bool range 5000000 then 500000
    else 1000000 in
  let ticks :=
    ticks_loop 8
      (inject_Z (Qceiling (min / tickInterval)) * tickInterval)
      max tickInterval in
  if (0 <? length ticks)%nat then ticks else [min; max].





End HistogramChart.

(* ================================================================== *)
(** * The specification's vocabulary

    Definitions written from the words of the specification, to which the
    code above is compared. *)
(* ================================================================== *)

Module Spec.

Import MonteCarloEngine HistogramBinner.

(** Stock value after the years of a return path: each year the yearly
    contribution [c] is added, then the year's return is applied. *)
Definition grow (c : Q) (path : list Q) : Q :=
  fold_left (fun stockValue r => (stockValue + c) * (1 + r)) path 0.

(** Cost basis after [n] yearly contributions. *)
Fixpoint invested (c : Q) (n : nat) : Q :=
  match n with
  | O => 0
  | S n' => invested c n' + c
  end.

(** Value left once the gains over the cost basis are taxed. *)
Definition after_tax (value basis : Q) : Q :=
  value - Qmax 0 (value - basis) * 0.3784.

(** The return path of trial [i]: trial [i] consumes the draws
    [i * years .. i * years + years - 1]. *)
Definition trial_path (this : Engine) (g : Rng) (years i : nat)
  : list (option Q) :=
  map (fun k =>
         num_at (returns this)
           (Qfloor (draws g (next g + i * years + k)%nat
                    * nat_Q (length (returns this)))))
      (seq 0 years).

(** The parameters the specification calls invalid. *)
Definition invalid_parameters (params : SimulationParams) : Prop :=
  (timeHorizon params <= 0)%Z
  \/ (numSimulations_or_default params <= 0)%Z
  \/ ~ (0 <= stockAllocation params / 100 <= 1).

(** ** Example inputs

    A data set of two years and a random source whose every draw is 0,
    which selects the first of them. *)
Definition example_engine : Engine :=
  {| returns := [-0.5; 0.25]; meanReturn := -0.125; stdDev := 0.375 |}.

Definition example_rng : Rng := {| draws := fun _ => 0; next := 0 |}.

(** Parameters the specification calls invalid: 150% of the surplus to
    stocks. *)
Definition over_allocated : SimulationParams :=
  {| monthlyInvestment := 1000;
     timeHorizon := 2;
     mortgageRate := 0;
     stockAllocation := 150;
     numSimulations := Some 2%Z |}.

(** Valid parameters: half of the surplus to stocks, two years, two
    trials. *)
Definition half_allocated : SimulationParams :=
  {| monthlyInvestment := 1000;
     timeHorizon := 2;
     mortgageRate := 0;
     stockAllocation := 50;
     numSimulations := Some 2%Z |}.

(** A negative trial count, and a negative horizon. *)
Definition negative_trials : SimulationParams :=
  {| monthlyInvestment := 1000;
     timeHorizon := 2;
     mortgageRate := 0;
     stockAllocation := 50;
     numSimulations := Some (-1)%Z |}.

Definition negative_horizon : SimulationParams :=
  {| monthlyInvestment := 1000;
     timeHorizon := -1;
     mortgageRate := 0;
     stockAllocation := 50;
     numSimulations := Some 2%Z |}.

(** The behaviour the specification asks for on invalid parameters: both
    entry points throw. *)
Definition fails_fast (this : Engine) (params : SimulationParams) (g : Rng)
  : Prop :=
  (exists e, runSimulation this params g = Throw e)
  /\ (exists e, runSimulationWithTimeSeries this params g = Throw e).

(** Number of positions where the first collection strictly exceeds the
    second. *)
Fixpoint wins (a b : list Q) : nat :=
  match a, b with
  | x :: a', y :: b' => (if Qlt_le_dec y x then 1 else 0) + wins a' b'
  | _, _ => 0
  end.

(** Positions where the two collections hold equal values. *)
Fixpoint ties (a b : list Q) : nat :=
  match a, b with
  | x :: a', y :: b' => (if Qeq_dec x y then 1 else 0) + ties a' b'
  | _, _ => 0
  end.

(** [m] is the least element of [l]. *)
Definition is_min (m : Q) (l : list Q) : Prop :=
  (exists x, In x l /\ x == m) /\ forall x, In x l -> m <= x.

(** [m] is the greatest element of [l]. *)
Definition is_max (m : Q) (l : list Q) : Prop :=
  (exists x, In x l /\ x == m) /\ forall x, In x l -> x <= m.

(** Each bin ends where the next one starts. *)
Definition contiguous (bins : list Bin) : Prop :=
  forall i b1 b2,
    nth_error bins i = Some b1 -> nth_error bins (S i) = Some b2 ->
    binEnd b1 == binStart b2.

(** Bins in ascending order of their ranges, none overlapping another: a
    bin that comes later starts at or after the end of an earlier one. *)
Definition ascending (bins : list Bin) : Prop :=
  Forall (fun b => binStart b <= binEnd b) bins
  /\ forall i j b1 b2,
       (i < j)%nat -> nth_error bins i = Some b1 -> nth_error bins j = Some b2 ->
       binEnd b1 <= binStart b2.

Definition total_count (bins : list Bin) : nat :=
  fold_right (fun b acc => (count b + acc)%nat) 0%nat bins.

(** ** Vocabulary of the proofs *)

(** The yearly values recorded up to year [i] of a return path. *)
Definition yearly_prefix (c : Q) (rs : list Q) (i : nat)
  : list (option jsnum) :=
  map (fun k => Some (Num (grow c (firstn k rs)))) (seq 0 (S i)).
Arguments yearly_prefix : simpl never.

(** The random source after [n] more draws. *)
Definition advance (g : Rng) (n : nat) : Rng :=
  {| draws := draws g; next := (next g + n)%nat |}.

(** The values of year [y] across the trials, sorted. *)
Definition sorted_column (paths : list (list Q)) (y : nat) : list Q :=
  sort_numeric (map (fun row => nth y row 0) paths).

(** Bin [i] of the equal-width partition that starts at [lo], holding [c]
    values. *)
Definition edge_bin (lo w : Q) (i c : nat) : Bin :=
  {| binStart := lo + nat_Q i * w;
     binEnd := lo + (nat_Q i + 1) * w;
     count := c;
     midpoint := lo + (nat_Q i + 0.5) * w;
     percentage := None |}.

(** The bins array while it is being counted into: [cnt i] values in bin
    [i]. *)
Definition counting_bins (lo w : Q) (n : nat) (cnt : nat -> nat)
  : list (option Bin) :=
  map (fun i => Some (edge_bin lo w i (cnt i))) (seq 0 n).

Fixpoint sum_counts (cnt : nat -> nat) (n : nat) : nat :=
  match n with
  | O => 0
  | S n' => (sum_counts cnt n' + cnt n')%nat
  end.

End Spec.

(* ================================================================== *)
(** * Further vocabulary *)
(* ================================================================== *)

Module SpecMore.

Import MonteCarloEngine HistogramBinner.

(** [1 + x + ... + x^(n-1)]: what [n] payments of 1 are worth when each
    period multiplies the balance by [x]. *)
Fixpoint annuity_sum (x : Q) (n : nat) : Q :=
  match n with
  | O => 0
  | S k => annuity_sum x k + Qpower x (Z.of_nat k)
  end.

(** The yearly values [calculateStockScenarioWithPath] records (none when
    it throws). *)
Definition yearly_of (m a : Q) (path : list (option Q)) (rate : Q) (years : Z)
  : list (option jsnum) :=
  match calculateStockScenarioWithPath m a path rate years with
  | Ok scenario => yearlyValues scenario
  | Throw _ => []
  end.

(** An engine whose data set is empty. *)
Definition empty_engine : Engine :=
  {| returns := []; meanReturn := 0; stdDev := 0 |}.

(** No surplus to stocks. *)
Definition nothing_allocated : SimulationParams :=
  {| monthlyInvestment := 1000;
     timeHorizon := 2;
     mortgageRate := 0.045;
     stockAllocation := 0;
     numSimulations := Some 3%Z |}.

(** The index of the bin a value is counted in. *)
Definition bin_index (lo w : Q) (k : Z) (v : Q) : Z :=
  Z.min (Qfloor ((v - lo) / w)) (k - 1).

(** The percentages of the bins, added up. *)
Definition total_percentage (bins : list Bin) : Q :=
  fold_right
    (fun b acc =>
       match percentage b with
       | Some p => p + acc
       | None => acc
       end)
    0 bins.

(** The sum of a list of numbers. *)
Definition Qsum (l : list Q) : Q := fold_right Qplus 0 l.

End SpecMore.

(* ================================================================== *)
(** * Vocabulary for the bands of the fan chart *)
(* ================================================================== *)

Module SpecBands.

Import HistogramBinner TimeSeriesStats Spec.

(** The values of year [y] across the trials, in trial order. *)
Definition column (paths : list (list Q)) (y : nat) : list Q :=
  map (fun row => nth y row 0) paths.

(** The band of year [y]: nearest-rank reads in the sorted column and the
    average of the column. *)
Definition band_of (paths : list (list Q)) (y : nat) : Band :=
  let s := sorted_column paths y in
  let n := length paths in
  {| year := Z.of_nat y;
     p5 := num_at s (Qfloor (nat_Q n * 0.05));
     p25 := num_at s (Qfloor (nat_Q n * 0.25));
     p50 := num_at s (Qfloor (nat_Q n * 0.50));
     p75 := num_at s (Qfloor (nat_Q n * 0.75));
     p95 := num_at s (Qfloor (nat_Q n * 0.95));
     mean := Num (fold_left Qplus s 0 / nat_Q n) |}.

(** The band of a year for which no value was simulated. *)
Definition empty_band (y : nat) : Band :=
  {| year := Z.of_nat y;
     p5 := None; p25 := None; p50 := None; p75 := None; p95 := None;
     mean := NaN |}.

End SpecBands.

(* ================================================================== *)
(** * Vocabulary for the binary64 bins *)
(* ================================================================== *)

Module SpecBinary64.

Import PrimFloat HistogramBinner64.

(** The greatest element of an array of numbers (0 on the empty one). *)
Definition maximum (data : list float) : float :=
  last (sort_numeric data) 0%float.

(** The end of the last bin of what [binData] returned. *)
Definition last_bin_end (r : result (list (option Bin))) : option float :=
  match r with
  | Ok bins => option_map binEnd (js_get bins (length bins - 1))
  | Throw _ => None
  end.

(** The claim about the upper end: [binData] returns bins, and the last
    one ends at the greatest element of the input. *)
Definition ends_at_maximum
    (data : list float) (r : result (list (option Bin))) : Prop :=
  exists e, last_bin_end r = Some e /\ e = maximum data.

(** [Math.pow(5, 1 / 3)] *)
Definition cube_root_of_5 : float := 0x1.b5c0fbcfec4d3p+0%float.

(** Five outcomes, the least of them 6 and the greatest 32. *)
Definition five_outcomes : list float := [32; 31; 6; 30; 31]%float.

End SpecBinary64.

(* ================================================================== *)
(** * Properties of the JavaScript layer *)
(* ================================================================== *)

Module JsFacts.

Lemma rbind_Ok {A B : Type} (a : A) (k : A -> result B) :
  rbind (Ok a) k = k a.
Proof. reflexivity. Qed.

(** Loop invariants: what holds before the loop and is kept by the body
    holds after it. *)
Lemma for_range_inv {St : Type} (P : nat -> St -> Prop)
    (body : nat -> St -> St) :
  forall n lo s,
    P lo s ->
    (forall i t, (lo <= i < lo + n)%nat -> P i t -> P (S i) (body i t)) ->
    P (lo + n)%nat (for_range lo n body s).
Proof.
  induction n as [|n IH]; intros lo s H0 Hstep; simpl.
  - now rewrite Nat.add_0_r.
  - rewrite <- Nat.add_succ_comm. apply IH.
    + apply Hstep; [lia | exact H0].
    + intros i t Hi. apply Hstep. lia.
Qed.

(** Writing just after a filled prefix: the hole there, if any, is taken,
    otherwise the array grows by one. *)
Lemma js_set_at_end {A : Type} (pre : list (option A)) (k i : nat)
    (v : option A) :
  length pre = i ->
  js_set (pre ++ repeat None k) i v = pre ++ v :: repeat None (k - 1).
Proof.
  intros <-. unfold js_set.
  rewrite firstn_app, firstn_all, Nat.sub_diag, firstn_O, app_nil_r.
  rewrite length_app, repeat_length.
  replace (length pre - (length pre + k))%nat with 0%nat by lia.
  cbn [repeat app].
  rewrite skipn_app, skipn_all2 by lia.
  replace (S (length pre) - length pre)%nat with 1%nat by lia.
  destruct k as [|k]; simpl; [reflexivity|].
  now rewrite Nat.sub_0_r.
Qed.

(** Writing inside the array replaces one slot. *)
Lemma js_set_inside {A : Type} (pre : list (option A)) (old v : option A)
    (post : list (option A)) (i : nat) :
  length pre = i ->
  js_set (pre ++ old :: post) i v = pre ++ v :: post.
Proof.
  intros <-. unfold js_set.
  rewrite firstn_app, firstn_all, Nat.sub_diag, firstn_O, app_nil_r.
  rewrite length_app. cbn [length].
  replace (length pre - (length pre + S (length post)))%nat with 0%nat by lia.
  cbn [repeat app].
  rewrite skipn_app, skipn_all2 by lia.
  replace (S (length pre) - length pre)%nat with 1%nat by lia.
  reflexivity.
Qed.

Lemma js_get_app_l {A : Type} (l1 l2 : list (option A)) (i : nat) :
  (i < length l1)%nat -> js_get (l1 ++ l2) i = js_get l1 i.
Proof. intros H. unfold js_get. now rewrite nth_error_app1. Qed.

Lemma js_get_app_r {A : Type} (l1 l2 : list (option A)) (i : nat) :
  (length l1 <= i)%nat -> js_get (l1 ++ l2) i = js_get l2 (i - length l1).
Proof. intros H. unfold js_get. now rewrite nth_error_app2. Qed.

Lemma js_get_repeat_None {A : Type} (n i : nat) :
  js_get (repeat (@None A) n) i = None.
Proof.
  unfold js_get. destruct (nth_error (repeat None n) i) eqn:E; [|reflexivity].
  apply nth_error_In, repeat_spec in E. exact E.
Qed.

Lemma js_get_map_Some {A : Type} (l : list A) (i : nat) :
  js_get (map Some l) i = nth_error l i.
Proof.
  unfold js_get. rewrite nth_error_map. now destruct (nth_error l i).
Qed.

(** Filling a fresh array slot by slot, in index order. *)
Lemma for_range_fill {A : Type} (f : nat -> option A) :
  forall n rest,
    for_range 0 n (fun i a => js_set a i (f i)) (repeat None (n + rest))
    = map f (seq 0 n) ++ repeat None rest.
Proof.
  intros n rest.
  pose (P := fun (i : nat) (a : list (option A)) =>
               a = map f (seq 0 i) ++ repeat None (n + rest - i)).
  assert (H : P (0 + n)%nat
                (for_range 0 n (fun i a => js_set a i (f i))
                   (repeat None (n + rest)))).
  { apply for_range_inv.
    - unfold P. simpl. now rewrite Nat.sub_0_r.
    - intros i t Hi Ht. unfold P in *. subst t.
      rewrite js_set_at_end by now rewrite length_map, length_seq.
      rewrite seq_S, map_app. simpl. rewrite <- app_assoc. simpl.
      now replace (n + rest - i - 1)%nat with (n + rest - S i)%nat by lia. }
  unfold P in H. simpl in H. rewrite H.
  now replace (n + rest - n)%nat with rest by lia.
Qed.

Lemma js_set_length {A : Type} (a : list (option A)) (i : nat) (v : option A) :
  length (js_set a i v) = Nat.max (length a) (S i).
Proof.
  unfold js_set.
  rewrite !length_app, length_firstn, repeat_length. cbn [length].
  rewrite length_skipn. lia.
Qed.

Lemma for_range_fill_all {A : Type} (f : nat -> option A) (n : nat) :
  for_range 0 n (fun i a => js_set a i (f i)) (repeat None n)
  = map f (seq 0 n).
Proof.
  rewrite <- (Nat.add_0_r n) at 2.
  rewrite for_range_fill. apply app_nil_r.
Qed.

Lemma map_nth_seq {A B : Type} (g : A -> B) (l : list A) (d : A) :
  map (fun i => g (nth i l d)) (seq 0 (length l)) = map g l.
Proof.
  induction l as [|x l IH]; [reflexivity|].
  cbn [length seq map nth]. f_equal.
  rewrite <- seq_shift, map_map. exact IH.
Qed.

Lemma defined_map_Some {A : Type} (l : list A) : defined (map Some l) = l.
Proof. induction l as [|x l IH]; simpl; congruence. Qed.

Lemma sort_slots_numbers (l : list Q) :
  sort_slots (map Some l) = map Some (sort_numeric l).
Proof.
  unfold sort_slots. rewrite defined_map_Some, length_map, Nat.sub_diag.
  apply app_nil_r.
Qed.

End JsFacts.

(* ================================================================== *)
(** * The tax calculator *)
(* ================================================================== *)

Module TaxFacts.

Import TaxCalculator.

(** C10: for every total value and cost basis, the step-up method (gains
    times 1.72 times 0.22) and the direct method (gains times 0.3784) give
    the same tax in exact arithmetic. *)
Theorem step_up_tax_is_direct_tax (totalValue costBasis : Q) :
  calculateCapitalGainsTaxStepUp totalValue costBasis
  == calculateCapitalGainsTax totalValue costBasis.
Proof.
  unfold calculateCapitalGainsTaxStepUp, calculateCapitalGainsTax.
  unfold STEP_UP_FACTOR, FLAT_RATE, CAPITAL_GAINS_RATE.
  generalize (Qmax 0 (totalValue - costBasis)). intros gains.
  ring.
Qed.

End TaxFacts.

(* ================================================================== *)
(** * The scenario valuators *)
(* ================================================================== *)

Module ValuatorFacts.

Import MonteCarloEngine Spec JsFacts.

Lemma Qeq_bool_true (x y : Q) : x == y -> Qeq_bool x y = true.
Proof. apply Qeq_bool_iff. Qed.

(** The savings value is linear in the payment; in particular it respects
    [==] on it. *)
Lemma calculateMortgageSavingsValue_payment (p p' : Q) (years : Z) (rate : Q) :
  p == p' ->
  calculateMortgageSavingsValue p years rate
  == calculateMortgageSavingsValue p' years rate.
Proof.
  intros Hp. unfold calculateMortgageSavingsValue.
  destruct (Qeq_bool (rate / 12) 0); now rewrite Hp.
Qed.

Lemma calculateMortgageSavingsValue_zero_payment (p : Q) (years : Z) (rate : Q) :
  p == 0 -> calculateMortgageSavingsValue p years rate == 0.
Proof.
  intros Hp. unfold calculateMortgageSavingsValue.
  destruct (Qeq_bool (rate / 12) 0); rewrite Hp; ring.
Qed.

(** C6: at an annual rate of zero the mortgage-savings value is the monthly
    payment times the number of months, [P * (y * 12)]; 10,000 a month over
    10 years gives 1,200,000. *)
Theorem mortgage_savings_at_rate_zero (P : Q) (y : Z) (rate : Q) :
  rate == 0 ->
  calculateMortgageSavingsValue P y rate == P * inject_Z (y * 12)
  /\ calculateMortgageSavingsValue 10000 10 rate == 1200000.
Proof.
  intros Hr.
  assert (Hm : Qeq_bool (rate / 12) 0 = true).
  { apply Qeq_bool_true. rewrite Hr. reflexivity. }
  unfold calculateMortgageSavingsValue. rewrite Hm.
  split; reflexivity.
Qed.

Lemma mortgage_savings_at_rate_zero_witness :
  0 == 0
  /\ calculateMortgageSavingsValue 10000 10 0 == 10000 * inject_Z (10 * 12)
  /\ calculateMortgageSavingsValue 10000 10 0 == 1200000.
Proof.
  split; [reflexivity|].
  apply (mortgage_savings_at_rate_zero 10000 10 0). reflexivity.
Defined.

(** ** The yearly loop *)

Lemma firstn_S_snoc {A : Type} (l : list A) (i : nat) (x : A) :
  nth_error l i = Some x -> firstn (S i) l = firstn i l ++ [x].
Proof.
  revert i. induction l as [|y l IH]; intros [|i] H; simpl in *;
    try discriminate.
  - now injection H as ->.
  - f_equal. now apply IH.
Qed.

Lemma grow_snoc (c : Q) (path : list Q) (r : Q) :
  grow c (path ++ [r]) = (grow c path + c) * (1 + r).
Proof. unfold grow. now rewrite fold_left_app. Qed.

Lemma grow_zero (c : Q) (path : list Q) : c == 0 -> grow c path == 0.
Proof.
  intros Hc. induction path as [|r path IH] using rev_ind.
  - reflexivity.
  - rewrite grow_snoc, IH, Hc. ring.
Qed.

Lemma invested_closed (c : Q) (n : nat) :
  invested c n == c * HistogramBinner.nat_Q n.
Proof.
  unfold HistogramBinner.nat_Q.
  induction n as [|n IH].
  - simpl. ring.
  - cbn [invested]. rewrite IH, Nat2Z.inj_succ, <- Z.add_1_r, inject_Z_plus.
    ring.
Qed.

(** One year of either loop from a numeric stock value. *)
Lemma year_step (c sv r : Q) :
  jmul (jadd (Num sv) (Num c)) (jadd (Num 1) (ToNumber (Some r)))
  = Num ((sv + c) * (1 + r)).
Proof. reflexivity. Qed.

Lemma calculateStockScenario_closed (m a : Q) (rs : list Q) (rate : Q)
    (years : Z) :
  calculateStockScenario m a (map Some rs) rate years
  = Num (after_tax (grow (m * a * 12) rs) (invested (m * a * 12) (length rs))
         + calculateMortgageSavingsValue (m * (1 - a)) years rate).
Proof.
  unfold calculateStockScenario.
  set (c := m * a * 12).
  set (body := fun (year : nat) '(stockValue, totalInvested) => _).
  assert (H : (fun (i : nat) (t : jsnum * Q) =>
                 t = (Num (grow c (firstn i rs)), invested c i))
                (0 + length (map Some rs))%nat
                (for_range 0 (length (map Some rs)) body (Num 0, 0))).
  { apply for_range_inv; [reflexivity|].
    intros i [sv ti] Hi Ht. injection Ht as -> ->.
    rewrite length_map in Hi.
    destruct (nth_error rs i) as [r|] eqn:E;
      [| apply nth_error_None in E; lia].
    unfold body. rewrite js_get_map_Some, E, year_step.
    now rewrite (firstn_S_snoc _ _ _ E), grow_snoc. }
  simpl in H. rewrite H, length_map, firstn_all. reflexivity.
Qed.

(** C4: with allocation fraction 0, whatever the return path, the monthly
    surplus, the horizon and the mortgage rate, the stock scenario's final
    value is the mortgage-savings value of the full surplus over the same
    horizon and rate, which is the mortgage scenario's outcome. *)
Theorem zero_allocation_is_mortgage_scenario
    (monthlyAmount allocation : Q) (path : list Q) (mortgageRate : Q)
    (years : Z) :
  allocation == 0 ->
  exists v,
    calculateStockScenario monthlyAmount allocation (map Some path)
      mortgageRate years = Num v
    /\ v == calculateMortgageSavingsValue monthlyAmount years mortgageRate
    /\ v == calculateMortgageScenario monthlyAmount years mortgageRate.
Proof.
  intros Ha. rewrite calculateStockScenario_closed.
  eexists. split; [reflexivity|].
  assert (Hc : monthlyAmount * allocation * 12 == 0) by (rewrite Ha; ring).
  assert (Hv : after_tax (grow (monthlyAmount * allocation * 12) path)
                 (invested (monthlyAmount * allocation * 12) (length path))
               == 0).
  { unfold after_tax.
    rewrite (grow_zero _ path Hc), invested_closed, Hc.
    assert (Hg : Qmax 0 (0 - 0 * HistogramBinner.nat_Q (length path)) == 0).
    { apply Q.max_l. ring_simplify. apply Qle_refl. }
    rewrite Hg. ring. }
  assert (Hm : calculateMortgageSavingsValue (monthlyAmount * (1 - allocation))
                 years mortgageRate
               == calculateMortgageSavingsValue monthlyAmount years mortgageRate).
  { apply calculateMortgageSavingsValue_payment. rewrite Ha. ring. }
  unfold calculateMortgageScenario.
  rewrite Hv, Hm. split; ring.
Qed.

Lemma zero_allocation_is_mortgage_scenario_witness :
  0 / 100 == 0
  /\ exists v,
       calculateStockScenario 10000 (0 / 100) (map Some [0.5; -0.25]) 0.045 2
       = Num v
       /\ v == calculateMortgageSavingsValue 10000 2 0.045
       /\ v == calculateMortgageScenario 10000 2 0.045.
Proof.
  split; [reflexivity|].
  apply (zero_allocation_is_mortgage_scenario 10000 (0 / 100) [0.5; -0.25]
           0.045 2).
  reflexivity.
Defined.

(** ** The variant that records the yearly values *)

Lemma calculateStockScenarioWithPath_closed (m a : Q) (rs : list Q) (rate : Q)
    (years : Z) :
  (-1 <= years <= MAX_ARRAY_LENGTH - 1)%Z ->
  calculateStockScenarioWithPath m a (map Some rs) rate years
  = Ok {| finalValue :=
            Num (after_tax (grow (m * a * 12) rs)
                   (invested (m * a * 12) (length rs))
                 + calculateMortgageSavingsValue (m * (1 - a)) years rate);
          yearlyValues :=
            yearly_prefix (m * a * 12) rs (length rs)
              ++ repeat None (Z.to_nat (years + 1) - S (length rs)) |}.
Proof.
  intros Hy. unfold calculateStockScenarioWithPath, new_Array.
  replace ((0 <=? years + 1) && (years + 1 <=? MAX_ARRAY_LENGTH))%Z
    with true by (symmetry; apply andb_true_intro; split; lia).
  rewrite rbind_Ok.
  set (c := m * a * 12). set (Y := Z.to_nat (years + 1)).
  change (repeat None Y) with ([] ++ repeat (@None jsnum) Y).
  rewrite (js_set_at_end [] Y 0 (Some (Num 0)) eq_refl).
  set (body := fun (year : nat) '(stockValue, totalInvested, yearlyValues) => _).
  assert (H : (fun (i : nat) '(sv, ti, yv) =>
                 sv = Num (grow c (firstn i rs)) /\ ti = invested c i
                 /\ yv = yearly_prefix c rs i ++ repeat None (Y - S i))
                (0 + length (map Some rs))%nat
                (for_range 0 (length (map Some rs)) body
                   (Num 0, 0, [] ++ Some (Num 0) :: repeat None (Y - 1)))).
  { apply for_range_inv; [now repeat split|].
    intros i [[sv ti] yv] Hi (Hsv & Hti & Hyv). subst sv ti yv.
    rewrite length_map in Hi.
    destruct (nth_error rs i) as [r|] eqn:E;
      [| apply nth_error_None in E; lia].
    unfold body. rewrite js_get_map_Some, E, year_step.
    rewrite js_set_at_end
      by (unfold yearly_prefix; rewrite length_map, length_seq; lia).
    rewrite (firstn_S_snoc _ _ _ E), grow_snoc.
    repeat split.
    unfold yearly_prefix at 2. rewrite seq_S, map_app. cbn [map].
    rewrite <- app_assoc. cbn [app].
    rewrite Nat.add_0_l, (firstn_S_snoc _ _ _ E), grow_snoc.
    now replace (Y - S i - 1)%nat with (Y - S (S i))%nat by lia. }
  cbn beta in H. rewrite Nat.add_0_l, length_map in H.
  rewrite length_map.
  destruct (for_range 0 (length rs) body _) as [[sv ti] yv].
  destruct H as (-> & -> & ->). now rewrite firstn_all.
Qed.

Lemma js_get_yearly_prefix (c : Q) (rs : list Q) (i k : nat) :
  (k <= i)%nat ->
  js_get (yearly_prefix c rs i) k = Some (Num (grow c (firstn k rs))).
Proof.
  intros Hk. unfold js_get, yearly_prefix.
  rewrite nth_error_map, nth_error_seq.
  destruct (Nat.ltb_spec k (S i)); [reflexivity | lia].
Qed.

(** C9: in [calculateStockScenario] and [calculateStockScenarioWithPath]
    the yearly contribution-and-return steps are those of the return path:
    one contribution and one return per element of the path, whatever the
    [years] argument, which only enters the mortgage-savings term.  The
    stock value is the path's accumulated value, the cost basis is one
    yearly contribution per path element, and the recorded yearly values
    are the accumulated values of the path's prefixes; the mortgage term is
    computed over [years]. *)
Theorem stock_years_follow_the_path
    (m a rate : Q) (rs : list Q) (years : Z) :
  let c := m * a * 12 in
  let final :=
    Num (after_tax (grow c rs) (invested c (length rs))
         + calculateMortgageSavingsValue (m * (1 - a)) years rate) in
  invested c (length rs) == c * HistogramBinner.nat_Q (length rs)
  /\ calculateStockScenario m a (map Some rs) rate years = final
  /\ ((-1 <= years <= MAX_ARRAY_LENGTH - 1)%Z ->
      exists yv,
        calculateStockScenarioWithPath m a (map Some rs) rate years
        = Ok {| finalValue := final; yearlyValues := yv |}
        /\ (forall k, (k <= length rs)%nat ->
                      js_get yv k = Some (Num (grow c (firstn k rs))))
        /\ (forall k, (length rs < k)%nat -> js_get yv k = None)).
Proof.
  intros c final. split; [apply invested_closed|].
  split; [apply calculateStockScenario_closed|].
  intros Hy. eexists. split.
  - apply calculateStockScenarioWithPath_closed. exact Hy.
  - fold c. split; intros k Hk.
    + rewrite js_get_app_l
        by (unfold yearly_prefix; rewrite length_map, length_seq; lia).
      now apply js_get_yearly_prefix.
    + rewrite js_get_app_r
        by (unfold yearly_prefix; rewrite length_map, length_seq; lia).
      apply js_get_repeat_None.
Qed.

Lemma stock_years_follow_the_path_witness :
  let c := 1000 * 1 * 12 in
  let rs := [0.5; 0.5; 1] in
  let final :=
    Num (after_tax (grow c rs) (invested c (length rs))
         + calculateMortgageSavingsValue (1000 * (1 - 1)) 1 0) in
  (-1 <= 1 <= MAX_ARRAY_LENGTH - 1)%Z
  /\ exists yv,
       calculateStockScenarioWithPath 1000 1 (map Some rs) 0 1
       = Ok {| finalValue := final; yearlyValues := yv |}
       /\ (forall k, (k <= length rs)%nat ->
                     js_get yv k = Some (Num (grow c (firstn k rs))))
       /\ (forall k, (length rs < k)%nat -> js_get yv k = None).
Proof.
  intros c rs final.
  assert (Hy : (-1 <= 1 <= MAX_ARRAY_LENGTH - 1)%Z)
    by (unfold MAX_ARRAY_LENGTH; lia).
  split; [exact Hy|].
  exact (proj2 (proj2 (stock_years_follow_the_path 1000 1 0 rs 1)) Hy).
Defined.

(** A path longer than the horizon: three years of stock growth next to
    one year of mortgage savings. *)
Example path_longer_than_horizon :
  calculateStockScenarioWithPath 1000 1 (map Some [0.5; 0.5; 1]) 0 1
  = Ok {| finalValue := Num 84484.80000000;
          yearlyValues := [Some (Num 0); Some (Num 18000.0);
                           Some (Num 45000.00); Some (Num 114000.00)] |}.
Proof. vm_compute. reflexivity. Qed.

End ValuatorFacts.

(* ================================================================== *)
(** * The simulation engine *)
(* ================================================================== *)

Module EngineFacts.

Import MonteCarloEngine Spec JsFacts ValuatorFacts.

Lemma advance_0 (g : Rng) : advance g 0 = g.
Proof. destruct g. unfold advance. simpl. now rewrite Nat.add_0_r. Qed.

Lemma advance_advance (g : Rng) (n m : nat) :
  advance (advance g n) m = advance g (n + m).
Proof. unfold advance. simpl. now rewrite Nat.add_assoc. Qed.

Lemma new_Array_ok {A : Type} (n : Z) :
  (0 <= n <= MAX_ARRAY_LENGTH)%Z ->
  @new_Array A n = Ok (repeat None (Z.to_nat n)).
Proof.
  intros Hn. unfold new_Array.
  now replace ((0 <=? n) && (n <=? MAX_ARRAY_LENGTH))%Z
    with true by (symmetry; apply andb_true_intro; split; lia).
Qed.

Lemma new_Array_negative {A : Type} (n : Z) :
  (n < 0)%Z -> @new_Array A n = Throw (RangeError "Invalid array length").
Proof.
  intros Hn. unfold new_Array.
  now replace (0 <=? n)%Z with false by (symmetry; apply Z.leb_gt; lia).
Qed.

(** Loop invariants inside the engine. *)
Lemma for_range_m_inv {St : Type} (P : nat -> St -> Rng -> Prop)
    (body : nat -> St -> M St) :
  forall n lo s g,
    P lo s g ->
    (forall i t h, (lo <= i < lo + n)%nat -> P i t h ->
                   exists t' h', body i t h = Ok (t', h') /\ P (S i) t' h') ->
    exists s' g',
      for_range_m lo n body s g = Ok (s', g') /\ P (lo + n)%nat s' g'.
Proof.
  induction n as [|n IH]; intros lo s g H0 Hstep; simpl.
  - exists s, g. now rewrite Nat.add_0_r.
  - destruct (Hstep lo s g) as (t' & h' & Hb & Ht'); [lia | exact H0 |].
    unfold mbind at 1. rewrite Hb. rewrite <- Nat.add_succ_comm.
    apply IH; [exact Ht'|].
    intros i t h Hi. apply Hstep. lia.
Qed.

(** A loop whose first iteration throws, throws. *)
Lemma for_range_m_throws {St : Type} (body : nat -> St -> M St)
    (n lo : nat) (s : St) (g : Rng) (e : JsError) :
  (0 < n)%nat -> body lo s g = Throw e ->
  for_range_m lo n body s g = Throw e.
Proof.
  intros Hn Hb. destruct n as [|n]; [lia|].
  simpl. unfold mbind. now rewrite Hb.
Qed.

(** The path drawn from the current position of the random source. *)
Lemma trial_path_at (this : Engine) (g : Rng) (years i : nat) :
  trial_path this g years i
  = trial_path this (advance g (i * years)) years 0.
Proof.
  unfold trial_path. apply map_ext. intros k. simpl.
  now rewrite Nat.add_0_r.
Qed.

(** A return path of [years] elements takes [years] draws. *)
Lemma generateReturnPath_ok (this : Engine) (years : Z) (g : Rng) :
  (0 <= years <= MAX_ARRAY_LENGTH)%Z ->
  generateReturnPath this years g
  = Ok (trial_path this g (Z.to_nat years) 0, advance g (Z.to_nat years)).
Proof.
  intros Hy. unfold generateReturnPath.
  unfold mbind at 1. unfold lift. rewrite (new_Array_ok _ Hy).
  set (n := Z.to_nat years).
  set (body := fun (i : nat) (path : list (option Q)) => _).
  set (f := fun k =>
              num_at (returns this)
                (Qfloor (draws g (next g + 0 * n + k)%nat
                         * HistogramBinner.nat_Q (length (returns this))))).
  destruct (for_range_m_inv
              (fun i path h =>
                 path = map f (seq 0 i) ++ repeat None (n - i)
                 /\ h = advance g i)
              body n 0 (repeat None n) g) as (path & g' & Hrun & Hp & Hg).
  - split; [simpl; now rewrite Nat.sub_0_r | now rewrite advance_0].
  - intros i t h Hi (-> & ->).
    unfold body, mbind, Math_random, mret. eexists _, _. split; [reflexivity|].
    split.
    + rewrite js_set_at_end by now rewrite length_map, length_seq.
      rewrite seq_S, map_app, <- app_assoc. cbn [map app].
      replace (n - i - 1)%nat with (n - S i)%nat by lia.
      unfold f at 3, advance, HistogramBinner.nat_Q.
      cbn [draws next Nat.mul]. now rewrite Nat.add_0_r.
    + unfold advance. simpl. f_equal. lia.
  - rewrite Hrun, Hp, Hg. simpl. rewrite Nat.sub_diag, app_nil_r. reflexivity.
Qed.

Lemma generateReturnPath_negative (this : Engine) (years : Z) (g : Rng) :
  (years < 0)%Z ->
  generateReturnPath this years g = Throw (RangeError "Invalid array length").
Proof.
  intros Hy. unfold generateReturnPath, mbind, lift.
  now rewrite (new_Array_negative _ Hy).
Qed.

(** ** runSimulation *)

Lemma runSimulation_ok (this : Engine) (params : SimulationParams) (g : Rng) :
  let N := numSimulations_or_default params in
  let H := timeHorizon params in
  (0 <= N <= MAX_ARRAY_LENGTH)%Z ->
  (0 <= H <= MAX_ARRAY_LENGTH)%Z ->
  runSimulation this params g
  = Ok ({| stock :=
             map (fun i =>
                    Some (calculateStockScenario (monthlyInvestment params)
                            (stockAllocation params / 100)
                            (trial_path this g (Z.to_nat H) i)
                            (mortgageRate params) H))
                 (seq 0 (Z.to_nat N));
           mortgage :=
             map (fun _ =>
                    Some (calculateMortgageScenario (monthlyInvestment params)
                            H (mortgageRate params)))
                 (seq 0 (Z.to_nat N)) |},
        advance g (Z.to_nat N * Z.to_nat H)).
Proof.
  intros N H HN HH. unfold runSimulation. fold N H.
  unfold mbind at 1. unfold lift at 1. rewrite (new_Array_ok _ HN).
  unfold mbind at 1. unfold lift at 1. rewrite (new_Array_ok _ HN).
  unfold mbind at 1.
  set (n := Z.to_nat N). set (h := Z.to_nat H).
  set (body := fun (i : nat) '(stockResults, mortgageResults) => _).
  set (fs := fun i : nat =>
               Some (calculateStockScenario (monthlyInvestment params)
                       (stockAllocation params / 100)
                       (trial_path this g h i) (mortgageRate params) H)).
  set (fm := fun _ : nat =>
               Some (calculateMortgageScenario (monthlyInvestment params) H
                       (mortgageRate params))).
  destruct (for_range_m_inv
              (fun i '(sr, mr) g' =>
                 sr = map fs (seq 0 i) ++ repeat None (n - i)
                 /\ mr = map fm (seq 0 i) ++ repeat None (n - i)
                 /\ g' = advance g (i * h))
              body n 0 (repeat None n, repeat None n) g)
    as ([sr mr] & g' & Hrun & Hs & Hm & Hg).
  - rewrite Nat.sub_0_r. repeat split. now rewrite advance_0.
  - intros i [sr mr] g' Hi (-> & -> & ->).
    unfold body, mbind. rewrite (generateReturnPath_ok _ _ _ HH). fold h.
    unfold mret. eexists (_, _), _. split; [reflexivity|].
    rewrite !js_set_at_end by now rewrite length_map, length_seq.
    rewrite !seq_S, !map_app, <- !app_assoc. cbn [map app Nat.add].
    replace (n - i - 1)%nat with (n - S i)%nat by lia.
    rewrite advance_advance, <- trial_path_at.
    repeat split. f_equal. lia.
  - rewrite Hrun, Hs, Hm, Hg. unfold mret.
    cbn [Nat.add]. rewrite Nat.sub_diag, !app_nil_r. reflexivity.
Qed.

(** C2: for valid parameters with trial count [N], [runSimulation] returns
    a stock collection and a mortgage collection of length exactly [N], and
    position [i] of each holds the outcome of trial [i]: the stock scenario
    valued on the return path that [generateReturnPath] draws in trial [i]
    (after the [i * H] draws of the earlier trials), and the mortgage
    scenario of the same parameters. *)
Theorem runSimulation_lengths_and_alignment
    (this : Engine) (params : SimulationParams) (g : Rng) :
  let N := numSimulations_or_default params in
  let H := timeHorizon params in
  (0 <= N <= MAX_ARRAY_LENGTH)%Z ->
  (0 <= H <= MAX_ARRAY_LENGTH)%Z ->
  exists results g',
    runSimulation this params g = Ok (results, g')
    /\ length (stock results) = Z.to_nat N
    /\ length (mortgage results) = Z.to_nat N
    /\ forall i, (i < Z.to_nat N)%nat ->
         generateReturnPath this H (advance g (i * Z.to_nat H))
         = Ok (trial_path this g (Z.to_nat H) i,
               advance g (i * Z.to_nat H + Z.to_nat H))
         /\ nth_error (stock results) i
            = Some (Some (calculateStockScenario (monthlyInvestment params)
                            (stockAllocation params / 100)
                            (trial_path this g (Z.to_nat H) i)
                            (mortgageRate params) H))
         /\ nth_error (mortgage results) i
            = Some (Some (calculateMortgageScenario
                            (monthlyInvestment params) H
                            (mortgageRate params))).
Proof.
  intros N H HN HH. eexists _, _. split.
  - apply runSimulation_ok; assumption.
  - cbn [stock mortgage]. rewrite !length_map, !length_seq.
    split; [reflexivity|]. split; [reflexivity|].
    intros i Hi. apply Nat.ltb_lt in Hi. unfold N in Hi.
    split.
    + rewrite (generateReturnPath_ok _ _ _ HH).
      now rewrite advance_advance, <- trial_path_at.
    + rewrite !nth_error_map, !nth_error_seq, Hi. split; reflexivity.
Qed.

Lemma runSimulation_lengths_and_alignment_witness :
  (0 <= 2 <= MAX_ARRAY_LENGTH)%Z
  /\ exists results g',
       runSimulation example_engine half_allocated example_rng
       = Ok (results, g')
       /\ length (stock results) = 2%nat
       /\ length (mortgage results) = 2%nat
       /\ forall i, (i < 2)%nat ->
            generateReturnPath example_engine 2 (advance example_rng (i * 2))
            = Ok (trial_path example_engine example_rng 2 i,
                  advance example_rng (i * 2 + 2))
            /\ nth_error (stock results) i
               = Some (Some (calculateStockScenario 1000 (50 / 100)
                               (trial_path example_engine example_rng 2 i)
                               0 2))
            /\ nth_error (mortgage results) i
               = Some (Some (calculateMortgageScenario 1000 2 0)).
Proof.
  assert (Hb : (0 <= 2 <= MAX_ARRAY_LENGTH)%Z)
    by (unfold MAX_ARRAY_LENGTH; lia).
  split; [exact Hb|].
  exact (runSimulation_lengths_and_alignment example_engine half_allocated
           example_rng Hb Hb).
Defined.

(** ** runSimulationWithTimeSeries *)

Lemma calculateStockScenarioWithPath_total
    (m a : Q) (path : list (option Q)) (rate : Q) (years : Z) :
  (-1 <= years <= MAX_ARRAY_LENGTH - 1)%Z ->
  exists scenario,
    calculateStockScenarioWithPath m a path rate years = Ok scenario.
Proof.
  intros Hy. unfold calculateStockScenarioWithPath.
  rewrite new_Array_ok by lia. rewrite rbind_Ok.
  destruct (for_range 0 (length path) _ _) as [[sv ti] yv].
  eexists. reflexivity.
Qed.

Lemma calculateMortgagePath_total (p : Q) (years : Z) (rate : Q) :
  (-1 <= years <= MAX_ARRAY_LENGTH - 1)%Z ->
  exists path, calculateMortgagePath p years rate = Ok path.
Proof.
  intros Hy. unfold calculateMortgagePath.
  rewrite new_Array_ok by lia. rewrite rbind_Ok.
  eexists. reflexivity.
Qed.

Lemma runSimulationWithTimeSeries_ok
    (this : Engine) (params : SimulationParams) (g : Rng) :
  let N := numSimulations_or_default params in
  let H := timeHorizon params in
  (0 <= N <= MAX_ARRAY_LENGTH)%Z ->
  (0 <= H <= MAX_ARRAY_LENGTH - 1)%Z ->
  exists results g',
    runSimulationWithTimeSeries this params g = Ok (results, g')
    /\ length (ts_stock results) = Z.to_nat N
    /\ length (ts_mortgage results) = Z.to_nat N
    /\ length (stockPaths (timeSeries results)) = Z.to_nat N.
Proof.
  intros N H HN HH. unfold runSimulationWithTimeSeries. fold N H.
  unfold mbind at 1. unfold lift at 1. rewrite (new_Array_ok _ HN).
  unfold mbind at 1. unfold lift at 1. rewrite (new_Array_ok _ HN).
  unfold mbind at 1. unfold lift at 1. rewrite (new_Array_ok _ HN).
  unfold mbind at 1.
  set (n := Z.to_nat N).
  set (body := fun (i : nat) '(stockResults, mortgageResults, stockPaths) => _).
  destruct (for_range_m_inv
              (fun (i : nat) '(sr, mr, sp) (g' : Rng) =>
                 length sr = n /\ length mr = n /\ length sp = n)
              body n 0 (repeat None n, repeat None n, repeat None n) g)
    as ([[sr mr] sp] & g' & Hrun & Hs & Hm & Hp).
  - now rewrite !repeat_length.
  - intros i [[sr mr] sp] g' Hi (Hs & Hm & Hp).
    unfold body, mbind.
    rewrite generateReturnPath_ok by lia.
    destruct (calculateStockScenarioWithPath_total (monthlyInvestment params)
                (stockAllocation params / 100)
                (trial_path this g' (Z.to_nat H) 0) (mortgageRate params) H)
      as (scenario & Hsc); [lia|].
    unfold lift. rewrite Hsc. unfold mret.
    eexists (_, _, _), _. split; [reflexivity|].
    rewrite !js_set_length. lia.
  - rewrite Hrun.
    destruct (calculateMortgagePath_total (monthlyInvestment params) H
                (mortgageRate params)) as (path & Hpath); [lia|].
    unfold mbind, lift. rewrite Hpath. unfold mret.
    eexists _, _. split; [reflexivity|]. cbn. auto.
Qed.

(** C1 (amended): the engine does not validate its parameters.  With a
    trial count and a horizon that are valid array lengths it returns one
    stock and one mortgage outcome per trial, whatever the allocation
    fraction, a horizon of 0 and a trial count of 0 included.  It throws,
    with the [RangeError] of the failed array allocation and without any
    output, when the trial count is negative, and when the horizon is
    negative and the trial count positive. *)
Theorem engine_rejects_only_negative_sizes
    (this : Engine) (params : SimulationParams) (g : Rng) :
  let N := numSimulations_or_default params in
  let H := timeHorizon params in
  let range_error := RangeError "Invalid array length" in
  ((N < 0)%Z ->
     runSimulation this params g = Throw range_error
     /\ runSimulationWithTimeSeries this params g = Throw range_error)
  /\ ((0 < N <= MAX_ARRAY_LENGTH)%Z -> (H < 0)%Z ->
        runSimulation this params g = Throw range_error
        /\ runSimulationWithTimeSeries this params g = Throw range_error)
  /\ ((0 <= N <= MAX_ARRAY_LENGTH)%Z -> (0 <= H <= MAX_ARRAY_LENGTH)%Z ->
        exists results g',
          runSimulation this params g = Ok (results, g')
          /\ length (stock results) = Z.to_nat N
          /\ length (mortgage results) = Z.to_nat N)
  /\ ((0 <= N <= MAX_ARRAY_LENGTH)%Z -> (0 <= H <= MAX_ARRAY_LENGTH - 1)%Z ->
        exists results g',
          runSimulationWithTimeSeries this params g = Ok (results, g')
          /\ length (ts_stock results) = Z.to_nat N
          /\ length (ts_mortgage results) = Z.to_nat N
          /\ length (stockPaths (timeSeries results)) = Z.to_nat N).
Proof.
  intros N H range_error.
  split; [intros HN; split | split; [intros HN HH; split | split]].
  - unfold runSimulation. fold N. unfold mbind at 1. unfold lift at 1.
    now rewrite new_Array_negative.
  - unfold runSimulationWithTimeSeries. fold N.
    unfold mbind at 1. unfold lift at 1. now rewrite new_Array_negative.
  - assert (HN' : (0 <= N <= MAX_ARRAY_LENGTH)%Z) by lia.
    unfold runSimulation. fold N H.
    unfold mbind at 1. unfold lift at 1. rewrite (new_Array_ok _ HN').
    unfold mbind at 1. unfold lift at 1. rewrite (new_Array_ok _ HN').
    unfold mbind at 1. rewrite for_range_m_throws with (e := range_error);
      [reflexivity | lia |].
    unfold mbind. now rewrite generateReturnPath_negative.
  - assert (HN' : (0 <= N <= MAX_ARRAY_LENGTH)%Z) by lia.
    unfold runSimulationWithTimeSeries. fold N H.
    unfold mbind at 1. unfold lift at 1. rewrite (new_Array_ok _ HN').
    unfold mbind at 1. unfold lift at 1. rewrite (new_Array_ok _ HN').
    unfold mbind at 1. unfold lift at 1. rewrite (new_Array_ok _ HN').
    unfold mbind at 1. rewrite for_range_m_throws with (e := range_error);
      [reflexivity | lia |].
    unfold mbind. now rewrite generateReturnPath_negative.
  - intros HN HH. eexists _, _. split; [now apply runSimulation_ok|].
    cbn [stock mortgage]. now rewrite !length_map, !length_seq.
  - intros HN HH. now apply runSimulationWithTimeSeries_ok.
Qed.

Lemma engine_rejects_only_negative_sizes_witness :
  let range_error := RangeError "Invalid array length" in
  (runSimulation example_engine negative_trials example_rng
   = Throw range_error
   /\ runSimulationWithTimeSeries example_engine negative_trials example_rng
      = Throw range_error)
  /\ (runSimulation example_engine negative_horizon example_rng
      = Throw range_error
      /\ runSimulationWithTimeSeries example_engine negative_horizon
           example_rng = Throw range_error)
  /\ (exists results g',
        runSimulation example_engine over_allocated example_rng
        = Ok (results, g')
        /\ length (stock results) = 2%nat
        /\ length (mortgage results) = 2%nat)
  /\ (exists results g',
        runSimulationWithTimeSeries example_engine over_allocated example_rng
        = Ok (results, g')
        /\ length (ts_stock results) = 2%nat
        /\ length (ts_mortgage results) = 2%nat
        /\ length (stockPaths (timeSeries results)) = 2%nat).
Proof.
  intros range_error.
  assert (Hneg : (-1 < 0)%Z) by lia.
  assert (Hpos : (0 < 2 <= MAX_ARRAY_LENGTH)%Z)
    by (unfold MAX_ARRAY_LENGTH; lia).
  assert (Hsize : (0 <= 2 <= MAX_ARRAY_LENGTH)%Z)
    by (unfold MAX_ARRAY_LENGTH; lia).
  assert (Hhor : (0 <= 2 <= MAX_ARRAY_LENGTH - 1)%Z)
    by (unfold MAX_ARRAY_LENGTH; lia).
  split; [| split; [| split]].
  - exact (proj1 (engine_rejects_only_negative_sizes example_engine
                    negative_trials example_rng) Hneg).
  - exact (proj1 (proj2 (engine_rejects_only_negative_sizes example_engine
                           negative_horizon example_rng)) Hpos Hneg).
  - exact (proj1 (proj2 (proj2 (engine_rejects_only_negative_sizes
                                  example_engine over_allocated example_rng)))
             Hsize Hsize).
  - exact (proj2 (proj2 (proj2 (engine_rejects_only_negative_sizes
                                  example_engine over_allocated example_rng)))
             Hsize Hhor).
Defined.

(** C1 as the specification states it does not hold: parameters with an
    allocation fraction of 1.5 are simulated, and both trials return an
    outcome (1500 for the stock scenario, 24000 for the mortgage one). *)
Lemma invalid_allocation_is_simulated :
  invalid_parameters over_allocated
  /\ (exists s0 s1 m0 m1 g',
        runSimulation example_engine over_allocated example_rng
        = Ok ({| stock := [Some (Num s0); Some (Num s1)];
                 mortgage := [Some m0; Some m1] |}, g')
        /\ s0 == 1500 /\ s1 == 1500 /\ m0 == 24000 /\ m1 == 24000)
  /\ ~ fails_fast example_engine over_allocated example_rng.
Proof.
  split; [| split].
  - right. right. cbn. intros [_ H]. revert H. apply Qlt_not_le. reflexivity.
  - vm_compute. eexists _, _, _, _, _. split; [reflexivity|].
    repeat split; discriminate.
  - intros [[e He] _]. vm_compute in He. discriminate.
Qed.

End EngineFacts.

(* ================================================================== *)
(** * Sorting and nearest-rank indices *)
(* ================================================================== *)

Module SortFacts.

Import HistogramBinner.

Lemma insert_sorted_perm (x : Q) (l : list Q) :
  Permutation (insert_sorted x l) (x :: l).
Proof.
  induction l as [|y l IH]; simpl; [reflexivity|].
  destruct (Qle_bool x y); [reflexivity|].
  rewrite IH. apply perm_swap.
Qed.

Lemma sort_numeric_perm (l : list Q) : Permutation (sort_numeric l) l.
Proof.
  induction l as [|x l IH]; simpl; [reflexivity|].
  rewrite insert_sorted_perm. now apply perm_skip.
Qed.

Lemma sort_numeric_length (l : list Q) : length (sort_numeric l) = length l.
Proof. apply Permutation_length, sort_numeric_perm. Qed.

Lemma insert_sorted_sorted (x : Q) (l : list Q) :
  StronglySorted Qle l -> StronglySorted Qle (insert_sorted x l).
Proof.
  induction l as [|y l IH]; intros Hs; simpl.
  - constructor; constructor.
  - inversion Hs as [|? ? Hl Hy]; subst.
    destruct (Qle_bool x y) eqn:E.
    + apply Qle_bool_iff in E. constructor; [exact Hs|].
      constructor; [exact E|].
      eapply Forall_impl; [|exact Hy].
      intros z Hz. now apply Qle_trans with y.
    + assert (Hyx : y <= x).
      { apply Qlt_le_weak, Qnot_le_lt. intros H.
        apply Qle_bool_iff in H. congruence. }
      constructor; [now apply IH|].
      eapply Permutation_Forall.
      * symmetry. apply insert_sorted_perm.
      * now constructor.
Qed.

Lemma sort_numeric_sorted (l : list Q) : StronglySorted Qle (sort_numeric l).
Proof.
  induction l as [|x l IH]; simpl; [constructor|].
  now apply insert_sorted_sorted.
Qed.

(** In a sorted array a later position holds a value at least as large. *)
Lemma sorted_nth_error_le (l : list Q) :
  StronglySorted Qle l ->
  forall i j a b,
    (i <= j)%nat -> nth_error l i = Some a -> nth_error l j = Some b -> a <= b.
Proof.
  induction 1 as [|x l Hs IH Hx]; intros i j a b Hij Ha Hb.
  - now destruct i.
  - destruct i as [|i], j as [|j]; simpl in *; try lia.
    + injection Ha as <-. injection Hb as <-. apply Qle_refl.
    + injection Ha as <-. rewrite Forall_forall in Hx.
      apply Hx. eapply nth_error_In, Hb.
    + eapply IH; [| exact Ha | exact Hb]. lia.
Qed.

Lemma sorted_hd_min (l : list Q) (d : Q) :
  l <> [] -> Spec.is_min (hd d (sort_numeric l)) l.
Proof.
  intros Hl.
  pose proof (sort_numeric_perm l) as Hp.
  pose proof (sort_numeric_sorted l) as Hs.
  destruct (sort_numeric l) as [|m s] eqn:E.
  - apply Permutation_nil in Hp. contradiction.
  - simpl. split.
    + exists m. split; [|reflexivity].
      eapply Permutation_in; [exact Hp | now left].
    + intros x Hx. apply Permutation_sym in Hp.
      apply (Permutation_in _ Hp) in Hx.
      inversion Hs as [|? ? _ Hm]; subst. rewrite Forall_forall in Hm.
      destruct Hx as [<- | Hx]; [apply Qle_refl | now apply Hm].
Qed.

Lemma sorted_last_le (l : list Q) (d : Q) :
  StronglySorted Qle l -> forall x, In x l -> x <= last l d.
Proof.
  induction 1 as [|y l Hs IH Hy]; intros x Hx; [contradiction|].
  destruct l as [|z l].
  - destruct Hx as [<- | []]. apply Qle_refl.
  - change (last (y :: z :: l) d) with (last (z :: l) d).
    destruct Hx as [<- | Hx].
    + apply Qle_trans with z.
      * rewrite Forall_forall in Hy. apply Hy. now left.
      * apply IH. now left.
    + now apply IH.
Qed.

Lemma last_In (l : list Q) (d : Q) : l <> [] -> In (last l d) l.
Proof.
  induction l as [|x l IH]; intros Hl; [contradiction|].
  destruct l as [|y l]; [now left|].
  right. apply IH. discriminate.
Qed.

Lemma sorted_last_max (l : list Q) (d : Q) :
  l <> [] -> Spec.is_max (last (sort_numeric l) d) l.
Proof.
  intros Hl.
  pose proof (sort_numeric_perm l) as Hp.
  assert (Hne : sort_numeric l <> []).
  { intros E. rewrite E in Hp. apply Permutation_nil in Hp. contradiction. }
  split.
  - exists (last (sort_numeric l) d). split; [|reflexivity].
    eapply Permutation_in; [exact Hp | now apply last_In].
  - intros x Hx. apply sorted_last_le; [apply sort_numeric_sorted|].
    eapply Permutation_in; [symmetry; exact Hp | exact Hx].
Qed.

(** ** The index [Math.floor(n * p)] *)

Lemma nat_Q_nonneg (n : nat) : 0 <= nat_Q n.
Proof.
  unfold nat_Q. rewrite <- (Zle_Qle 0). lia.
Qed.

Lemma nat_Q_pos (n : nat) : (0 < n)%nat -> 0 < nat_Q n.
Proof.
  intros Hn. unfold nat_Q. rewrite <- (Zlt_Qlt 0). lia.
Qed.

Lemma floor_index_mono (n : nat) (p q : Q) :
  p <= q -> (Qfloor (nat_Q n * p) <= Qfloor (nat_Q n * q))%Z.
Proof.
  intros Hpq. apply Qfloor_resp_le.
  rewrite !(Qmult_comm (nat_Q n)).
  apply Qmult_le_compat_r; [exact Hpq | apply nat_Q_nonneg].
Qed.

Lemma floor_index_range (n : nat) (p : Q) :
  (0 < n)%nat -> 0 <= p -> p < 1 ->
  (0 <= Qfloor (nat_Q n * p) < Z.of_nat n)%Z.
Proof.
  intros Hn Hp0 Hp1. split.
  - change 0%Z with (Qfloor 0). apply Qfloor_resp_le.
    apply Qmult_le_0_compat; [apply nat_Q_nonneg | exact Hp0].
  - rewrite Zlt_Qlt. fold (nat_Q n).
    apply Qle_lt_trans with (nat_Q n * p); [apply Qfloor_le|].
    rewrite <- (Qmult_1_r (nat_Q n)) at 2.
    apply Qmult_lt_l; [now apply nat_Q_pos | exact Hp1].
Qed.

Lemma num_at_defined (l : list Q) (i : Z) :
  (0 <= i < Z.of_nat (length l))%Z ->
  exists v, num_at l i = Some v /\ nth_error l (Z.to_nat i) = Some v.
Proof.
  intros Hi. unfold num_at.
  replace (i <? 0)%Z with false by (symmetry; apply Z.ltb_ge; lia).
  destruct (nth_error l (Z.to_nat i)) as [v|] eqn:E; [now exists v|].
  apply nth_error_None in E. lia.
Qed.

End SortFacts.

(* ================================================================== *)
(** * The time-series bander *)
(* ================================================================== *)

Module TimeSeriesFacts.

Import HistogramBinner TimeSeriesStats Spec JsFacts SortFacts.

Lemma gathered_column (paths : list (list Q)) (y : nat) :
  (forall row, In row paths -> (y < length row)%nat) ->
  sort_slots
    (for_range 0 (length paths)
       (fun i values => js_set values i (nth_error (nth i paths []) y))
       (repeat None (length paths)))
  = map Some (sorted_column paths y).
Proof.
  intros Hrows.
  rewrite (for_range_fill_all (fun i => nth_error (nth i paths []) y)).
  rewrite (map_nth_seq (fun row => nth_error row y)).
  assert (E : map (fun row => nth_error row y) paths
              = map Some (map (fun row => nth y row 0) paths)).
  { rewrite map_map. apply map_ext_in. intros row Hrow.
    apply nth_error_nth'. now apply Hrows. }
  rewrite E. apply sort_slots_numbers.
Qed.

(** A nearest-rank read in a non-empty sorted column. *)
Lemma percentile_read (s : list Q) (p : Q) :
  s <> [] -> 0 <= p -> p < 1 ->
  exists v,
    js_getZ (map Some s) (Qfloor (nat_Q (length s) * p)) = Some v
    /\ nth_error s (Z.to_nat (Qfloor (nat_Q (length s) * p))) = Some v.
Proof.
  intros Hs Hp0 Hp1.
  assert (Hn : (0 < length s)%nat) by (destruct s; [contradiction | simpl; lia]).
  pose proof (floor_index_range (length s) p Hn Hp0 Hp1) as Hi.
  destruct (num_at_defined s _ Hi) as (v & _ & Hv).
  exists v. split; [|exact Hv].
  unfold js_getZ.
  replace (Qfloor (nat_Q (length s) * p) <? 0)%Z with false
    by (symmetry; apply Z.ltb_ge; lia).
  now rewrite js_get_map_Some.
Qed.

Lemma percentile_reads_ordered (s : list Q) (p q : Q) (a b : Q) :
  StronglySorted Qle s -> p <= q ->
  (0 <= Qfloor (nat_Q (length s) * p))%Z ->
  nth_error s (Z.to_nat (Qfloor (nat_Q (length s) * p))) = Some a ->
  nth_error s (Z.to_nat (Qfloor (nat_Q (length s) * q))) = Some b ->
  a <= b.
Proof.
  intros Hs Hpq H0 Ha Hb.
  eapply (sorted_nth_error_le s Hs); [| exact Ha | exact Hb].
  pose proof (floor_index_mono (length s) p q Hpq). lia.
Qed.

(** C8: for a non-empty matrix whose rows all have at least [years + 1]
    entries, and for every year index from 0 to [years], the band of that
    year satisfies p5 <= p25 <= p50 <= p75 <= p95. *)
Theorem bands_are_ordered (paths : list (list Q)) (years : Z) :
  paths <> [] ->
  (0 <= years <= MAX_ARRAY_LENGTH - 1)%Z ->
  (forall row, In row paths -> (Z.to_nat years + 1 <= length row)%nat) ->
  exists bands,
    computeTimeSeriesBands paths years = Ok bands
    /\ length bands = (Z.to_nat years + 1)%nat
    /\ forall y, (y <= Z.to_nat years)%nat ->
         exists band v5 v25 v50 v75 v95,
           nth_error bands y = Some (Some band)
           /\ year band = Z.of_nat y
           /\ p5 band = Some v5 /\ p25 band = Some v25 /\ p50 band = Some v50
           /\ p75 band = Some v75 /\ p95 band = Some v95
           /\ v5 <= v25 /\ v25 <= v50 /\ v50 <= v75 /\ v75 <= v95.
Proof.
  intros Hne Hy Hrows. unfold computeTimeSeriesBands.
  rewrite EngineFacts.new_Array_ok by lia. rewrite rbind_Ok.
  replace (Z.to_nat (years + 1)) with (Z.to_nat years + 1)%nat by lia.
  cbv zeta. rewrite for_range_fill_all.
  eexists. split; [reflexivity|].
  split; [now rewrite length_map, length_seq|].
  intros y Hyy.
  rewrite nth_error_map, nth_error_seq.
  replace (y <? Z.to_nat years + 1)%nat with true
    by (symmetry; apply Nat.ltb_lt; lia).
  cbn [option_map Nat.add].
  rewrite gathered_column by (intros row Hrow; specialize (Hrows row Hrow); lia).
  set (s := sorted_column paths y).
  assert (Hlen : length s = length paths).
  { unfold s, sorted_column. now rewrite sort_numeric_length, length_map. }
  assert (Hs : s <> []).
  { intros E. rewrite E in Hlen. destruct paths; [contradiction | discriminate]. }
  assert (Hsorted : StronglySorted Qle s) by apply sort_numeric_sorted.
  rewrite <- Hlen.
  destruct (percentile_read s 0.05 Hs) as (v5 & G5 & N5); [easy | easy |].
  destruct (percentile_read s 0.25 Hs) as (v25 & G25 & N25); [easy | easy |].
  destruct (percentile_read s 0.50 Hs) as (v50 & G50 & N50); [easy | easy |].
  destruct (percentile_read s 0.75 Hs) as (v75 & G75 & N75); [easy | easy |].
  destruct (percentile_read s 0.95 Hs) as (v95 & G95 & N95); [easy | easy |].
  assert (Hpos : forall p, 0 <= p -> (0 <= Qfloor (nat_Q (length s) * p))%Z).
  { intros p Hp. change 0%Z with (Qfloor 0). apply Qfloor_resp_le.
    apply Qmult_le_0_compat; [apply nat_Q_nonneg | exact Hp]. }
  eexists _, v5, v25, v50, v75, v95.
  split; [reflexivity|]. cbn [year p5 p25 p50 p75 p95].
  split; [reflexivity|].
  repeat (split; [assumption|]).
  repeat split.
  - apply (percentile_reads_ordered s 0.05 0.25); try assumption;
      [easy | now apply Hpos].
  - apply (percentile_reads_ordered s 0.25 0.50); try assumption;
      [easy | now apply Hpos].
  - apply (percentile_reads_ordered s 0.50 0.75); try assumption;
      [easy | now apply Hpos].
  - apply (percentile_reads_ordered s 0.75 0.95); try assumption;
      [easy | now apply Hpos].
Qed.

Lemma bands_are_ordered_witness :
  let paths := [[0; 3; 5]; [0; 1; 6]; [0; 2; 4]] in
  paths <> []
  /\ (0 <= 2 <= MAX_ARRAY_LENGTH - 1)%Z
  /\ (forall row, In row paths -> (Z.to_nat 2 + 1 <= length row)%nat)
  /\ exists bands,
       computeTimeSeriesBands paths 2 = Ok bands
       /\ length bands = (Z.to_nat 2 + 1)%nat
       /\ forall y, (y <= Z.to_nat 2)%nat ->
            exists band v5 v25 v50 v75 v95,
              nth_error bands y = Some (Some band)
              /\ year band = Z.of_nat y
              /\ p5 band = Some v5 /\ p25 band = Some v25
              /\ p50 band = Some v50
              /\ p75 band = Some v75 /\ p95 band = Some v95
              /\ v5 <= v25 /\ v25 <= v50 /\ v50 <= v75 /\ v75 <= v95.
Proof.
  intros paths.
  assert (Hne : paths <> []) by discriminate.
  assert (Hy : (0 <= 2 <= MAX_ARRAY_LENGTH - 1)%Z)
    by (unfold MAX_ARRAY_LENGTH; lia).
  assert (Hrows : forall row, In row paths ->
                              (Z.to_nat 2 + 1 <= length row)%nat).
  { intros row [<- | [<- | [<- | []]]]; simpl; lia. }
  repeat (split; [assumption|]).
  exact (bands_are_ordered paths 2 Hne Hy Hrows).
Defined.

End TimeSeriesFacts.

(* ================================================================== *)
(** * Outperformance probability *)
(* ================================================================== *)

Module OutperformanceFacts.

Import HistogramBinner Spec JsFacts SortFacts.

Lemma js_gt_spec (x y : Q) :
  js_gt (Some x) (Some y) = if Qlt_le_dec y x then true else false.
Proof.
  unfold js_gt. destruct (Qlt_le_dec y x) as [H | H].
  - destruct (Qle_bool x y) eqn:E; [|reflexivity].
    apply Qle_bool_iff in E. exfalso. now apply (Qlt_not_le y x).
  - apply Qle_bool_iff in H. now rewrite H.
Qed.

Lemma wins_snoc (a b : list Q) (x y : Q) :
  length a = length b ->
  wins (a ++ [x]) (b ++ [y])
  = (wins a b + if Qlt_le_dec y x then 1 else 0)%nat.
Proof.
  revert b. induction a as [|u a IH]; intros [|v b] Hl; try discriminate.
  - simpl. lia.
  - simpl in Hl. injection Hl as Hl. cbn [app wins].
    rewrite (IH b Hl). lia.
Qed.

(** The counting loop computes the number of strict wins. *)
Lemma counting_loop (a b : list Q) :
  length a = length b ->
  for_range 0 (length a)
    (fun i w =>
       if js_gt (nth_error a i) (nth_error b i) then (w + 1)%nat else w)
    0%nat
  = wins a b.
Proof.
  intros Hl.
  pose (P := fun (i : nat) (w : nat) => w = wins (firstn i a) (firstn i b)).
  assert (H : P (0 + length a)%nat
                (for_range 0 (length a)
                   (fun i w =>
                      if js_gt (nth_error a i) (nth_error b i)
                      then (w + 1)%nat else w) 0%nat)).
  { apply for_range_inv; [reflexivity|].
    intros i w Hi ->.
    destruct (nth_error a i) as [x|] eqn:Ea;
      [| apply nth_error_None in Ea; lia].
    destruct (nth_error b i) as [y|] eqn:Eb;
      [| apply nth_error_None in Eb; lia].
    unfold P.
    rewrite (ValuatorFacts.firstn_S_snoc _ _ _ Ea),
            (ValuatorFacts.firstn_S_snoc _ _ _ Eb).
    rewrite wins_snoc by (rewrite !length_firstn; lia).
    rewrite js_gt_spec. destruct (Qlt_le_dec y x); lia. }
  unfold P in H. simpl in H. rewrite H.
  rewrite firstn_all. rewrite Hl, firstn_all. reflexivity.
Qed.

(** Every position is a win for one side or a tie. *)
Lemma wins_ties_partition (a b : list Q) :
  length a = length b ->
  (wins a b + wins b a + ties a b)%nat = length a.
Proof.
  revert b. induction a as [|x a IH]; intros [|y b] Hl; try discriminate.
  - reflexivity.
  - simpl in Hl. injection Hl as Hl. specialize (IH b Hl).
    cbn [wins ties length].
    destruct (Qlt_le_dec y x) as [H1 | H1], (Qlt_le_dec x y) as [H2 | H2],
             (Qeq_dec x y) as [H3 | H3]; try lia; exfalso.
    + apply (Qlt_irrefl x). now apply Qlt_trans with y.
    + apply (Qlt_irrefl x). now apply Qlt_trans with y.
    + rewrite H3 in H1. now apply (Qlt_irrefl y).
    + rewrite H3 in H2. now apply (Qlt_irrefl y).
    + apply H3. now apply Qle_antisym.
Qed.

(** C7: [calculateOutperformanceProbability a b] throws the length-mismatch
    error exactly when the lengths differ; on equal lengths it returns the
    number of positions with [a[i] > b[i]] divided by the length, and a
    position where the two values are equal counts for neither side.  (On
    two empty collections the quotient is 0 / 0, which is [NaN].) *)
Theorem outperformance_probability (a b : list Q) :
  ((exists e, calculateOutperformanceProbability a b = Throw e)
   <-> length a <> length b)
  /\ (length a <> length b ->
      calculateOutperformanceProbability a b
      = Throw (Error "Data arrays must have equal length"))
  /\ (length a = length b ->
      calculateOutperformanceProbability a b
      = Ok (jdiv (Num (nat_Q (wins a b))) (Num (nat_Q (length a))))
      /\ (a <> [] ->
          calculateOutperformanceProbability a b
          = Ok (Num (nat_Q (wins a b) / nat_Q (length a))))
      /\ (a = [] -> calculateOutperformanceProbability a b = Ok NaN)
      /\ (wins a b + wins b a + ties a b)%nat = length a).
Proof.
  assert (Hne : length a <> length b ->
                calculateOutperformanceProbability a b
                = Throw (Error "Data arrays must have equal length")).
  { intros Hl. unfold calculateOutperformanceProbability.
    apply Nat.eqb_neq in Hl. now rewrite Hl. }
  assert (Heq : length a = length b ->
                calculateOutperformanceProbability a b
                = Ok (jdiv (Num (nat_Q (wins a b)))
                        (Num (nat_Q (length a))))).
  { intros Hl. unfold calculateOutperformanceProbability.
    rewrite (counting_loop a b Hl).
    apply Nat.eqb_eq in Hl. now rewrite Hl. }
  split;
    [| split; [exact Hne
              | intros Hl; split; [now apply Heq | split; [| split]]]].
  - split.
    + intros [e He] Hl. rewrite (Heq Hl) in He. discriminate.
    + intros Hl. eexists. now apply Hne.
  - intros Ha. rewrite (Heq Hl). unfold jdiv.
    assert (Hn : Qeq_bool (nat_Q (length a)) 0 = false).
    { destruct (Qeq_bool (nat_Q (length a)) 0) eqn:E; [|reflexivity].
      apply Qeq_bool_iff in E.
      assert (Hpos : 0 < nat_Q (length a)).
      { apply nat_Q_pos. destruct a; [contradiction | simpl; lia]. }
      rewrite E in Hpos. now apply Qlt_irrefl in Hpos. }
    now rewrite Hn.
  - intros ->. rewrite (Heq Hl). reflexivity.
  - now apply wins_ties_partition.
Qed.

Lemma outperformance_probability_witness :
  let a : list Q := [3; 1; 2] in
  let short : list Q := [1; 1] in
  let b : list Q := [1; 1; 5] in
  (length a <> length short
   /\ calculateOutperformanceProbability a short
      = Throw (Error "Data arrays must have equal length"))
  /\ (length a = length b
      /\ a <> []
      /\ calculateOutperformanceProbability a b
         = Ok (Num (nat_Q (wins a b) / nat_Q (length a)))
      /\ (wins a b + wins b a + ties a b)%nat = length a).
Proof.
  intros a short b.
  assert (Hd : length a <> length short) by (simpl; lia).
  assert (He : length a = length b) by reflexivity.
  assert (Hn : a <> []) by discriminate.
  split.
  - split; [exact Hd|].
    exact (proj1 (proj2 (outperformance_probability a short)) Hd).
  - split; [exact He|]. split; [exact Hn|].
    pose proof (proj2 (proj2 (outperformance_probability a b)) He)
      as (_ & Hv & _ & Ht).
    split; [exact (Hv Hn) | exact Ht].
Defined.

End OutperformanceFacts.

(* ================================================================== *)
(** * Statistics summaries *)
(* ================================================================== *)

Module StatisticsFacts.

Import HistogramBinner Spec JsFacts SortFacts.

Lemma calculateStatistics_nonempty (Math_sqrt : Q -> Q) (data : list Q) :
  data <> [] ->
  calculateStatistics Math_sqrt data
  = let sorted := sort_numeric data in
    let n := length sorted in
    let mean := fold_left Qplus data 0 / nat_Q n in
    let squareDiffs := map (fun val => Qpower (val - mean) 2) data in
    let variance := fold_left Qplus squareDiffs 0 / nat_Q n in
    let percentiles := calculatePercentiles data in
    Some (obj_spread
            [ ("mean", Some mean);
              ("median", obj_read percentiles "p50");
              ("stdDev", Some (Math_sqrt variance));
              ("min", num_at sorted 0);
              ("max", num_at sorted (Z.of_nat n - 1)) ]
            percentiles).
Proof. destruct data; [contradiction | reflexivity]. Qed.

Lemma summarize_nonempty (Math_sqrt : Q -> Q) (data : list Q) :
  data <> [] ->
  Statistics.summarize Math_sqrt data
  = let sorted := sort_numeric data in
    Some [ ("count", Some (nat_Q (length data)));
           ("mean", Some (Statistics.mean data));
           ("median", Some (Statistics.median data));
           ("stdDev", Some (Statistics.stdDev Math_sqrt data));
           ("min", num_at sorted 0);
           ("max", num_at sorted (Z.of_nat (length sorted) - 1));
           ("p5", Statistics.percentile sorted 0.05);
           ("p25", Statistics.percentile sorted 0.25);
           ("p75", Statistics.percentile sorted 0.75);
           ("p95", Statistics.percentile sorted 0.95) ].
Proof. destruct data; [contradiction | reflexivity]. Qed.

Lemma sorted_nonempty (data : list Q) :
  data <> [] -> (0 < length (sort_numeric data))%nat.
Proof.
  intros Hd. rewrite sort_numeric_length.
  destruct data; [contradiction | simpl; lia].
Qed.

(** On a non-empty array [Statistics.percentile] reads an element. *)
Lemma percentile_defined (sorted : list Q) (p : Q) :
  (0 < length sorted)%nat -> 0 <= p ->
  exists v, Statistics.percentile sorted p = Some v.
Proof.
  intros Hn Hp. unfold Statistics.percentile.
  destruct (Nat.eqb_spec (length sorted) 0); [lia|].
  assert (H0 : (0 <= Qfloor (nat_Q (length sorted) * p))%Z).
  { change 0%Z with (Qfloor 0). apply Qfloor_resp_le.
    apply Qmult_le_0_compat; [apply nat_Q_nonneg | exact Hp]. }
  destruct (num_at_defined sorted
              (Z.min (Qfloor (nat_Q (length sorted) * p))
                 (Z.of_nat (length sorted) - 1))) as (v & Hv & _); [lia|].
  now exists v.
Qed.

(** C3 (amended): [calculateStatistics] and [Statistics.summarize] return
    null on an empty collection.  On a non-empty one [calculateStatistics]
    returns a record whose properties are mean, median, stdDev, min, max,
    p5, p25, p50, p75 and p95, each a number, the median being p50; the
    record has no count.  [Statistics.summarize] returns a record whose
    properties are count, mean, median, stdDev, min, max, p5, p25, p75 and
    p95, each a number, the count being the length of the input. *)
Theorem statistics_records (Math_sqrt : Q -> Q) (data : list Q) :
  calculateStatistics Math_sqrt [] = None
  /\ Statistics.summarize Math_sqrt [] = None
  /\ (data <> [] ->
      exists o,
        calculateStatistics Math_sqrt data = Some o
        /\ obj_keys o = ["mean"; "median"; "stdDev"; "min"; "max";
                         "p5"; "p25"; "p50"; "p75"; "p95"]
        /\ (forall k, In k (obj_keys o) ->
                      exists v, obj_get o k = Some (Some v))
        /\ obj_get o "median" = obj_get o "p50"
        /\ obj_get o "count" = None)
  /\ (data <> [] ->
      exists o,
        Statistics.summarize Math_sqrt data = Some o
        /\ obj_keys o = ["count"; "mean"; "median"; "stdDev"; "min"; "max";
                         "p5"; "p25"; "p75"; "p95"]
        /\ (forall k, In k (obj_keys o) ->
                      exists v, obj_get o k = Some (Some v))
        /\ obj_get o "count" = Some (Some (nat_Q (length data)))).
Proof.
  split; [reflexivity|]. split; [reflexivity|].
  split; intros Hd.
  - rewrite (calculateStatistics_nonempty _ _ Hd).
    unfold calculatePercentiles. cbv zeta.
    pose proof (sorted_nonempty data Hd) as Hn.
    set (sorted := sort_numeric data) in *.
    destruct (num_at_defined sorted (Qfloor (nat_Q (length sorted) * 0.05)))
      as (v5 & E5 & _); [now apply floor_index_range|].
    destruct (num_at_defined sorted (Qfloor (nat_Q (length sorted) * 0.25)))
      as (v25 & E25 & _); [now apply floor_index_range|].
    destruct (num_at_defined sorted (Qfloor (nat_Q (length sorted) * 0.50)))
      as (v50 & E50 & _); [now apply floor_index_range|].
    destruct (num_at_defined sorted (Qfloor (nat_Q (length sorted) * 0.75)))
      as (v75 & E75 & _); [now apply floor_index_range|].
    destruct (num_at_defined sorted (Qfloor (nat_Q (length sorted) * 0.95)))
      as (v95 & E95 & _); [now apply floor_index_range|].
    destruct (num_at_defined sorted 0) as (lo & Elo & _); [lia|].
    destruct (num_at_defined sorted (Z.of_nat (length sorted) - 1))
      as (hi & Ehi & _); [lia|].
    rewrite E5, E25, E50, E75, E95, Elo, Ehi.
    eexists. split; [reflexivity|].
    split; [reflexivity|].
    split; [| split; reflexivity].
    intros k Hk. cbn in Hk.
    repeat (destruct Hk as [<- | Hk]; [eexists; reflexivity|]).
    contradiction.
  - rewrite (summarize_nonempty _ _ Hd). cbv zeta.
    pose proof (sorted_nonempty data Hd) as Hn.
    set (sorted := sort_numeric data) in *.
    destruct (percentile_defined sorted 0.05 Hn) as (v5 & E5); [easy|].
    destruct (percentile_defined sorted 0.25 Hn) as (v25 & E25); [easy|].
    destruct (percentile_defined sorted 0.75 Hn) as (v75 & E75); [easy|].
    destruct (percentile_defined sorted 0.95 Hn) as (v95 & E95); [easy|].
    destruct (num_at_defined sorted 0) as (lo & Elo & _); [lia|].
    destruct (num_at_defined sorted (Z.of_nat (length sorted) - 1))
      as (hi & Ehi & _); [lia|].
    rewrite E5, E25, E75, E95, Elo, Ehi.
    eexists. split; [reflexivity|].
    split; [reflexivity|].
    split; [| reflexivity].
    intros k Hk. cbn in Hk.
    repeat (destruct Hk as [<- | Hk]; [eexists; reflexivity|]).
    contradiction.
Qed.

Lemma statistics_records_witness :
  let data : list Q := [3; 1; 2] in
  let Math_sqrt : Q -> Q := fun x => x in
  data <> []
  /\ (exists o,
        calculateStatistics Math_sqrt data = Some o
        /\ obj_keys o = ["mean"; "median"; "stdDev"; "min"; "max";
                         "p5"; "p25"; "p50"; "p75"; "p95"]
        /\ (forall k, In k (obj_keys o) ->
                      exists v, obj_get o k = Some (Some v))
        /\ obj_get o "median" = obj_get o "p50"
        /\ obj_get o "count" = None)
  /\ (exists o,
        Statistics.summarize Math_sqrt data = Some o
        /\ obj_keys o = ["count"; "mean"; "median"; "stdDev"; "min"; "max";
                         "p5"; "p25"; "p75"; "p95"]
        /\ (forall k, In k (obj_keys o) ->
                      exists v, obj_get o k = Some (Some v))
        /\ obj_get o "count" = Some (Some (nat_Q (length data)))).
Proof.
  intros data Math_sqrt.
  assert (Hd : data <> []) by discriminate.
  split; [exact Hd|]. split.
  - exact (proj1 (proj2 (proj2 (statistics_records Math_sqrt data))) Hd).
  - exact (proj2 (proj2 (proj2 (statistics_records Math_sqrt data))) Hd).
Defined.

(** C3 as the specification states it does not hold for
    [calculateStatistics]: the record it returns for the one-element
    collection [1] has no count.  (The variance is 0 there, and the square
    root of 0 is 0.) *)
Lemma calculateStatistics_has_no_count :
  exists o,
    calculateStatistics (fun variance => variance) [1] = Some o
    /\ obj_keys o = ["mean"; "median"; "stdDev"; "min"; "max";
                     "p5"; "p25"; "p50"; "p75"; "p95"]
    /\ ~ In "count" (obj_keys o)
    /\ obj_get o "count" = None.
Proof.
  eexists. split; [reflexivity|]. split; [reflexivity|]. split.
  - cbn. intuition discriminate.
  - reflexivity.
Qed.

(** The median of [Statistics.summarize] is the middle of the sorted
    values, the mean of the two middle ones for an even count: on [1; 2] it
    is 1.5, where the nearest-rank p50 of [calculateStatistics] is 2. *)
Example median_is_not_always_p50 :
  exists m p,
    Statistics.median [1; 2] = m /\ m == 1.5
    /\ obj_read (calculatePercentiles [1; 2]) "p50" = Some p /\ p == 2.
Proof.
  eexists _, _. split; [reflexivity|]. split; [reflexivity|].
  split; reflexivity.
Qed.

End StatisticsFacts.

(* ================================================================== *)
(** * The histogram binner *)
(* ================================================================== *)

Module BinnerFacts.

Import HistogramBinner Spec JsFacts SortFacts.

Lemma calculateOptimalBins_range (Math_pow : Q -> Q -> Q) (sortedData : list Q) :
  (20 <= calculateOptimalBins Math_pow sortedData <= 60)%Z.
Proof.
  unfold calculateOptimalBins.
  repeat match goal with
         | |- context [match ?x with _ => _ end] => destruct x
         end; lia.
Qed.

Lemma binData_nonempty (Math_pow : Q -> Q -> Q) (data : list Q)
    (numBins : option Z) :
  data <> [] ->
  binData Math_pow data numBins
  = let sortedData := sort_numeric data in
    let numBins :=
      match numBins with
      | None => calculateOptimalBins Math_pow sortedData
      | Some k => k
      end in
    let min := hd 0 sortedData in
    let max := last sortedData 0 in
    if Qeq_bool min max then
      Ok [Some {| binStart := min; binEnd := max; count := length data;
                  midpoint := min; percentage := Some 100 |}]
    else
      let binWidth := (max - min) / inject_Z numBins in
      rbind (new_Array numBins) (fun bins =>
      let bins :=
        for_range 0 (Z.to_nat numBins)
          (fun i bins => js_set bins i (Some (edge_bin min binWidth i 0)))
          bins in
      rbind
        (for_of_r sortedData
           (fun value bins =>
              let binIndex :=
                Z.min (Qfloor ((value - min) / binWidth)) (numBins - 1) in
              match js_getZ bins binIndex with
              | Some bin =>
                  Ok (js_set bins (Z.to_nat binIndex)
                        (Some (with_count bin (count bin + 1))))
              | None =>
                  Throw (TypeError "Cannot read properties of undefined")
              end)
           bins)
        (fun bins =>
      Ok (map (option_map
                 (fun bin =>
                    with_percentage bin
                      (nat_Q (count bin) / nat_Q (length data) * 100)))
            bins))).
Proof. destruct data; [contradiction | reflexivity]. Qed.

(** Replacing the entry of index [j] in an array given index by index. *)
Lemma js_set_map_seq {A : Type} (f f' : nat -> option A) (n j : nat) :
  (j < n)%nat ->
  (forall i, i <> j -> f' i = f i) ->
  js_set (map f (seq 0 n)) j (f' j) = map f' (seq 0 n).
Proof.
  intros Hj Hf.
  replace n with (j + S (n - S j))%nat by lia.
  rewrite seq_app, !map_app. cbn [seq map Nat.add].
  rewrite js_set_inside by now rewrite length_map, length_seq.
  f_equal; [| f_equal]; apply map_ext_in; intros i Hi;
    apply in_seq in Hi; symmetry; apply Hf; lia.
Qed.

Lemma sum_counts_ext (cnt cnt' : nat -> nat) (n : nat) :
  (forall i, (i < n)%nat -> cnt' i = cnt i) ->
  sum_counts cnt' n = sum_counts cnt n.
Proof.
  induction n as [|n IH]; intros H; [reflexivity|].
  simpl. rewrite IH by (intros; apply H; lia).
  rewrite (H n) by lia. reflexivity.
Qed.

(** One more value in bin [j]. *)
Lemma sum_counts_bump (cnt : nat -> nat) (n j : nat) :
  (j < n)%nat ->
  sum_counts (fun i => if (i =? j)%nat then (cnt i + 1)%nat else cnt i) n
  = (sum_counts cnt n + 1)%nat.
Proof.
  induction n as [|n IH]; intros Hj; [lia|].
  simpl. destruct (Nat.eqb_spec n j) as [-> | Hn].
  - rewrite (sum_counts_ext cnt); [lia|].
    intros i Hi. destruct (Nat.eqb_spec i j); [lia | reflexivity].
  - rewrite IH by lia. lia.
Qed.

Lemma total_count_map (g : nat -> Bin) (n : nat) :
  total_count (map g (seq 0 n)) = sum_counts (fun i => count (g i)) n.
Proof.
  induction n as [|n IH]; [reflexivity|].
  rewrite seq_S, map_app. cbn [sum_counts map Nat.add].
  rewrite <- IH. unfold total_count.
  rewrite fold_right_app. cbn [fold_right].
  generalize (map g (seq 0 n)). intros l.
  induction l as [|b l IHl]; simpl; [lia|]. rewrite IHl. lia.
Qed.

Lemma js_getZ_counting_bins (lo w : Q) (n : nat) (cnt : nat -> nat) (i : Z) :
  (0 <= i < Z.of_nat n)%Z ->
  js_getZ (counting_bins lo w n cnt) i
  = Some (edge_bin lo w (Z.to_nat i) (cnt (Z.to_nat i))).
Proof.
  intros Hi. unfold js_getZ, js_get, counting_bins.
  replace (i <? 0)%Z with false by (symmetry; apply Z.ltb_ge; lia).
  rewrite nth_error_map, nth_error_seq.
  replace (Z.to_nat i <? n)%nat with true
    by (symmetry; apply Nat.ltb_lt; lia).
  reflexivity.
Qed.

(** The counting pass: every value falls in a bin of the array and adds one
    to its count, the ranges being left as they are. *)
Lemma counting_pass (lo w : Q) (k : Z) (vals : list Q) :
  (1 <= k)%Z -> 0 < w ->
  (forall v, In v vals -> lo <= v) ->
  forall cnt,
  exists cnt',
    for_of_r vals
      (fun value bins =>
         match
           js_getZ bins (Z.min (Qfloor ((value - lo) / w)) (k - 1))
         with
         | Some bin =>
             Ok (js_set bins
                   (Z.to_nat (Z.min (Qfloor ((value - lo) / w)) (k - 1)))
                   (Some (with_count bin (count bin + 1))))
         | None => Throw (TypeError "Cannot read properties of undefined")
         end)
      (counting_bins lo w (Z.to_nat k) cnt)
    = Ok (counting_bins lo w (Z.to_nat k) cnt')
    /\ sum_counts cnt' (Z.to_nat k)
       = (sum_counts cnt (Z.to_nat k) + length vals)%nat.
Proof.
  intros Hk Hw. induction vals as [|v vals IH]; intros Hlo cnt.
  - exists cnt. split; [reflexivity | simpl; lia].
  - cbn [for_of_r]. cbv zeta.
    set (binIndex := Z.min (Qfloor ((v - lo) / w)) (k - 1)).
    assert (Hidx : (0 <= binIndex < Z.of_nat (Z.to_nat k))%Z).
    { assert (H0 : (0 <= Qfloor ((v - lo) / w))%Z).
      { change 0%Z with (Qfloor 0). apply Qfloor_resp_le.
        apply Qle_shift_div_l; [exact Hw|].
        rewrite Qmult_0_l. unfold Qminus. rewrite <- Qle_minus_iff.
        apply Hlo. now left. }
      unfold binIndex. lia. }
    rewrite (js_getZ_counting_bins _ _ _ _ _ Hidx).
    set (j := Z.to_nat binIndex).
    set (cnt1 := fun i => if (i =? j)%nat then (cnt i + 1)%nat else cnt i).
    assert (Hset : js_set (counting_bins lo w (Z.to_nat k) cnt) j
                     (Some (with_count (edge_bin lo w j (cnt j))
                              (count (edge_bin lo w j (cnt j)) + 1)))
                   = counting_bins lo w (Z.to_nat k) cnt1).
    { unfold counting_bins.
      rewrite <- (js_set_map_seq
                    (fun i => Some (edge_bin lo w i (cnt i)))
                    (fun i => Some (edge_bin lo w i (cnt1 i)))
                    (Z.to_nat k) j).
      - unfold cnt1. now rewrite Nat.eqb_refl.
      - unfold j. lia.
      - intros i Hi. unfold cnt1.
        now destruct (Nat.eqb_spec i j). }
    rewrite Hset, rbind_Ok.
    destruct (IH (fun x Hx => Hlo x (or_intror Hx)) cnt1) as (cnt' & Hrun & Hsum).
    exists cnt'. split; [exact Hrun|].
    rewrite Hsum. unfold cnt1. rewrite sum_counts_bump by (unfold j; lia).
    simpl. lia.
Qed.

Lemma nat_Q_S (n : nat) : nat_Q (S n) == nat_Q n + 1.
Proof.
  unfold nat_Q. rewrite Nat2Z.inj_succ, <- Z.add_1_r, inject_Z_plus.
  reflexivity.
Qed.

Lemma nat_Q_le (i j : nat) : (i <= j)%nat -> nat_Q i <= nat_Q j.
Proof. intros H. unfold nat_Q. rewrite <- Zle_Qle. lia. Qed.

Lemma edge_le (lo w a b : Q) :
  0 <= w -> a <= b -> lo + a * w <= lo + b * w.
Proof.
  intros Hw Hab. apply (proj2 (Qplus_le_r _ _ lo)).
  now apply Qmult_le_compat_r.
Qed.

Lemma is_min_eq (m m' : Q) (l : list Q) :
  m == m' -> is_min m l -> is_min m' l.
Proof.
  intros E [(x & Hx & Hxm) Hle]. split.
  - exists x. split; [exact Hx | now rewrite <- E].
  - intros y Hy. rewrite <- E. now apply Hle.
Qed.

Lemma is_max_eq (m m' : Q) (l : list Q) :
  m == m' -> is_max m l -> is_max m' l.
Proof.
  intros E [(x & Hx & Hxm) Hle]. split.
  - exists x. split; [exact Hx | now rewrite <- E].
  - intros y Hy. rewrite <- E. now apply Hle.
Qed.

Lemma nth_error_map_seq {A : Type} (g : nat -> A) (n i : nat) (b : A) :
  nth_error (map g (seq 0 n)) i = Some b -> (i < n)%nat /\ b = g i.
Proof.
  rewrite nth_error_map, nth_error_seq.
  destruct (Nat.ltb_spec i n); [|discriminate].
  simpl. intros E. injection E as <-. now split.
Qed.

(** C5: for every non-empty collection [binData] returns bins in ascending
    order of their ranges, contiguous and non-overlapping, whose counts add
    up to the length of the input, the first bin starting at the least
    value of the input.  The last bin ends at
    [min + numBins * ((max - min) / numBins)], which in exact arithmetic
    is the greatest value of the input (in binary64 it can miss it by
    one unit in the last place, as the facts on the binary64 bins show).
    The bin count is the automatic one or any given count that is a valid
    array length of at least 1. *)
Theorem binData_partitions
    (Math_pow : Q -> Q -> Q) (data : list Q) (numBins : option Z) :
  data <> [] ->
  (forall k, numBins = Some k -> (1 <= k <= MAX_ARRAY_LENGTH)%Z) ->
  exists bins first last,
    binData Math_pow data numBins = Ok (map Some bins)
    /\ contiguous bins
    /\ ascending bins
    /\ total_count bins = length data
    /\ hd_error bins = Some first
    /\ is_min (binStart first) data
    /\ nth_error bins (length bins - 1) = Some last
    /\ is_max (binEnd last) data.
Proof.
  intros Hd Hgiven. rewrite (binData_nonempty _ _ _ Hd). cbv zeta.
  set (sorted := sort_numeric data).
  set (k := match numBins with
            | None => calculateOptimalBins Math_pow sorted
            | Some k => k
            end).
  assert (Hk : (1 <= k <= MAX_ARRAY_LENGTH)%Z).
  { unfold k. destruct numBins as [k'|]; [now apply Hgiven|].
    pose proof (calculateOptimalBins_range Math_pow sorted).
    unfold MAX_ARRAY_LENGTH. lia. }
  set (lo := hd 0 sorted). set (hi := last sorted 0).
  assert (Hmin : is_min lo data) by now apply sorted_hd_min.
  assert (Hmax : is_max hi data) by now apply sorted_last_max.
  assert (Hle : lo <= hi).
  { destruct Hmax as [(x & Hx & Hxm) _]. rewrite <- Hxm.
    now apply (proj2 Hmin). }
  destruct (Qeq_bool lo hi) eqn:E.
  - (* all values equal: one bin *)
    eexists [_], _, _. split; [reflexivity|].
    split; [| split; [| split; [| split; [| split; [| split]]]]].
    + intros i b1 b2 _ H2. destruct i; discriminate.
    + split.
      * constructor; [exact Hle | constructor].
      * intros i j b1 b2 Hij _ H2.
        destruct j as [|j]; [lia|]. destruct j; discriminate.
    + simpl. lia.
    + reflexivity.
    + exact Hmin.
    + reflexivity.
    + exact Hmax.
  - (* an equal-width partition of [lo, hi] into k bins *)
    assert (Hlt : lo < hi).
    { apply Qnot_le_lt. intros Hge.
      assert (Heq : lo == hi) by now apply Qle_antisym.
      apply Qeq_bool_iff in Heq. congruence. }
    assert (HkQ : 0 < inject_Z k) by (rewrite <- (Zlt_Qlt 0); lia).
    set (w := (hi - lo) / inject_Z k).
    assert (Hw : 0 < w).
    { unfold w. apply Qlt_shift_div_l; [exact HkQ|].
      rewrite Qmult_0_l. unfold Qminus. now rewrite <- Qlt_minus_iff. }
    rewrite EngineFacts.new_Array_ok by lia. rewrite rbind_Ok.
    rewrite (for_range_fill_all (fun i => Some (edge_bin lo w i 0))).
    fold (counting_bins lo w (Z.to_nat k) (fun _ => 0%nat)).
    destruct (counting_pass lo w k sorted) with (cnt := fun _ : nat => 0%nat)
      as (cnt & Hrun & Hsum); [lia | exact Hw | |].
    { intros v Hv. apply (proj2 Hmin).
      eapply Permutation_in; [apply sort_numeric_perm | exact Hv]. }
    rewrite Hrun, rbind_Ok.
    set (n := Z.to_nat k) in *.
    set (g := fun i =>
                with_percentage (edge_bin lo w i (cnt i))
                  (nat_Q (count (edge_bin lo w i (cnt i)))
                   / nat_Q (length data) * 100)).
    assert (Hn : (1 <= n)%nat) by (unfold n; lia).
    exists (map g (seq 0 n)), (g 0%nat), (g (n - 1)%nat).
    split; [unfold counting_bins; now rewrite !map_map|].
    split; [| split; [| split; [| split; [| split; [| split]]]]].
    + intros i b1 b2 H1 H2.
      apply nth_error_map_seq in H1 as [_ ->].
      apply nth_error_map_seq in H2 as [_ ->].
      cbn [g with_percentage edge_bin binStart binEnd].
      rewrite nat_Q_S. reflexivity.
    + split.
      * apply Forall_forall. intros b Hb.
        apply in_map_iff in Hb as (i & <- & _).
        cbn [g with_percentage edge_bin binStart binEnd].
        apply edge_le; [now apply Qlt_le_weak|].
        rewrite <- nat_Q_S. apply nat_Q_le. lia.
      * intros i j b1 b2 Hij H1 H2.
        apply nth_error_map_seq in H1 as [_ ->].
        apply nth_error_map_seq in H2 as [_ ->].
        cbn [g with_percentage edge_bin binStart binEnd].
        apply edge_le; [now apply Qlt_le_weak|].
        rewrite <- nat_Q_S. apply nat_Q_le. lia.
    + rewrite total_count_map.
      rewrite (sum_counts_ext cnt) by reflexivity.
      rewrite Hsum.
      assert (Hz : sum_counts (fun _ : nat => 0%nat) n = 0%nat).
      { clear. induction n as [|n IH]; simpl; [reflexivity | lia]. }
      rewrite Hz. unfold sorted. now rewrite sort_numeric_length.
    + destruct n as [|n']; [lia | reflexivity].
    + apply (is_min_eq lo); [| exact Hmin].
      cbn [g with_percentage edge_bin binStart]. unfold nat_Q. simpl. ring.
    + rewrite length_map, length_seq, nth_error_map, nth_error_seq.
      replace (n - 1 <? n)%nat with true
        by (symmetry; apply Nat.ltb_lt; lia).
      reflexivity.
    + apply (is_max_eq hi); [| exact Hmax].
      cbn [g with_percentage edge_bin binEnd].
      assert (Hlast : nat_Q (n - 1) + 1 == inject_Z k).
      { rewrite <- nat_Q_S. unfold nat_Q, n.
        replace (Z.of_nat (S (Z.to_nat k - 1))) with k by lia.
        reflexivity. }
      rewrite Hlast. unfold w. field.
      intros Hz. rewrite Hz in HkQ. now apply Qlt_irrefl in HkQ.
Qed.

Lemma binData_partitions_witness :
  let data : list Q := [1; 2; 3; 4; 5; 2.5] in
  let Math_pow : Q -> Q -> Q := fun _ _ => 1.8171 in
  data <> []
  /\ (forall k, @None Z = Some k -> (1 <= k <= MAX_ARRAY_LENGTH)%Z)
  /\ exists bins first last,
       binData Math_pow data None = Ok (map Some bins)
       /\ contiguous bins
       /\ ascending bins
       /\ total_count bins = length data
       /\ hd_error bins = Some first
       /\ is_min (binStart first) data
       /\ nth_error bins (length bins - 1) = Some last
       /\ is_max (binEnd last) data.
Proof.
  intros data Math_pow.
  assert (Hd : data <> []) by discriminate.
  assert (Hk : forall k, @None Z = Some k -> (1 <= k <= MAX_ARRAY_LENGTH)%Z)
    by discriminate.
  split; [exact Hd|]. split; [exact Hk|].
  exact (binData_partitions Math_pow data None Hd Hk).
Defined.

(** The same collection cut into three bins: two values in each. *)
Example three_bins :
  exists b0 b1 b2,
    binData (fun _ _ => 1.8171) [1; 2; 3; 4; 5; 2.5] (Some 3%Z)
    = Ok [Some b0; Some b1; Some b2]
    /\ map count [b0; b1; b2] = [2; 2; 2]%nat
    /\ binStart b0 == 1 /\ binEnd b2 == 5.
Proof.
  vm_compute. eexists _, _, _. split; [reflexivity|].
  split; [reflexivity|]. split; reflexivity.
Qed.

End BinnerFacts.

(* ================================================================== *)
(** * More on the tax calculator *)
(* ================================================================== *)

Module TaxMoreFacts.

Import TaxCalculator.

Lemma Qmax_0_cases (x : Q) :
  (x <= 0 /\ Qmax 0 x == 0) \/ (0 <= x /\ Qmax 0 x == x).
Proof.
  destruct (Qlt_le_dec 0 x) as [H | H].
  - right. split; [lra | apply Q.max_r; lra].
  - left. split; [exact H | now apply Q.max_l].
Qed.

(** X1: the tax is never negative, is zero when the value does not exceed
    the cost basis, and never exceeds the gain; so the after-tax value is
    at most the total value and, when there is a gain, at least the cost
    basis. *)
Theorem tax_takes_part_of_the_gain (totalValue costBasis : Q) :
  0 <= calculateCapitalGainsTax totalValue costBasis
  /\ calculateAfterTaxValue totalValue costBasis <= totalValue
  /\ (totalValue <= costBasis ->
      calculateCapitalGainsTax totalValue costBasis == 0
      /\ calculateAfterTaxValue totalValue costBasis == totalValue)
  /\ (costBasis <= totalValue ->
      calculateCapitalGainsTax totalValue costBasis
      <= totalValue - costBasis
      /\ costBasis <= calculateAfterTaxValue totalValue costBasis).
Proof.
  unfold calculateAfterTaxValue, calculateCapitalGainsTax, CAPITAL_GAINS_RATE.
  destruct (Qmax_0_cases (totalValue - costBasis)) as [[H E] | [H E]];
    rewrite E; repeat split; intros; lra.
Qed.

Lemma tax_takes_part_of_the_gain_witness :
  (1000 <= 1500
   /\ calculateCapitalGainsTax 1000 1500 == 0
   /\ calculateAfterTaxValue 1000 1500 == 1000)
  /\ (1000 <= 2000
      /\ calculateCapitalGainsTax 2000 1000 <= 2000 - 1000
      /\ 1000 <= calculateAfterTaxValue 2000 1000).
Proof.
  assert (H1 : 1000 <= 1500) by discriminate.
  assert (H2 : 1000 <= 2000) by discriminate.
  split.
  - split; [exact H1|].
    exact (proj1 (proj2 (proj2 (tax_takes_part_of_the_gain 1000 1500))) H1).
  - split; [exact H2|].
    exact (proj2 (proj2 (proj2 (tax_takes_part_of_the_gain 2000 1000))) H2).
Defined.

(** X2: the effective tax rate is 0 when there is no gain; when there is
    one it is the tax divided by the gain, which in exact arithmetic is
    the capital-gains rate, 0.3784, whatever the gain.  (In binary64 the
    product and the quotient are rounded, and the result can differ from
    0.3784 in the last digits.) *)
Theorem effective_rate_is_constant (totalValue costBasis : Q) :
  (totalValue <= costBasis ->
   calculateEffectiveTaxRate totalValue costBasis == 0)
  /\ (costBasis < totalValue ->
      calculateEffectiveTaxRate totalValue costBasis == CAPITAL_GAINS_RATE).
Proof.
  unfold calculateEffectiveTaxRate, calculateCapitalGainsTax.
  destruct (Qmax_0_cases (totalValue - costBasis)) as [[H E] | [H E]].
  - split; intros Hc; [| lra].
    apply Qeq_bool_iff in E. now rewrite E.
  - split; intros Hc.
    + assert (E0 : Qmax 0 (totalValue - costBasis) == 0) by lra.
      apply Qeq_bool_iff in E0. now rewrite E0.
    + destruct (Qeq_bool (Qmax 0 (totalValue - costBasis)) 0) eqn:B.
      * apply Qeq_bool_iff in B. lra.
      * rewrite E. field. lra.
Qed.

Lemma effective_rate_is_constant_witness :
  (1000 <= 1500 /\ calculateEffectiveTaxRate 1000 1500 == 0)
  /\ (1000 < 2000
      /\ calculateEffectiveTaxRate 2000 1000 == CAPITAL_GAINS_RATE).
Proof.
  assert (H1 : 1000 <= 1500) by discriminate.
  assert (H2 : 1000 < 2000) by reflexivity.
  split.
  - split; [exact H1|].
    exact (proj1 (effective_rate_is_constant 1000 1500) H1).
  - split; [exact H2|].
    exact (proj2 (effective_rate_is_constant 2000 1000) H2).
Defined.

End TaxMoreFacts.

(* ================================================================== *)
(** * More on the mortgage valuators *)
(* ================================================================== *)

Module MortgageFacts.

Import MonteCarloEngine Spec SpecMore JsFacts.

Lemma Qpower_nat_succ (x : Q) (k : nat) :
  Qpower x (Z.of_nat (S k)) == Qpower x (Z.of_nat k) * x.
Proof.
  rewrite Nat2Z.inj_succ, <- Z.add_1_r.
  rewrite Qpower_plus' by lia. now rewrite Qpower_1_r.
Qed.

Lemma annuity_sum_one (x : Q) (n : nat) :
  x == 1 -> annuity_sum x n == HistogramBinner.nat_Q n.
Proof.
  intros Hx. induction n as [|n IH].
  - reflexivity.
  - cbn [annuity_sum]. rewrite IH, Hx, Qpower_1.
    unfold HistogramBinner.nat_Q.
    rewrite Nat2Z.inj_succ, <- Z.add_1_r, inject_Z_plus. reflexivity.
Qed.

(** The closed form of a geometric sum. *)
Lemma annuity_sum_closed (x : Q) (n : nat) :
  ~ x - 1 == 0 ->
  (Qpower x (Z.of_nat n) - 1) / (x - 1) == annuity_sum x n.
Proof.
  intros Hx. induction n as [|n IH].
  - simpl. field. exact Hx.
  - cbn [annuity_sum]. rewrite <- IH, Qpower_nat_succ. field. exact Hx.
Qed.

Lemma annuity_sum_ge (x : Q) (n : nat) :
  1 <= x -> HistogramBinner.nat_Q n <= annuity_sum x n.
Proof.
  intros Hx. induction n as [|n IH].
  - apply Qle_refl.
  - cbn [annuity_sum].
    assert (H1 : 1 <= Qpower x (Z.of_nat n)) by (apply Qpower_1_le; [exact Hx | lia]).
    unfold HistogramBinner.nat_Q in *.
    rewrite Nat2Z.inj_succ, <- Z.add_1_r, inject_Z_plus.
    change (inject_Z 1) with 1. lra.
Qed.

Lemma annuity_sum_mono (x : Q) (n m : nat) :
  0 <= x -> (n <= m)%nat -> annuity_sum x n <= annuity_sum x m.
Proof.
  intros Hx Hnm. induction Hnm as [|m Hnm IH].
  - apply Qle_refl.
  - cbn [annuity_sum].
    assert (H0 : 0 <= Qpower x (Z.of_nat m)) by now apply Qpower_0_le.
    lra.
Qed.

Lemma scale_le (P a b : Q) : 0 <= P -> a <= b -> P * a <= P * b.
Proof.
  intros HP Hab. rewrite !(Qmult_comm P). now apply Qmult_le_compat_r.
Qed.

(** The savings value as the payments compounded month by month, whatever
    the rate. *)
Lemma savings_as_sum (P : Q) (years : Z) (rate : Q) :
  (0 <= years)%Z ->
  calculateMortgageSavingsValue P years rate
  == P * annuity_sum (1 + rate / 12) (Z.to_nat (years * 12)).
Proof.
  intros Hy. unfold calculateMortgageSavingsValue.
  destruct (Qeq_bool (rate / 12) 0) eqn:E.
  - apply Qeq_bool_iff in E.
    rewrite annuity_sum_one by (rewrite E; reflexivity).
    unfold HistogramBinner.nat_Q. now rewrite Z2Nat.id by lia.
  - assert (Hm : ~ rate / 12 == 0).
    { intros H. apply Qeq_bool_iff in H. congruence. }
    rewrite <- annuity_sum_closed by (intros H; apply Hm; lra).
    rewrite Z2Nat.id by lia.
    setoid_replace (1 + rate / 12 - 1) with (rate / 12) by ring.
    reflexivity.
Qed.



(** X4: in exact arithmetic, with a payment that is not negative, a rate
    that is 0 or between 0.1% and 100% a year (the rates the input panel
    offers, 0% to 15% in steps of 0.1%, are among them) and horizons of at
    most 100 years, the savings value is at least the amount paid in,
    [P * 12 * years], it is not negative, and a longer horizon never lowers
    it; at a horizon of 0 it is 0.  (The bounds keep the binary64
    computation away from the cancellation in [Math.pow(1 + r, n) - 1] at
    rates next to 0 and from overflow at large ones, where the code's
    result leaves the formula.) *)
Theorem savings_never_below_payments (P : Q) (years years' : Z) (rate : Q) :
  0 <= P ->
  rate == 0 \/ 0.001 <= rate <= 1 ->
  (0 <= years <= years')%Z -> (years' <= 100)%Z ->
  P * inject_Z (years * 12) <= calculateMortgageSavingsValue P years rate
  /\ 0 <= calculateMortgageSavingsValue P years rate
  /\ calculateMortgageSavingsValue P years rate
     <= calculateMortgageSavingsValue P years' rate
  /\ calculateMortgageSavingsValue P 0 rate == 0.
Proof.
  intros HP Hrate Hy _.
  assert (Hr : 0 <= rate) by (destruct Hrate as [E | [H1 H2]]; lra).
  assert (Hx : 1 <= 1 + rate / 12).
  { assert (0 <= rate / 12) by (apply Qle_shift_div_l; [reflexivity | lra]).
    lra. }
  rewrite !savings_as_sum by lia.
  set (x := 1 + rate / 12) in *.
  pose proof (annuity_sum_ge x (Z.to_nat (years * 12)) Hx) as Hge.
  unfold HistogramBinner.nat_Q in Hge. rewrite Z2Nat.id in Hge by lia.
  assert (Hn : 0 <= inject_Z (years * 12)).
  { rewrite <- (Zle_Qle 0). lia. }
  assert (Hmono : annuity_sum x (Z.to_nat (years * 12))
                  <= annuity_sum x (Z.to_nat (years' * 12))).
  { apply annuity_sum_mono; [lra | lia]. }
  split; [| split; [| split]].
  - now apply scale_le.
  - apply Qmult_le_0_compat; [exact HP | lra].
  - now apply scale_le.
  - simpl. ring.
Qed.

Lemma savings_never_below_payments_witness :
  0 <= 1000 /\ (0.045 == 0 \/ 0.001 <= 0.045 <= 1)
  /\ (0 <= 5 <= 10)%Z /\ (10 <= 100)%Z
  /\ 1000 * inject_Z (5 * 12) <= calculateMortgageSavingsValue 1000 5 0.045
  /\ 0 <= calculateMortgageSavingsValue 1000 5 0.045
  /\ calculateMortgageSavingsValue 1000 5 0.045
     <= calculateMortgageSavingsValue 1000 10 0.045
  /\ calculateMortgageSavingsValue 1000 0 0.045 == 0.
Proof.
  assert (HP : 0 <= 1000) by discriminate.
  assert (Hr : 0.045 == 0 \/ 0.001 <= 0.045 <= 1)
    by (right; split; discriminate).
  assert (Hy : (0 <= 5 <= 10)%Z) by lia.
  assert (Hy' : (10 <= 100)%Z) by lia.
  split; [exact HP|]. split; [exact Hr|]. split; [exact Hy|].
  split; [exact Hy'|].
  exact (savings_never_below_payments 1000 5 10 0.045 HP Hr Hy Hy').
Defined.

(** ** The deterministic mortgage path *)

(** Entry [y] of the path, as the loop writes it. *)
Lemma path_entry (p rate : Q) (y : nat) (path : list (option Q)) :
  (if Qeq_bool (rate / 12) 0
   then js_set path y (Some (p * inject_Z (Z.of_nat y * 12)))
   else js_set path y
          (Some (p * ((Qpower (1 + rate / 12) (Z.of_nat y * 12) - 1)
                      / (rate / 12)))))
  = js_set path y (Some (calculateMortgageSavingsValue p (Z.of_nat y) rate)).
Proof.
  unfold calculateMortgageSavingsValue.
  now destruct (Qeq_bool (rate / 12) 0).
Qed.

Lemma calculateMortgagePath_closed (p : Q) (years : Z) (rate : Q) :
  (0 <= years <= MAX_ARRAY_LENGTH - 1)%Z ->
  calculateMortgagePath p years rate
  = Ok (Some 0
        :: map (fun y => Some (calculateMortgageSavingsValue p (Z.of_nat y) rate))
             (seq 1 (Z.to_nat years))).
Proof.
  intros Hy. unfold calculateMortgagePath.
  rewrite EngineFacts.new_Array_ok by lia. rewrite rbind_Ok. f_equal.
  set (n := Z.to_nat years).
  replace (Z.to_nat (years + 1)) with (S n) by lia.
  change (repeat None (S n)) with ([] ++ repeat (@None Q) (S n)).
  rewrite (js_set_at_end [] (S n) 0 (Some 0) eq_refl).
  cbn [app]. rewrite Nat.sub_succ, Nat.sub_0_r.
  set (F := fun y : nat =>
              Some (calculateMortgageSavingsValue p (Z.of_nat y) rate)).
  set (body := fun (year : nat) (path : list (option Q)) => _).
  assert (H : (fun (i : nat) (path : list (option Q)) =>
                 path = Some 0 :: map F (seq 1 (i - 1))
                          ++ repeat None (S n - i))
                (1 + n)%nat
                (for_range 1 n body (Some 0 :: repeat None n))).
  { apply for_range_inv.
    - simpl. now rewrite Nat.sub_0_r.
    - intros i path Hi ->. unfold body. rewrite path_entry.
      change (Some 0 :: map F (seq 1 (i - 1)) ++ repeat None (S n - i))
        with ((Some 0 :: map F (seq 1 (i - 1))) ++ repeat None (S n - i)).
      rewrite js_set_at_end
        by (cbn [length]; rewrite length_map, length_seq; lia).
      replace (S i - 1)%nat with (S (i - 1)) by lia.
      rewrite seq_S, map_app. cbn [map app].
      rewrite <- app_assoc. cbn [app].
      replace (1 + (i - 1))%nat with i by lia.
      now replace (S n - i - 1)%nat with (S n - S i)%nat by lia. }
  cbn beta in H. rewrite H.
  replace (1 + n - 1)%nat with n by lia.
  replace (S n - (1 + n))%nat with 0%nat by lia.
  cbn [repeat]. now rewrite app_nil_r.
Qed.

(** X5: [calculateMortgagePath] throws a [RangeError] for a horizon below
    -1 (and above the largest array length minus one).  For a horizon from
    0 on it returns [years + 1] values, the first being 0 and the value of
    year [y] being the mortgage-savings value of [y] years; the last one is
    the outcome of the mortgage scenario. *)
Theorem mortgage_path_follows_savings (p : Q) (years : Z) (rate : Q) :
  ((years < -1 \/ MAX_ARRAY_LENGTH - 1 < years)%Z ->
   calculateMortgagePath p years rate
   = Throw (RangeError "Invalid array length"))
  /\ ((0 <= years <= MAX_ARRAY_LENGTH - 1)%Z ->
      exists path,
        calculateMortgagePath p years rate = Ok path
        /\ length path = (Z.to_nat years + 1)%nat
        /\ js_get path 0 = Some 0
        /\ (forall y, (y <= Z.to_nat years)%nat ->
              exists v, js_get path y = Some v
                        /\ v == calculateMortgageSavingsValue p (Z.of_nat y)
                                  rate)
        /\ (exists v, js_get path (Z.to_nat years) = Some v
                      /\ v == calculateMortgageScenario p years rate)).
Proof.
  split.
  - intros Hy. unfold calculateMortgagePath, new_Array.
    replace ((0 <=? years + 1) && (years + 1 <=? MAX_ARRAY_LENGTH))%Z
      with false; [reflexivity|].
    symmetry. apply andb_false_iff.
    destruct Hy; [left; apply Z.leb_gt | right; apply Z.leb_gt]; lia.
  - intros Hy. rewrite (calculateMortgagePath_closed _ _ _ Hy).
    eexists. split; [reflexivity|].
    assert (Hent : forall y, (y <= Z.to_nat years)%nat ->
              exists v,
                js_get
                  (Some 0
                   :: map (fun y0 =>
                             Some (calculateMortgageSavingsValue p
                                     (Z.of_nat y0) rate))
                        (seq 1 (Z.to_nat years))) y = Some v
                /\ v == calculateMortgageSavingsValue p (Z.of_nat y) rate).
    { intros [|y] Hyy.
      - exists 0. split; [reflexivity|].
        unfold calculateMortgageSavingsValue. cbn [Z.of_nat Z.mul].
        destruct (Qeq_bool (rate / 12) 0) eqn:E; [ring|].
        assert (Hm : ~ rate / 12 == 0).
        { intros H. apply Qeq_bool_iff in H. congruence. }
        rewrite Qpower_0_r. field.
        intros H. apply Hm. rewrite H. reflexivity.
      - eexists. split; [| reflexivity].
        unfold js_get. cbn [nth_error].
        rewrite nth_error_map, nth_error_seq.
        replace (y <? Z.to_nat years)%nat with true
          by (symmetry; apply Nat.ltb_lt; lia).
        reflexivity. }
    split; [cbn [length]; rewrite length_map, length_seq; lia|].
    split; [reflexivity|]. split; [exact Hent|].
    destruct (Hent (Z.to_nat years) (Nat.le_refl _)) as (v & Hv & Hvv).
    exists v. split; [exact Hv|].
    rewrite Hvv. unfold calculateMortgageScenario.
    now rewrite Z2Nat.id by lia.
Qed.

Lemma mortgage_path_follows_savings_witness :
  ((-2 < -1 \/ MAX_ARRAY_LENGTH - 1 < -2)%Z
   /\ calculateMortgagePath 1000 (-2) 0.045
      = Throw (RangeError "Invalid array length"))
  /\ ((0 <= 2 <= MAX_ARRAY_LENGTH - 1)%Z
      /\ exists path,
           calculateMortgagePath 1000 2 0.045 = Ok path
           /\ length path = (Z.to_nat 2 + 1)%nat
           /\ js_get path 0 = Some 0
           /\ (forall y, (y <= Z.to_nat 2)%nat ->
                 exists v, js_get path y = Some v
                           /\ v == calculateMortgageSavingsValue 1000
                                     (Z.of_nat y) 0.045)
           /\ (exists v, js_get path (Z.to_nat 2) = Some v
                         /\ v == calculateMortgageScenario 1000 2 0.045)).
Proof.
  assert (H1 : (-2 < -1 \/ MAX_ARRAY_LENGTH - 1 < -2)%Z) by (left; lia).
  assert (H2 : (0 <= 2 <= MAX_ARRAY_LENGTH - 1)%Z)
    by (unfold MAX_ARRAY_LENGTH; lia).
  split.
  - split; [exact H1|].
    exact (proj1 (mortgage_path_follows_savings 1000 (-2) 0.045) H1).
  - split; [exact H2|].
    exact (proj2 (mortgage_path_follows_savings 1000 2 0.045) H2).
Defined.

End MortgageFacts.

(* ================================================================== *)
(** * More on the stock valuators *)
(* ================================================================== *)

Module StockFacts.

Import MonteCarloEngine Spec SpecMore JsFacts ValuatorFacts.

(** Reading an array after a write. *)
Lemma js_get_js_set {A : Type} (a : list (option A)) (i j : nat)
    (v : option A) :
  js_get (js_set a j v) i = if (i =? j)%nat then v else js_get a i.
Proof.
  unfold js_get, js_set.
  destruct (Nat.ltb_spec i (Nat.min j (length a))) as [Hlt | Hge].
  - rewrite nth_error_app1 by (rewrite length_firstn; lia).
    rewrite nth_error_firstn.
    replace (i <? j)%nat with true by (symmetry; apply Nat.ltb_lt; lia).
    destruct (Nat.eqb_spec i j); [lia | reflexivity].
  - rewrite nth_error_app2 by (rewrite length_firstn; lia).
    rewrite length_firstn.
    destruct (Nat.ltb_spec (i - Nat.min j (length a)) (j - length a))
      as [Hhole | Hpast].
    + rewrite nth_error_app1 by (rewrite repeat_length; lia).
      rewrite nth_error_repeat by lia.
      destruct (Nat.eqb_spec i j); [lia|].
      destruct (nth_error a i) eqn:E; [|reflexivity].
      assert (i < length a)%nat by (apply nth_error_Some; congruence). lia.
    + rewrite nth_error_app2 by (rewrite repeat_length; lia).
      rewrite repeat_length.
      destruct (Nat.eqb_spec i j) as [-> | Hij].
      * replace (j - Nat.min j (length a) - (j - length a))%nat with 0%nat
          by lia.
        reflexivity.
      * replace (i - Nat.min j (length a) - (j - length a))%nat
          with (S (i - S j)) by lia.
        cbn [nth_error]. rewrite nth_error_skipn.
        now replace (S j + (i - S j))%nat with i by lia.
Qed.

Lemma jmul_NaN_r (x : jsnum) : jmul x NaN = NaN.
Proof. now destruct x. Qed.

(** The two yearly loops compute the same stock value and cost basis. *)
Lemma loops_agree (c : Q) (path : list (option Q)) :
  forall n lo sv ti yv,
    fst (for_range lo n
           (fun year '(stockValue, totalInvested, yearlyValues) =>
              (jmul (jadd stockValue (Num c))
                 (jadd (Num 1) (ToNumber (js_get path year))),
               totalInvested + c,
               js_set yearlyValues (year + 1)
                 (Some (jmul (jadd stockValue (Num c))
                          (jadd (Num 1) (ToNumber (js_get path year)))))))
           (sv, ti, yv))
    = for_range lo n
        (fun year '(stockValue, totalInvested) =>
           (jmul (jadd stockValue (Num c))
              (jadd (Num 1) (ToNumber (js_get path year))),
            totalInvested + c))
        (sv, ti).
Proof.
  induction n as [|n IH]; intros lo sv ti yv; [reflexivity|].
  cbn [for_range]. apply IH.
Qed.

(** The yearly values while the loop runs: the first stays 0 and the
    array reaches one entry past the years done or the initial length. *)
Lemma yearly_values_shape (c : Q) (path : list (option Q)) (Y n : nat) :
  forall s,
    s = for_range 0 n
          (fun year '(stockValue, totalInvested, yearlyValues) =>
             (jmul (jadd stockValue (Num c))
                (jadd (Num 1) (ToNumber (js_get path year))),
              totalInvested + c,
              js_set yearlyValues (year + 1)
                (Some (jmul (jadd stockValue (Num c))
                         (jadd (Num 1) (ToNumber (js_get path year)))))))
          (Num 0, 0, js_set (repeat None Y) 0 (Some (Num 0))) ->
    js_get (snd s) 0 = Some (Num 0)
    /\ length (snd s) = Nat.max Y (S n).
Proof.
  intros s ->.
  apply (for_range_inv
           (fun i (t : jsnum * Q * list (option jsnum)) =>
              js_get (snd t) 0 = Some (Num 0)
              /\ length (snd t) = Nat.max Y (S i))).
  - cbn [snd]. rewrite js_get_js_set, js_set_length, repeat_length.
    split; [reflexivity | lia].
  - intros i [[sv ti] yv] _ [H0 Hlen]. cbn [snd] in *.
    rewrite js_get_js_set, js_set_length.
    replace (0 =? i + 1)%nat with false by (symmetry; apply Nat.eqb_neq; lia).
    split; [exact H0 | lia].
Qed.

(** X6: [calculateStockScenarioWithPath] returns, for every return path,
    the final value [calculateStockScenario] returns, together with yearly
    values that start at 0 and have [max (years + 1) (returns.length + 1)]
    entries; it throws a [RangeError] when [years] is below -1. *)
Theorem path_variant_agrees
    (m a : Q) (path : list (option Q)) (rate : Q) (years : Z) :
  ((years < -1)%Z ->
   calculateStockScenarioWithPath m a path rate years
   = Throw (RangeError "Invalid array length"))
  /\ ((-1 <= years <= MAX_ARRAY_LENGTH - 1)%Z ->
      exists yv,
        calculateStockScenarioWithPath m a path rate years
        = Ok {| finalValue := calculateStockScenario m a path rate years;
                yearlyValues := yv |}
        /\ js_get yv 0 = Some (Num 0)
        /\ length yv = Nat.max (Z.to_nat (years + 1)) (S (length path))).
Proof.
  split.
  - intros Hy. unfold calculateStockScenarioWithPath.
    now rewrite EngineFacts.new_Array_negative by lia.
  - intros Hy. unfold calculateStockScenarioWithPath, calculateStockScenario.
    rewrite EngineFacts.new_Array_ok by lia. rewrite rbind_Ok.
    set (c := m * a * 12).
    pose proof (loops_agree c path (length path) 0 (Num 0) 0
                  (js_set (repeat None (Z.to_nat (years + 1))) 0
                     (Some (Num 0)))) as Hagree.
    pose proof (yearly_values_shape c path (Z.to_nat (years + 1))
                  (length path) _ eq_refl) as [H0 Hlen].
    fold c in Hagree, H0, Hlen |- *.
    destruct (for_range 0 (length path) _ (Num 0, 0, _)) as [[sv ti] yv].
    cbn [fst snd] in *. rewrite <- Hagree.
    exists yv. now repeat split.
Qed.

Lemma path_variant_agrees_witness :
  ((-2 < -1)%Z
   /\ calculateStockScenarioWithPath 1000 0.5 [Some 0.5; None] 0 (-2)
      = Throw (RangeError "Invalid array length"))
  /\ ((-1 <= 1 <= MAX_ARRAY_LENGTH - 1)%Z
      /\ exists yv,
           calculateStockScenarioWithPath 1000 0.5 [Some 0.5; None] 0 1
           = Ok {| finalValue :=
                     calculateStockScenario 1000 0.5 [Some 0.5; None] 0 1;
                   yearlyValues := yv |}
           /\ js_get yv 0 = Some (Num 0)
           /\ length yv = Nat.max (Z.to_nat (1 + 1)) (S 2)).
Proof.
  assert (H1 : (-2 < -1)%Z) by lia.
  assert (H2 : (-1 <= 1 <= MAX_ARRAY_LENGTH - 1)%Z)
    by (unfold MAX_ARRAY_LENGTH; lia).
  split.
  - split; [exact H1|].
    exact (proj1 (path_variant_agrees 1000 0.5 [Some 0.5; None] 0 (-2)) H1).
  - split; [exact H2|].
    exact (proj2 (path_variant_agrees 1000 0.5 [Some 0.5; None] 0 1) H2).
Defined.

(** ** Undefined returns *)

Lemma stock_value_NaN (c : Q) (path : list (option Q)) (k : nat) :
  nth_error path k = Some None ->
  exists ti,
    for_range 0 (length path)
      (fun year '(stockValue, totalInvested) =>
         (jmul (jadd stockValue (Num c))
            (jadd (Num 1) (ToNumber (js_get path year))),
          totalInvested + c))
      (Num 0, 0)
    = (NaN, ti).
Proof.
  intros Hk.
  assert (Hlt : (k < length path)%nat) by (apply nth_error_Some; congruence).
  pose proof (for_range_inv
                (fun i (t : jsnum * Q) => (k < i)%nat -> fst t = NaN)
                (fun year '(stockValue, totalInvested) =>
                   (jmul (jadd stockValue (Num c))
                      (jadd (Num 1) (ToNumber (js_get path year))),
                    totalInvested + c))
                (length path) 0 (Num 0, 0)) as H.
  destruct (for_range 0 (length path) _ (Num 0, 0)) as [sv ti].
  exists ti. f_equal. apply H; [lia | | lia].
  intros i [sv' ti'] Hi Hinv Hki. cbn [fst] in *.
  destruct (Nat.eq_dec i k) as [-> | Hne].
  - unfold js_get. rewrite Hk. apply jmul_NaN_r.
  - rewrite Hinv by lia. reflexivity.
Qed.

Lemma calculateStockScenario_NaN
    (m a : Q) (path : list (option Q)) (rate : Q) (years : Z) :
  In None path ->
  calculateStockScenario m a path rate years = NaN.
Proof.
  intros Hin. apply In_nth_error in Hin as [k Hk].
  unfold calculateStockScenario.
  destruct (stock_value_NaN (m * a * 12) path k Hk) as (ti & ->).
  reflexivity.
Qed.

(** The value at an allocation fraction of 0, on a path of numbers. *)
Lemma calculateStockScenario_zero_allocation
    (m a : Q) (rs : list Q) (rate : Q) (years : Z) :
  a == 0 ->
  exists v,
    calculateStockScenario m a (map Some rs) rate years = Num v
    /\ v == calculateMortgageScenario m years rate.
Proof.
  intros Ha. rewrite calculateStockScenario_closed.
  eexists. split; [reflexivity|].
  assert (Hc : m * a * 12 == 0) by (rewrite Ha; ring).
  unfold after_tax, calculateMortgageScenario.
  rewrite (grow_zero _ rs Hc), invested_closed, Hc.
  rewrite (calculateMortgageSavingsValue_payment (m * (1 - a)) m)
    by (rewrite Ha; ring).
  destruct (TaxMoreFacts.Qmax_0_cases
              (0 - 0 * HistogramBinner.nat_Q (length rs)))
    as [[H E] | [H E]]; rewrite E; ring.
Qed.

(** X7: a return path with an undefined entry makes the stock scenario's
    value [NaN], whatever the other arguments; no exception is thrown. *)
Theorem undefined_return_gives_NaN
    (m a : Q) (path : list (option Q)) (rate : Q) (years : Z) :
  In None path ->
  calculateStockScenario m a path rate years = NaN.
Proof. apply calculateStockScenario_NaN. Qed.

Lemma undefined_return_gives_NaN_witness :
  In None [Some 0.5; None; Some 0.25]
  /\ calculateStockScenario 1000 0.5 [Some 0.5; None; Some 0.25] 0.045 3
     = NaN.
Proof.
  assert (H : In None [Some 0.5; None; Some 0.25]) by (right; left; reflexivity).
  split; [exact H|].
  exact (undefined_return_gives_NaN 1000 0.5 [Some 0.5; None; Some 0.25]
           0.045 3 H).
Defined.

(** ** Sign of the outcome *)

Lemma grow_nonneg (c : Q) (rs : list Q) :
  0 <= c -> (forall r, In r rs -> -1 <= r) -> 0 <= grow c rs.
Proof.
  intros Hc. induction rs as [|r rs IH] using rev_ind; intros Hr.
  - apply Qle_refl.
  - rewrite grow_snoc.
    assert (H1 : 0 <= grow c rs)
      by (apply IH; intros x Hx; apply Hr, in_or_app; now left).
    assert (H2 : -1 <= r) by (apply Hr, in_or_app; right; now left).
    apply Qmult_le_0_compat; lra.
Qed.

Lemma invested_nonneg (c : Q) (n : nat) : 0 <= c -> 0 <= invested c n.
Proof.
  intros Hc. induction n as [|n IH]; [apply Qle_refl|].
  cbn [invested]. lra.
Qed.

Lemma after_tax_nonneg (v b : Q) : 0 <= v -> 0 <= b -> 0 <= after_tax v b.
Proof.
  intros Hv Hb. unfold after_tax.
  destruct (TaxMoreFacts.Qmax_0_cases (v - b)) as [[H E] | [H E]];
    rewrite E; lra.
Qed.

(** X8: with a surplus between 0 and 10^9, an allocation fraction in
    [0,1], at most 100 yearly returns between -100% and +1000%, a mortgage
    rate between 0 and 100% and a horizon between 0 and 100 years, the
    stock scenario's value is a number and is not negative.  (The upper
    bounds, far beyond what the input panel and the historical data
    supply, keep the binary64 computation away from overflow, where the
    code returns [NaN].) *)
Theorem stock_outcome_not_negative
    (m a : Q) (rs : list Q) (rate : Q) (years : Z) :
  0 <= m <= 1000000000 -> 0 <= a <= 1 ->
  (forall r, In r rs -> -1 <= r <= 10) -> (length rs <= 100)%nat ->
  0 <= rate <= 1 -> (0 <= years <= 100)%Z ->
  exists v,
    calculateStockScenario m a (map Some rs) rate years = Num v /\ 0 <= v.
Proof.
  intros [Hm _] Ha Hrs _ [Hrate _] [Hy _].
  assert (Hr : forall r, In r rs -> -1 <= r)
    by (intros r Hin; now destruct (Hrs r Hin)).
  rewrite calculateStockScenario_closed. eexists. split; [reflexivity|].
  assert (Hc : 0 <= m * a * 12).
  { apply Qmult_le_0_compat; [| discriminate].
    apply Qmult_le_0_compat; lra. }
  assert (Hp : 0 <= m * (1 - a)) by (apply Qmult_le_0_compat; lra).
  pose proof (after_tax_nonneg _ _ (grow_nonneg _ rs Hc Hr)
                (invested_nonneg _ (length rs) Hc)) as H1.
  assert (H2 : 0 <= calculateMortgageSavingsValue (m * (1 - a)) years rate).
  { rewrite MortgageFacts.savings_as_sum by exact Hy.
    apply Qmult_le_0_compat; [exact Hp|].
    assert (Hx : 1 <= 1 + rate / 12).
    { assert (0 <= rate / 12) by (apply Qle_shift_div_l; [reflexivity | lra]).
      lra. }
    pose proof (MortgageFacts.annuity_sum_ge _ (Z.to_nat (years * 12)) Hx).
    pose proof (SortFacts.nat_Q_nonneg (Z.to_nat (years * 12))).
    lra. }
  lra.
Qed.

Lemma stock_outcome_not_negative_witness :
  let rs : list Q := [0.5; -0.25] in
  0 <= 1000 <= 1000000000 /\ 0 <= 0.5 <= 1
  /\ (forall r, In r rs -> -1 <= r <= 10)
  /\ (length rs <= 100)%nat
  /\ 0 <= 0.045 <= 1 /\ (0 <= 2 <= 100)%Z
  /\ exists v,
       calculateStockScenario 1000 0.5 (map Some rs) 0.045 2
       = Num v /\ 0 <= v.
Proof.
  intros rs.
  assert (Hm : 0 <= 1000 <= 1000000000) by (split; discriminate).
  assert (Ha : 0 <= 0.5 <= 1) by (split; discriminate).
  assert (Hr : forall r, In r rs -> -1 <= r <= 10).
  { intros r [<- | [<- | []]]; split; discriminate. }
  assert (Hl : (length rs <= 100)%nat) by (simpl; lia).
  assert (Hrate : 0 <= 0.045 <= 1) by (split; discriminate).
  assert (Hy : (0 <= 2 <= 100)%Z) by lia.
  split; [exact Hm|]. split; [exact Ha|]. split; [exact Hr|].
  split; [exact Hl|]. split; [exact Hrate|]. split; [exact Hy|].
  exact (stock_outcome_not_negative 1000 0.5 rs 0.045 2
           Hm Ha Hr Hl Hrate Hy).
Defined.

(** X9: the engine taxes the stock value as [TaxCalculator] does: on a
    path of at most 100 returns between -100% and +1000%, for a surplus
    between 0 and 10^9, a mortgage rate between 0 and 100% and a horizon
    between 0 and 100 years, the stock scenario's value is, in exact
    arithmetic, [TaxCalculator.calculateAfterTaxValue] of the accumulated
    stock value and the contributions, plus the mortgage savings of the
    rest of the surplus.  With allocation fraction 1 that rest is 0, and
    the value is the same for every mortgage rate and horizon within
    these bounds.  (The bounds keep the binary64 computation away from
    overflow, where [0 * Infinity] makes the code return [NaN].) *)
Theorem engine_tax_is_the_calculators
    (m a : Q) (rs : list Q) (rate : Q) (years : Z) :
  0 <= m <= 1000000000 ->
  (forall r, In r rs -> -1 <= r <= 10) -> (length rs <= 100)%nat ->
  0 <= rate <= 1 -> (0 <= years <= 100)%Z ->
  let c := m * a * 12 in
  let taxed :=
    TaxCalculator.calculateAfterTaxValue (grow c rs) (invested c (length rs)) in
  calculateStockScenario m a (map Some rs) rate years
  = Num (taxed + calculateMortgageSavingsValue (m * (1 - a)) years rate)
  /\ (a == 1 ->
      forall rate' years',
      0 <= rate' <= 1 -> (0 <= years' <= 100)%Z ->
      exists v v',
        calculateStockScenario m a (map Some rs) rate years = Num v
        /\ calculateStockScenario m a (map Some rs) rate' years' = Num v'
        /\ v == taxed /\ v' == taxed).
Proof.
  intros _ _ _ _ _ c taxed. split.
  - rewrite calculateStockScenario_closed. reflexivity.
  - intros Ha rate' years' _ _. rewrite !calculateStockScenario_closed.
    eexists _, _. split; [reflexivity|]. split; [reflexivity|].
    assert (Hz : forall r y,
               calculateMortgageSavingsValue (m * (1 - a)) y r == 0).
    { intros r y. apply calculateMortgageSavingsValue_zero_payment.
      rewrite Ha. ring. }
    fold c. change (after_tax (grow c rs) (invested c (length rs))) with taxed.
    rewrite !Hz. split; ring.
Qed.

Lemma engine_tax_is_the_calculators_witness :
  let c := 1000 * 1 * 12 in
  let rs : list Q := [0.5; -0.25] in
  let taxed :=
    TaxCalculator.calculateAfterTaxValue (grow c rs) (invested c (length rs)) in
  0 <= 1000 <= 1000000000
  /\ (forall r, In r rs -> -1 <= r <= 10) /\ (length rs <= 100)%nat
  /\ 0 <= 0.045 <= 1 /\ (0 <= 2 <= 100)%Z
  /\ 1 == 1 /\ 0 <= 0.02 <= 1 /\ (0 <= 7 <= 100)%Z
  /\ exists v v',
       calculateStockScenario 1000 1 (map Some rs) 0.045 2 = Num v
       /\ calculateStockScenario 1000 1 (map Some rs) 0.02 7 = Num v'
       /\ v == taxed /\ v' == taxed.
Proof.
  intros c rs taxed.
  assert (Hm : 0 <= 1000 <= 1000000000) by (split; discriminate).
  assert (Hr : forall r, In r rs -> -1 <= r <= 10).
  { intros r [<- | [<- | []]]; split; discriminate. }
  assert (Hl : (length rs <= 100)%nat) by (simpl; lia).
  assert (Hrate : 0 <= 0.045 <= 1) by (split; discriminate).
  assert (Hy : (0 <= 2 <= 100)%Z) by lia.
  assert (H : 1 == 1) by reflexivity.
  assert (Hrate' : 0 <= 0.02 <= 1) by (split; discriminate).
  assert (Hy' : (0 <= 7 <= 100)%Z) by lia.
  split; [exact Hm|]. split; [exact Hr|]. split; [exact Hl|].
  split; [exact Hrate|]. split; [exact Hy|]. split; [exact H|].
  split; [exact Hrate'|]. split; [exact Hy'|].
  exact (proj2 (engine_tax_is_the_calculators 1000 1 rs 0.045 2
                  Hm Hr Hl Hrate Hy)
           H 0.02 7%Z Hrate' Hy').
Defined.

(** The same, as a helper: the record the path variant returns. *)
Lemma calculateStockScenarioWithPath_final
    (m a : Q) (path : list (option Q)) (rate : Q) (years : Z) :
  (-1 <= years <= MAX_ARRAY_LENGTH - 1)%Z ->
  exists yv,
    calculateStockScenarioWithPath m a path rate years
    = Ok {| finalValue := calculateStockScenario m a path rate years;
            yearlyValues := yv |}
    /\ length yv = Nat.max (Z.to_nat (years + 1)) (S (length path)).
Proof.
  intros Hy. unfold calculateStockScenarioWithPath, calculateStockScenario.
  rewrite EngineFacts.new_Array_ok by lia. rewrite rbind_Ok.
  set (c := m * a * 12).
  pose proof (loops_agree c path (length path) 0 (Num 0) 0
                (js_set (repeat None (Z.to_nat (years + 1))) 0
                   (Some (Num 0)))) as Hagree.
  pose proof (yearly_values_shape c path (Z.to_nat (years + 1))
                (length path) _ eq_refl) as [H0 Hlen].
  fold c in Hagree, H0, Hlen |- *.
  destruct (for_range 0 (length path) _ (Num 0, 0, _)) as [[sv ti] yv].
  cbn [fst snd] in *. rewrite <- Hagree.
  exists yv. now split.
Qed.

End StockFacts.

(* ================================================================== *)
(** * More on the simulation engine *)
(* ================================================================== *)

Module EngineMoreFacts.

Import MonteCarloEngine Spec SpecMore JsFacts ValuatorFacts EngineFacts.
Import SortFacts StockFacts.

(** A draw in [0, 1) selects an entry of a non-empty data set. *)
Lemma draw_selects (this : Engine) (r : Q) :
  returns this <> [] -> 0 <= r -> r < 1 ->
  exists v,
    num_at (returns this)
      (Qfloor (r * HistogramBinner.nat_Q (length (returns this)))) = Some v
    /\ In v (returns this).
Proof.
  intros Hne H0 H1.
  assert (Hn : (0 < length (returns this))%nat)
    by (destruct (returns this); [contradiction | simpl; lia]).
  pose proof (floor_index_range (length (returns this)) r Hn H0 H1) as Hi.
  rewrite Qmult_comm in Hi.
  destruct (num_at_defined _ _ Hi) as (v & Hv & Hnth).
  exists v. split; [exact Hv|]. eapply nth_error_In, Hnth.
Qed.

Lemma trial_path_samples (this : Engine) (g : Rng) (years i : nat) :
  returns this <> [] ->
  (forall k, 0 <= draws g k /\ draws g k < 1) ->
  exists rs,
    trial_path this g years i = map Some rs
    /\ length rs = years
    /\ forall r, In r rs -> In r (returns this).
Proof.
  intros Hne Hd. unfold trial_path.
  assert (H : forall ks : list nat,
            exists rs,
              map (fun k =>
                     num_at (returns this)
                       (Qfloor (draws g (next g + i * years + k)%nat
                                * HistogramBinner.nat_Q
                                    (length (returns this))))) ks
              = map Some rs
              /\ length rs = length ks
              /\ forall r, In r rs -> In r (returns this)).
  { induction ks as [|k ks IH].
    - exists []. split; [reflexivity|]. split; [reflexivity|]. intros r [].
    - destruct IH as (rs & Hrs & Hlen & Hin).
      destruct (draw_selects this (draws g (next g + i * years + k)) Hne)
        as (v & Hv & Hvin); [apply Hd | apply Hd |].
      exists (v :: rs). cbn [map length]. rewrite Hv, Hrs, Hlen.
      split; [reflexivity|]. split; [reflexivity|].
      intros r [<- | Hr]; [exact Hvin | now apply Hin]. }
  destruct (H (seq 0 years)) as (rs & Hrs & Hlen & Hin).
  exists rs. rewrite length_seq in Hlen. now repeat split.
Qed.

(** X10: with a data set that is not empty and draws of the random source
    in [0, 1), [generateReturnPath] returns [years] returns, each one an
    entry of the data set, and uses [years] draws; on a negative [years]
    it throws a [RangeError]. *)
Theorem return_path_is_a_bootstrap_sample
    (this : Engine) (years : Z) (g : Rng) :
  ((years < 0)%Z ->
   generateReturnPath this years g
   = Throw (RangeError "Invalid array length"))
  /\ (returns this <> [] ->
      (forall k, 0 <= draws g k /\ draws g k < 1) ->
      (0 <= years <= MAX_ARRAY_LENGTH)%Z ->
      exists rs,
        generateReturnPath this years g
        = Ok (map Some rs, advance g (Z.to_nat years))
        /\ length rs = Z.to_nat years
        /\ forall r, In r rs -> In r (returns this)).
Proof.
  split.
  - apply generateReturnPath_negative.
  - intros Hne Hd Hy. rewrite (generateReturnPath_ok _ _ _ Hy).
    destruct (trial_path_samples this g (Z.to_nat years) 0 Hne Hd)
      as (rs & Hrs & Hlen & Hin).
    exists rs. rewrite Hrs. now repeat split.
Qed.

Lemma return_path_is_a_bootstrap_sample_witness :
  ((-1 < 0)%Z
   /\ generateReturnPath example_engine (-1) example_rng
      = Throw (RangeError "Invalid array length"))
  /\ (returns example_engine <> []
      /\ (forall k, 0 <= draws example_rng k /\ draws example_rng k < 1)
      /\ (0 <= 3 <= MAX_ARRAY_LENGTH)%Z
      /\ exists rs,
           generateReturnPath example_engine 3 example_rng
           = Ok (map Some rs, advance example_rng (Z.to_nat 3))
           /\ length rs = Z.to_nat 3
           /\ forall r, In r rs -> In r (returns example_engine)).
Proof.
  assert (H1 : (-1 < 0)%Z) by lia.
  assert (Hne : returns example_engine <> []) by discriminate.
  assert (Hd : forall k, 0 <= draws example_rng k /\ draws example_rng k < 1).
  { intros k. split; [discriminate | reflexivity]. }
  assert (Hy : (0 <= 3 <= MAX_ARRAY_LENGTH)%Z)
    by (unfold MAX_ARRAY_LENGTH; lia).
  split.
  - split; [exact H1|].
    exact (proj1 (return_path_is_a_bootstrap_sample example_engine (-1)
                    example_rng) H1).
  - split; [exact Hne|]. split; [exact Hd|]. split; [exact Hy|].
    exact (proj2 (return_path_is_a_bootstrap_sample example_engine 3
                    example_rng) Hne Hd Hy).
Defined.

(** ** An empty data set *)

Lemma trial_path_undefined (this : Engine) (g : Rng) (years i : nat) :
  returns this = [] -> (0 < years)%nat ->
  In None (trial_path this g years i).
Proof.
  intros He Hy. unfold trial_path. rewrite He.
  destruct years as [|years]; [lia|].
  cbn [seq map]. left. unfold num_at.
  destruct (_ <? 0)%Z; [reflexivity|].
  now destruct (Z.to_nat _).
Qed.

(** X11: with an empty data set and a horizon of at least one year the
    run does not fail: every stock outcome is [NaN], next to the mortgage
    outcomes, which are numbers. *)
Theorem empty_data_set_gives_NaN
    (this : Engine) (params : SimulationParams) (g : Rng) :
  let N := numSimulations_or_default params in
  let H := timeHorizon params in
  returns this = [] ->
  (0 <= N <= MAX_ARRAY_LENGTH)%Z ->
  (0 < H <= MAX_ARRAY_LENGTH)%Z ->
  exists results g',
    runSimulation this params g = Ok (results, g')
    /\ length (stock results) = Z.to_nat N
    /\ forall i, (i < Z.to_nat N)%nat ->
         nth_error (stock results) i = Some (Some NaN)
         /\ nth_error (mortgage results) i
            = Some (Some (calculateMortgageScenario
                            (monthlyInvestment params) H
                            (mortgageRate params))).
Proof.
  intros N H He HN HH.
  rewrite runSimulation_ok by (fold N H; lia).
  eexists _, _. split; [reflexivity|]. cbn [stock mortgage].
  split; [now rewrite length_map, length_seq|].
  intros i Hi. apply Nat.ltb_lt in Hi. unfold N in Hi.
  rewrite !nth_error_map, !nth_error_seq, Hi. cbn [option_map Nat.add].
  split; [| reflexivity].
  rewrite calculateStockScenario_NaN; [reflexivity|].
  apply trial_path_undefined; [exact He | fold H; lia].
Qed.

Lemma empty_data_set_gives_NaN_witness :
  returns empty_engine = []
  /\ (0 <= 2 <= MAX_ARRAY_LENGTH)%Z
  /\ (0 < 2 <= MAX_ARRAY_LENGTH)%Z
  /\ exists results g',
       runSimulation empty_engine half_allocated example_rng
       = Ok (results, g')
       /\ length (stock results) = Z.to_nat 2
       /\ forall i, (i < Z.to_nat 2)%nat ->
            nth_error (stock results) i = Some (Some NaN)
            /\ nth_error (mortgage results) i
               = Some (Some (calculateMortgageScenario 1000 2 0)).
Proof.
  assert (He : returns empty_engine = []) by reflexivity.
  assert (HN : (0 <= 2 <= MAX_ARRAY_LENGTH)%Z)
    by (unfold MAX_ARRAY_LENGTH; lia).
  assert (HH : (0 < 2 <= MAX_ARRAY_LENGTH)%Z)
    by (unfold MAX_ARRAY_LENGTH; lia).
  split; [exact He|]. split; [exact HN|]. split; [exact HH|].
  exact (empty_data_set_gives_NaN empty_engine half_allocated example_rng
           He HN HH).
Defined.

(** X12: in a run with nothing allocated to stocks (and a data set that is
    not empty, draws in [0, 1)), the stock outcome of every trial is the
    mortgage outcome of that trial. *)
Theorem nothing_allocated_ties_every_trial
    (this : Engine) (params : SimulationParams) (g : Rng) :
  let N := numSimulations_or_default params in
  let H := timeHorizon params in
  stockAllocation params == 0 ->
  returns this <> [] ->
  (forall k, 0 <= draws g k /\ draws g k < 1) ->
  (0 <= N <= MAX_ARRAY_LENGTH)%Z ->
  (0 <= H <= MAX_ARRAY_LENGTH)%Z ->
  exists results g',
    runSimulation this params g = Ok (results, g')
    /\ forall i, (i < Z.to_nat N)%nat ->
         exists s mo,
           nth_error (stock results) i = Some (Some (Num s))
           /\ nth_error (mortgage results) i = Some (Some mo)
           /\ s == mo.
Proof.
  intros N H Ha Hne Hd HN HH.
  rewrite runSimulation_ok by (fold N H; lia).
  eexists _, _. split; [reflexivity|]. cbn [stock mortgage].
  intros i Hi. apply Nat.ltb_lt in Hi. unfold N in Hi.
  rewrite !nth_error_map, !nth_error_seq, Hi. cbn [option_map Nat.add].
  destruct (trial_path_samples this g (Z.to_nat (timeHorizon params)) i Hne Hd)
    as (rs & -> & _ & _).
  destruct (calculateStockScenario_zero_allocation
              (monthlyInvestment params) (stockAllocation params / 100) rs
              (mortgageRate params) (timeHorizon params))
    as (v & Hv & Hvm); [rewrite Ha; reflexivity|].
  rewrite Hv. eexists _, _. split; [reflexivity|]. split; [reflexivity|].
  exact Hvm.
Qed.

Lemma nothing_allocated_ties_every_trial_witness :
  stockAllocation nothing_allocated == 0
  /\ returns example_engine <> []
  /\ (forall k, 0 <= draws example_rng k /\ draws example_rng k < 1)
  /\ (0 <= 3 <= MAX_ARRAY_LENGTH)%Z
  /\ (0 <= 2 <= MAX_ARRAY_LENGTH)%Z
  /\ exists results g',
       runSimulation example_engine nothing_allocated example_rng
       = Ok (results, g')
       /\ forall i, (i < Z.to_nat 3)%nat ->
            exists s mo,
              nth_error (stock results) i = Some (Some (Num s))
              /\ nth_error (mortgage results) i = Some (Some mo)
              /\ s == mo.
Proof.
  assert (Ha : stockAllocation nothing_allocated == 0) by reflexivity.
  assert (Hne : returns example_engine <> []) by discriminate.
  assert (Hd : forall k, 0 <= draws example_rng k /\ draws example_rng k < 1).
  { intros k. split; [discriminate | reflexivity]. }
  assert (HN : (0 <= 3 <= MAX_ARRAY_LENGTH)%Z)
    by (unfold MAX_ARRAY_LENGTH; lia).
  assert (HH : (0 <= 2 <= MAX_ARRAY_LENGTH)%Z)
    by (unfold MAX_ARRAY_LENGTH; lia).
  split; [exact Ha|]. split; [exact Hne|]. split; [exact Hd|].
  split; [exact HN|]. split; [exact HH|].
  exact (nothing_allocated_ties_every_trial example_engine nothing_allocated
           example_rng Ha Hne Hd HN HH).
Defined.

(** ** The time-series variant *)

Lemma yearly_of_final (m a : Q) (path : list (option Q)) (rate : Q) (years : Z) :
  (-1 <= years <= MAX_ARRAY_LENGTH - 1)%Z ->
  calculateStockScenarioWithPath m a path rate years
  = Ok {| finalValue := calculateStockScenario m a path rate years;
          yearlyValues := yearly_of m a path rate years |}
  /\ length (yearly_of m a path rate years)
     = Nat.max (Z.to_nat (years + 1)) (S (length path)).
Proof.
  intros Hy.
  destruct (calculateStockScenarioWithPath_final m a path rate years Hy)
    as (yv & Hsc & Hlen).
  unfold yearly_of. rewrite Hsc. now split.
Qed.

Lemma trial_path_length (this : Engine) (g : Rng) (years i : nat) :
  length (trial_path this g years i) = years.
Proof. unfold trial_path. now rewrite length_map, length_seq. Qed.

Lemma runSimulationWithTimeSeries_closed
    (this : Engine) (params : SimulationParams) (g : Rng) :
  let N := numSimulations_or_default params in
  let H := timeHorizon params in
  (0 <= N <= MAX_ARRAY_LENGTH)%Z ->
  (0 <= H <= MAX_ARRAY_LENGTH - 1)%Z ->
  exists path,
    calculateMortgagePath (monthlyInvestment params) H (mortgageRate params)
    = Ok path
    /\ runSimulationWithTimeSeries this params g
       = Ok ({| ts_stock :=
                  map (fun i =>
                         Some (calculateStockScenario
                                 (monthlyInvestment params)
                                 (stockAllocation params / 100)
                                 (trial_path this g (Z.to_nat H) i)
                                 (mortgageRate params) H))
                      (seq 0 (Z.to_nat N));
                ts_mortgage :=
                  map (fun _ =>
                         Some (calculateMortgageScenario
                                 (monthlyInvestment params) H
                                 (mortgageRate params)))
                      (seq 0 (Z.to_nat N));
                timeSeries :=
                  {| stockPaths :=
                       map (fun i =>
                              Some (yearly_of (monthlyInvestment params)
                                      (stockAllocation params / 100)
                                      (trial_path this g (Z.to_nat H) i)
                                      (mortgageRate params) H))
                           (seq 0 (Z.to_nat N));
                     mortgagePath := path |} |},
             advance g (Z.to_nat N * Z.to_nat H)).
Proof.
  intros N H HN HH.
  destruct (calculateMortgagePath_total (monthlyInvestment params) H
              (mortgageRate params)) as (path & Hpath); [lia|].
  exists path. split; [exact Hpath|].
  unfold runSimulationWithTimeSeries. fold N H.
  unfold mbind at 1. unfold lift at 1. rewrite (new_Array_ok _ HN).
  unfold mbind at 1. unfold lift at 1. rewrite (new_Array_ok _ HN).
  unfold mbind at 1. unfold lift at 1. rewrite (new_Array_ok _ HN).
  unfold mbind at 1.
  set (n := Z.to_nat N). set (h := Z.to_nat H).
  set (body := fun (i : nat) '(stockResults, mortgageResults, stockPaths) => _).
  set (fs := fun i : nat =>
               Some (calculateStockScenario (monthlyInvestment params)
                       (stockAllocation params / 100)
                       (trial_path this g h i) (mortgageRate params) H)).
  set (fm := fun _ : nat =>
               Some (calculateMortgageScenario (monthlyInvestment params) H
                       (mortgageRate params))).
  set (fp := fun i : nat =>
               Some (yearly_of (monthlyInvestment params)
                       (stockAllocation params / 100)
                       (trial_path this g h i) (mortgageRate params) H)).
  destruct (for_range_m_inv
              (fun i '(sr, mr, sp) g' =>
                 sr = map fs (seq 0 i) ++ repeat None (n - i)
                 /\ mr = map fm (seq 0 i) ++ repeat None (n - i)
                 /\ sp = map fp (seq 0 i) ++ repeat None (n - i)
                 /\ g' = advance g (i * h))
              body n 0 (repeat None n, repeat None n, repeat None n) g)
    as ([[sr mr] sp] & g' & Hrun & Hs & Hm & Hp & Hg).
  - rewrite Nat.sub_0_r. repeat split. now rewrite advance_0.
  - intros i [[sr mr] sp] g' Hi (-> & -> & -> & ->).
    unfold body, mbind.
    rewrite generateReturnPath_ok by lia. fold h.
    rewrite <- trial_path_at.
    destruct (yearly_of_final (monthlyInvestment params)
                (stockAllocation params / 100) (trial_path this g h i)
                (mortgageRate params) H) as [Hsc _]; [lia|].
    unfold lift. rewrite Hsc. unfold mret.
    eexists (_, _, _), _. split; [reflexivity|].
    cbn [finalValue yearlyValues].
    rewrite !js_set_at_end by now rewrite length_map, length_seq.
    rewrite !seq_S, !map_app, <- !app_assoc. cbn [map app Nat.add].
    replace (n - i - 1)%nat with (n - S i)%nat by lia.
    rewrite advance_advance.
    repeat split. f_equal. lia.
  - rewrite Hrun, Hs, Hm, Hp, Hg.
    unfold mbind, lift. rewrite Hpath. unfold mret.
    cbn [Nat.add]. rewrite Nat.sub_diag, !app_nil_r. reflexivity.
Qed.

(** X13: for a trial count and a horizon that both variants accept,
    [runSimulationWithTimeSeries] returns the stock and mortgage outcomes
    [runSimulation] returns from the same random source, and leaves the
    source in the same state.  Its [mortgagePath] is what
    [calculateMortgagePath] returns, and [stockPaths[i]] holds the
    [horizon + 1] yearly values of trial [i], recorded on the path that
    gave the trial's stock outcome. *)
Theorem time_series_variant_agrees
    (this : Engine) (params : SimulationParams) (g : Rng) :
  let N := numSimulations_or_default params in
  let H := timeHorizon params in
  (0 <= N <= MAX_ARRAY_LENGTH)%Z ->
  (0 <= H <= MAX_ARRAY_LENGTH - 1)%Z ->
  exists plain series g',
    runSimulation this params g = Ok (plain, g')
    /\ runSimulationWithTimeSeries this params g = Ok (series, g')
    /\ ts_stock series = stock plain
    /\ ts_mortgage series = mortgage plain
    /\ calculateMortgagePath (monthlyInvestment params) H
         (mortgageRate params)
       = Ok (mortgagePath (timeSeries series))
    /\ length (stockPaths (timeSeries series)) = Z.to_nat N
    /\ forall i, (i < Z.to_nat N)%nat ->
         exists outcome yv,
           nth_error (stock plain) i = Some (Some outcome)
           /\ nth_error (stockPaths (timeSeries series)) i = Some (Some yv)
           /\ calculateStockScenarioWithPath (monthlyInvestment params)
                (stockAllocation params / 100)
                (trial_path this g (Z.to_nat H) i) (mortgageRate params) H
              = Ok {| finalValue := outcome; yearlyValues := yv |}
           /\ length yv = (Z.to_nat H + 1)%nat.
Proof.
  intros N H HN HH.
  destruct (runSimulationWithTimeSeries_closed this params g HN HH)
    as (path & Hpath & Hseries).
  eexists _, _, _. split; [apply runSimulation_ok; fold N H; lia|].
  split; [exact Hseries|].
  cbn [ts_stock ts_mortgage timeSeries stockPaths mortgagePath stock mortgage].
  split; [reflexivity|]. split; [reflexivity|]. split; [exact Hpath|].
  split; [now rewrite length_map, length_seq|].
  intros i Hi. apply Nat.ltb_lt in Hi. unfold N in Hi.
  rewrite !nth_error_map, !nth_error_seq, Hi. cbn [option_map Nat.add].
  destruct (yearly_of_final (monthlyInvestment params)
              (stockAllocation params / 100)
              (trial_path this g (Z.to_nat (timeHorizon params)) i)
              (mortgageRate params) (timeHorizon params)) as [Hsc Hlen];
    [fold H; lia|].
  eexists _, _. split; [reflexivity|]. split; [reflexivity|].
  split; [exact Hsc|].
  rewrite Hlen, trial_path_length. fold H. lia.
Qed.

Lemma time_series_variant_agrees_witness :
  (0 <= 2 <= MAX_ARRAY_LENGTH)%Z
  /\ (0 <= 2 <= MAX_ARRAY_LENGTH - 1)%Z
  /\ exists plain series g',
       runSimulation example_engine half_allocated example_rng
       = Ok (plain, g')
       /\ runSimulationWithTimeSeries example_engine half_allocated
            example_rng = Ok (series, g')
       /\ ts_stock series = stock plain
       /\ ts_mortgage series = mortgage plain
       /\ calculateMortgagePath 1000 2 0
          = Ok (mortgagePath (timeSeries series))
       /\ length (stockPaths (timeSeries series)) = Z.to_nat 2
       /\ forall i, (i < Z.to_nat 2)%nat ->
            exists outcome yv,
              nth_error (stock plain) i = Some (Some outcome)
              /\ nth_error (stockPaths (timeSeries series)) i
                 = Some (Some yv)
              /\ calculateStockScenarioWithPath 1000 (50 / 100)
                   (trial_path example_engine example_rng (Z.to_nat 2) i)
                   0 2
                 = Ok {| finalValue := outcome; yearlyValues := yv |}
              /\ length yv = (Z.to_nat 2 + 1)%nat.
Proof.
  assert (HN : (0 <= 2 <= MAX_ARRAY_LENGTH)%Z)
    by (unfold MAX_ARRAY_LENGTH; lia).
  assert (HH : (0 <= 2 <= MAX_ARRAY_LENGTH - 1)%Z)
    by (unfold MAX_ARRAY_LENGTH; lia).
  split; [exact HN|]. split; [exact HH|].
  exact (time_series_variant_agrees example_engine half_allocated example_rng
           HN HH).
Defined.

End EngineMoreFacts.

(* ================================================================== *)
(** * More on the histogram binner *)
(* ================================================================== *)

Module BinnerMoreFacts.

Import HistogramBinner Spec SpecMore JsFacts SortFacts BinnerFacts.

(** The ends of the sorted copy, compared. *)
Lemma ends_equal_iff (data : list Q) :
  data <> [] ->
  (hd 0 (sort_numeric data) == last (sort_numeric data) 0
   <-> forall x y, In x data -> In y data -> x == y).
Proof.
  intros Hd.
  pose proof (sorted_hd_min data 0 Hd) as [(lo & Hlo & Elo) Hmin].
  pose proof (sorted_last_max data 0 Hd) as [(hi & Hhi & Ehi) Hmax].
  split.
  - intros E x y Hx Hy.
    pose proof (Hmin x Hx). pose proof (Hmax x Hx).
    pose proof (Hmin y Hy). pose proof (Hmax y Hy). lra.
  - intros Hall. rewrite <- Elo, <- Ehi. now apply Hall.
Qed.

Lemma js_getZ_nil {A : Type} (i : Z) : js_getZ (@nil (option A)) i = None.
Proof.
  unfold js_getZ, js_get. destruct (i <? 0)%Z; [reflexivity|].
  now destruct (Z.to_nat i).
Qed.

(** X14: [binData] on an empty collection returns no bin.  When all the
    values are equal it returns one bin from that value to itself holding
    every value (100%), whatever bin count is asked for.  When the values
    are not all equal, a negative bin count throws a [RangeError] and a bin
    count of 0 throws a [TypeError]. *)
Theorem binData_edge_cases
    (Math_pow : Q -> Q -> Q) (data : list Q) (numBins : option Z) :
  binData Math_pow [] numBins = Ok []
  /\ (data <> [] -> (forall x y, In x data -> In y data -> x == y) ->
      exists v,
        binData Math_pow data numBins
        = Ok [Some {| binStart := v; binEnd := last (sort_numeric data) 0;
                      count := length data; midpoint := v;
                      percentage := Some 100 |}]
        /\ is_min v data /\ is_max v data)
  /\ (forall k,
        (exists x y, In x data /\ In y data /\ ~ x == y) ->
        ((k < 0)%Z ->
         binData Math_pow data (Some k)
         = Throw (RangeError "Invalid array length"))
        /\ binData Math_pow data (Some 0%Z)
           = Throw (TypeError "Cannot read properties of undefined")).
Proof.
  split; [reflexivity|]. split.
  - intros Hd Hall. rewrite (binData_nonempty _ _ _ Hd). cbv zeta.
    pose proof (proj2 (ends_equal_iff data Hd) Hall) as E.
    pose proof E as Eb. apply Qeq_bool_iff in Eb. rewrite Eb.
    eexists. split; [reflexivity|].
    split; [now apply sorted_hd_min|].
    apply (is_max_eq (last (sort_numeric data) 0)); [now symmetry|].
    now apply sorted_last_max.
  - intros k (x & y & Hx & Hy & Hxy).
    assert (Hd : data <> []) by (intros ->; contradiction).
    assert (Eb : Qeq_bool (hd 0 (sort_numeric data))
                   (last (sort_numeric data) 0) = false).
    { destruct (Qeq_bool _ _) eqn:E; [|reflexivity].
      apply Qeq_bool_iff in E. exfalso. apply Hxy.
      now apply (proj1 (ends_equal_iff data Hd) E). }
    split.
    + intros Hk. rewrite (binData_nonempty _ _ _ Hd). cbv zeta.
      rewrite Eb. now rewrite EngineFacts.new_Array_negative.
    + rewrite (binData_nonempty _ _ _ Hd). cbv zeta. rewrite Eb.
      assert (Hs : sort_numeric data <> []).
      { intros E. pose proof (sort_numeric_length data) as Hl.
        rewrite E in Hl. destruct data; [contradiction | discriminate]. }
      rewrite EngineFacts.new_Array_ok by (unfold MAX_ARRAY_LENGTH; lia).
      rewrite rbind_Ok. cbn [Z.to_nat for_range repeat].
      destruct (sort_numeric data) as [|v s]; [contradiction|].
      cbn [for_of_r]. now rewrite js_getZ_nil.
Qed.

Lemma binData_edge_cases_witness :
  let same : list Q := [7; 7; 7] in
  let mixed : list Q := [1; 2; 3] in
  (same <> []
   /\ (forall x y, In x same -> In y same -> x == y)
   /\ exists v,
        binData (fun _ _ => 1) same (Some (-5)%Z)
        = Ok [Some {| binStart := v; binEnd := last (sort_numeric same) 0;
                      count := length same; midpoint := v;
                      percentage := Some 100 |}]
        /\ is_min v same /\ is_max v same)
  /\ ((exists x y, In x mixed /\ In y mixed /\ ~ x == y)
      /\ (-1 < 0)%Z
      /\ binData (fun _ _ => 1) mixed (Some (-1)%Z)
         = Throw (RangeError "Invalid array length")
      /\ binData (fun _ _ => 1) mixed (Some 0%Z)
         = Throw (TypeError "Cannot read properties of undefined")).
Proof.
  intros same mixed.
  assert (Hd : same <> []) by discriminate.
  assert (Hall : forall x y, In x same -> In y same -> x == y).
  { intros x y [<- | [<- | [<- | []]]] [<- | [<- | [<- | []]]]; reflexivity. }
  assert (Hmix : exists x y, In x mixed /\ In y mixed /\ ~ x == y).
  { exists 1, 2. split; [now left|]. split; [right; now left|]. discriminate. }
  assert (Hk : (-1 < 0)%Z) by lia.
  split.
  - split; [exact Hd|]. split; [exact Hall|].
    exact (proj1 (proj2 (binData_edge_cases (fun _ _ => 1) same
                           (Some (-5)%Z))) Hd Hall).
  - split; [exact Hmix|]. split; [exact Hk|].
    pose proof (proj2 (proj2 (binData_edge_cases (fun _ _ => 1) mixed None))
                  (-1)%Z Hmix) as [Hr Ht].
    split; [exact (Hr Hk) | exact Ht].
Defined.

(** X15: the automatic bin count is always between 20 and 60; it is 30 on
    an empty array and whenever the two quartiles read from the sorted
    array are equal (an interquartile range of 0). *)
Theorem optimal_bins_range_and_fallback
    (Math_pow : Q -> Q -> Q) (sortedData : list Q) :
  (20 <= calculateOptimalBins Math_pow sortedData <= 60)%Z
  /\ calculateOptimalBins Math_pow [] = 30%Z
  /\ (forall q1 q3,
        num_at sortedData
          (Qfloor (nat_Q (length sortedData) * 0.25)) = Some q1 ->
        num_at sortedData
          (Qfloor (nat_Q (length sortedData) * 0.75)) = Some q3 ->
        q1 == q3 ->
        calculateOptimalBins Math_pow sortedData = 30%Z).
Proof.
  split; [apply calculateOptimalBins_range|]. split; [reflexivity|].
  intros q1 q3 H1 H3 E. unfold calculateOptimalBins. rewrite H1, H3.
  destruct (num_at sortedData (Z.of_nat (length sortedData) - 1));
    [| reflexivity].
  destruct (num_at sortedData 0); [| reflexivity].
  assert (Hw : 2 * (q3 - q1)
               / Math_pow (nat_Q (length sortedData)) (1 / 3) <= 0).
  { setoid_replace (2 * (q3 - q1)) with 0 by (rewrite E; ring).
    unfold Qdiv. rewrite Qmult_0_l. apply Qle_refl. }
  apply Qle_bool_iff in Hw. rewrite Hw. reflexivity.
Qed.

Lemma optimal_bins_range_and_fallback_witness :
  let sortedData : list Q := [1; 5; 5; 5; 9] in
  num_at sortedData (Qfloor (nat_Q (length sortedData) * 0.25)) = Some 5
  /\ num_at sortedData (Qfloor (nat_Q (length sortedData) * 0.75)) = Some 5
  /\ 5 == 5
  /\ calculateOptimalBins (fun _ _ => 1.71) sortedData = 30%Z.
Proof.
  intros sortedData.
  assert (H1 : num_at sortedData
                 (Qfloor (nat_Q (length sortedData) * 0.25)) = Some 5)
    by reflexivity.
  assert (H3 : num_at sortedData
                 (Qfloor (nat_Q (length sortedData) * 0.75)) = Some 5)
    by reflexivity.
  assert (E : 5 == 5) by reflexivity.
  split; [exact H1|]. split; [exact H3|]. split; [exact E|].
  exact (proj2 (proj2 (optimal_bins_range_and_fallback (fun _ _ => 1.71)
                         sortedData)) 5 5 H1 H3 E).
Defined.

(** ** The bins in closed form *)

Lemma counting_pass_exact (lo w : Q) (k : Z) (vals : list Q) :
  (1 <= k)%Z -> 0 < w ->
  (forall v, In v vals -> lo <= v) ->
  forall cnt,
  exists cnt',
    for_of_r vals
      (fun value bins =>
         match
           js_getZ bins (Z.min (Qfloor ((value - lo) / w)) (k - 1))
         with
         | Some bin =>
             Ok (js_set bins
                   (Z.to_nat (Z.min (Qfloor ((value - lo) / w)) (k - 1)))
                   (Some (with_count bin (count bin + 1))))
         | None => Throw (TypeError "Cannot read properties of undefined")
         end)
      (counting_bins lo w (Z.to_nat k) cnt)
    = Ok (counting_bins lo w (Z.to_nat k) cnt')
    /\ sum_counts cnt' (Z.to_nat k)
       = (sum_counts cnt (Z.to_nat k) + length vals)%nat
    /\ forall i,
         cnt' i
         = (cnt i
            + length (filter
                        (fun v => (Z.to_nat (bin_index lo w k v) =? i)%nat)
                        vals))%nat.
Proof.
  intros Hk Hw. induction vals as [|v vals IH]; intros Hlo cnt.
  - exists cnt. split; [reflexivity|].
    split; [simpl; lia | intros i; simpl; lia].
  - cbn [for_of_r].
    fold (bin_index lo w k v).
    assert (Hidx : (0 <= bin_index lo w k v < Z.of_nat (Z.to_nat k))%Z).
    { assert (H0 : (0 <= Qfloor ((v - lo) / w))%Z).
      { change 0%Z with (Qfloor 0). apply Qfloor_resp_le.
        apply Qle_shift_div_l; [exact Hw|].
        assert (lo <= v) by (apply Hlo; now left). lra. }
      unfold bin_index. lia. }
    rewrite (js_getZ_counting_bins _ _ _ _ _ Hidx).
    set (j := Z.to_nat (bin_index lo w k v)).
    set (cnt1 := fun i => if (i =? j)%nat then (cnt i + 1)%nat else cnt i).
    assert (Hset : js_set (counting_bins lo w (Z.to_nat k) cnt) j
                     (Some (with_count (edge_bin lo w j (cnt j))
                              (count (edge_bin lo w j (cnt j)) + 1)))
                   = counting_bins lo w (Z.to_nat k) cnt1).
    { unfold counting_bins.
      rewrite <- (js_set_map_seq
                    (fun i => Some (edge_bin lo w i (cnt i)))
                    (fun i => Some (edge_bin lo w i (cnt1 i)))
                    (Z.to_nat k) j).
      - unfold cnt1. now rewrite Nat.eqb_refl.
      - unfold j. lia.
      - intros i Hi. unfold cnt1.
        now destruct (Nat.eqb_spec i j). }
    rewrite Hset, rbind_Ok.
    destruct (IH (fun x Hx => Hlo x (or_intror Hx)) cnt1)
      as (cnt' & Hrun & Hsum & Hcnt).
    exists cnt'. split; [exact Hrun|].
    split.
    { rewrite Hsum. unfold cnt1.
      rewrite sum_counts_bump by (unfold j; lia). cbn [length]. lia. }
    intros i. rewrite Hcnt. unfold cnt1. cbn [filter]. fold j.
    rewrite (Nat.eqb_sym j i).
    destruct (i =? j)%nat; cbn [length]; lia.
Qed.

(** What [binData] returns when the values are not all equal: bin [i] of
    the equal-width partition, counting the values whose index is [i]. *)
Lemma binData_bins
    (Math_pow : Q -> Q -> Q) (data : list Q) (numBins : option Z) :
  data <> [] ->
  (forall k, numBins = Some k -> (1 <= k <= MAX_ARRAY_LENGTH)%Z) ->
  Qeq_bool (hd 0 (sort_numeric data)) (last (sort_numeric data) 0) = false ->
  exists (k : Z) (cnt : nat -> nat),
    let lo := hd 0 (sort_numeric data) in
    let hi := last (sort_numeric data) 0 in
    let w := (hi - lo) / inject_Z k in
    (1 <= k <= MAX_ARRAY_LENGTH)%Z
    /\ 0 < w
    /\ binData Math_pow data numBins
       = Ok (map Some
               (map (fun i =>
                       with_percentage (edge_bin lo w i (cnt i))
                         (nat_Q (cnt i) / nat_Q (length data) * 100))
                  (seq 0 (Z.to_nat k))))
    /\ sum_counts cnt (Z.to_nat k) = length data
    /\ forall i,
         cnt i
         = length (filter
                     (fun v => (Z.to_nat (bin_index lo w k v) =? i)%nat)
                     (sort_numeric data)).
Proof.
  intros Hd Hgiven E. rewrite (binData_nonempty _ _ _ Hd). cbv zeta.
  set (sorted := sort_numeric data) in *.
  set (k := match numBins with
            | None => calculateOptimalBins Math_pow sorted
            | Some k => k
            end).
  assert (Hk : (1 <= k <= MAX_ARRAY_LENGTH)%Z).
  { unfold k. destruct numBins as [k'|]; [now apply Hgiven|].
    pose proof (calculateOptimalBins_range Math_pow sorted).
    unfold MAX_ARRAY_LENGTH. lia. }
  set (lo := hd 0 sorted) in *. set (hi := last sorted 0) in *.
  assert (Hmin : is_min lo data) by now apply sorted_hd_min.
  assert (Hmax : is_max hi data) by now apply sorted_last_max.
  assert (Hle : lo <= hi).
  { destruct Hmax as [(x & Hx & Hxm) _]. rewrite <- Hxm.
    now apply (proj2 Hmin). }
  rewrite E.
  assert (Hlt : lo < hi).
  { apply Qnot_le_lt. intros Hge.
    assert (Heq : lo == hi) by now apply Qle_antisym.
    apply Qeq_bool_iff in Heq. congruence. }
  assert (HkQ : 0 < inject_Z k) by (rewrite <- (Zlt_Qlt 0); lia).
  set (w := (hi - lo) / inject_Z k).
  assert (Hw : 0 < w).
  { unfold w. apply Qlt_shift_div_l; [exact HkQ | lra]. }
  rewrite EngineFacts.new_Array_ok by lia. rewrite rbind_Ok.
  rewrite (for_range_fill_all (fun i => Some (edge_bin lo w i 0))).
  fold (counting_bins lo w (Z.to_nat k) (fun _ => 0%nat)).
  destruct (counting_pass_exact lo w k sorted)
    with (cnt := fun _ : nat => 0%nat) as (cnt & Hrun & Hsum & Hcnt);
    [lia | exact Hw | |].
  { intros v Hv. apply (proj2 Hmin).
    eapply Permutation_in; [apply sort_numeric_perm | exact Hv]. }
  rewrite Hrun, rbind_Ok.
  exists k, cnt. cbv zeta. split; [exact Hk|]. split; [exact Hw|].
  split; [unfold counting_bins; now rewrite !map_map|].
  split.
  { rewrite Hsum.
    assert (Hz : forall n, sum_counts (fun _ : nat => 0%nat) n = 0%nat)
      by (induction n as [|n IHn]; cbn [sum_counts]; [reflexivity | lia]).
    rewrite Hz. cbn [Nat.add]. unfold sorted.
    apply Permutation_length, sort_numeric_perm. }
  intros i. now rewrite Hcnt.
Qed.

(** ** Percentages and midpoints *)

Lemma nat_Q_add (a b : nat) : nat_Q (a + b) == nat_Q a + nat_Q b.
Proof.
  unfold nat_Q. rewrite Nat2Z.inj_add, inject_Z_plus. reflexivity.
Qed.

Lemma total_percentage_map (g : nat -> Bin) (c : nat -> nat) (d : Q) (n : nat) :
  (forall i, percentage (g i) = Some (nat_Q (c i) / d * 100)) ->
  total_percentage (map g (seq 0 n)) == nat_Q (sum_counts c n) / d * 100.
Proof.
  intros Hg.
  assert (Happ : forall l x,
             total_percentage (l ++ [g x])
             == total_percentage l + nat_Q (c x) / d * 100).
  { induction l as [|b l IH]; intros x.
    - unfold total_percentage. cbn [app fold_right].
      rewrite Hg. cbv beta iota. lra.
    - unfold total_percentage. cbn [app fold_right].
      fold (total_percentage (l ++ [g x])). fold (total_percentage l).
      destruct (percentage b) as [p|]; rewrite IH; lra. }
  induction n as [|n IH].
  - cbn [seq map sum_counts]. change (nat_Q 0) with 0.
    unfold total_percentage. cbn [fold_right]. unfold Qdiv. ring.
  - rewrite seq_S, map_app. cbn [map Nat.add sum_counts].
    rewrite Happ, IH, nat_Q_add. unfold Qdiv. ring.
Qed.

(** X17: the percentage of each bin [binData] returns is its count's share
    of the number of values, the percentages add up to 100, and each
    midpoint lies halfway between the bin's start and end. *)
Theorem bins_percentages_and_midpoints
    (Math_pow : Q -> Q -> Q) (data : list Q) (numBins : option Z) :
  data <> [] ->
  (forall k, numBins = Some k -> (1 <= k <= MAX_ARRAY_LENGTH)%Z) ->
  exists bins,
    binData Math_pow data numBins = Ok (map Some bins)
    /\ (forall bin,
          In bin bins ->
          (exists p,
             percentage bin = Some p
             /\ p == nat_Q (count bin) / nat_Q (length data) * 100)
          /\ midpoint bin == (binStart bin + binEnd bin) / 2)
    /\ total_percentage bins == 100.
Proof.
  intros Hd Hgiven.
  assert (Hlen : 0 < nat_Q (length data)).
  { apply nat_Q_pos. destruct data; [contradiction | cbn; lia]. }
  destruct (Qeq_bool (hd 0 (sort_numeric data)) (last (sort_numeric data) 0))
    eqn:E.
  - rewrite (binData_nonempty _ _ _ Hd). cbv zeta. rewrite E.
    eexists [_]. split; [reflexivity|]. split.
    + intros bin [<- | []]. cbn [percentage count midpoint binStart binEnd].
      apply Qeq_bool_iff in E. split.
      * exists 100. split; [reflexivity | field; lra].
      * revert E.
        generalize (hd 0 (sort_numeric data)) (last (sort_numeric data) 0).
        intros a b E. rewrite <- E. field.
    + cbn. ring.
  - destruct (binData_bins Math_pow data numBins Hd Hgiven E)
      as (k & cnt & Hk & Hw & Hrun & Hsum & _).
    cbv zeta in Hk, Hw, Hrun, Hsum.
    eexists. split; [exact Hrun|]. split.
    + intros bin Hb. apply in_map_iff in Hb as (i & <- & _).
      cbn [with_percentage edge_bin percentage count midpoint binStart binEnd].
      split.
      * eexists. split; reflexivity.
      * generalize ((last (sort_numeric data) 0 - hd 0 (sort_numeric data))
                    / inject_Z k).
        intros w. field.
    + rewrite (total_percentage_map _ cnt (nat_Q (length data)))
        by reflexivity.
      rewrite Hsum. field. lra.
Qed.

Lemma bins_percentages_and_midpoints_witness :
  let data : list Q := [1; 2; 3; 4; 5; 2.5] in
  data <> []
  /\ (forall k, Some 3%Z = Some k -> (1 <= k <= MAX_ARRAY_LENGTH)%Z)
  /\ exists bins,
       binData (fun _ _ => 1.8171) data (Some 3%Z) = Ok (map Some bins)
       /\ (forall bin,
             In bin bins ->
             (exists p,
                percentage bin = Some p
                /\ p == nat_Q (count bin) / nat_Q (length data) * 100)
             /\ midpoint bin == (binStart bin + binEnd bin) / 2)
       /\ total_percentage bins == 100.
Proof.
  intros data.
  assert (Hd : data <> []) by discriminate.
  assert (Hk : forall k, Some 3%Z = Some k -> (1 <= k <= MAX_ARRAY_LENGTH)%Z).
  { intros k E. injection E as <-. unfold MAX_ARRAY_LENGTH. lia. }
  split; [exact Hd|]. split; [exact Hk|].
  exact (bins_percentages_and_midpoints
           (fun _ _ => 1.8171) data (Some 3%Z) Hd Hk).
Defined.

End BinnerMoreFacts.

(* ================================================================== *)
(** * More on the summary statistics *)
(* ================================================================== *)

Module StatisticsMoreFacts.

Import HistogramBinner Spec SpecMore JsFacts SortFacts.

Lemma fold_left_Qplus (l : list Q) (a : Q) :
  fold_left Qplus l a == a + Qsum l.
Proof.
  revert a. induction l as [|x l IH]; intros a; cbn [fold_left Qsum fold_right].
  - ring.
  - rewrite IH. fold (Qsum l). ring.
Qed.

Lemma Qsum_bounds (l : list Q) (lo hi : Q) :
  (forall x, In x l -> lo <= x /\ x <= hi) ->
  nat_Q (length l) * lo <= Qsum l /\ Qsum l <= nat_Q (length l) * hi.
Proof.
  induction l as [|x l IH]; intros H.
  - change (nat_Q (length (@nil Q))) with 0. cbn [Qsum fold_right]. lra.
  - cbn [length Qsum fold_right]. fold (Qsum l).
    destruct (H x (or_introl eq_refl)) as [Hlo Hhi].
    destruct IH as [IHlo IHhi]; [intros y Hy; apply H; now right|].
    assert (El : nat_Q (S (length l)) * lo == nat_Q (length l) * lo + lo)
      by (rewrite BinnerFacts.nat_Q_S; ring).
    assert (Eh : nat_Q (S (length l)) * hi == nat_Q (length l) * hi + hi)
      by (rewrite BinnerFacts.nat_Q_S; ring).
    rewrite El, Eh. split; lra.
Qed.

Lemma average_bounds (l : list Q) (lo hi : Q) :
  l <> [] ->
  (forall x, In x l -> lo <= x /\ x <= hi) ->
  lo <= fold_left Qplus l 0 / nat_Q (length l)
  /\ fold_left Qplus l 0 / nat_Q (length l) <= hi.
Proof.
  intros Hl H.
  assert (Hn : 0 < nat_Q (length l))
    by (apply nat_Q_pos; destruct l; [contradiction | cbn; lia]).
  destruct (Qsum_bounds l lo hi H) as [Hlo Hhi].
  rewrite fold_left_Qplus. split.
  - apply Qle_shift_div_l; [exact Hn|]. lra.
  - apply Qle_shift_div_r; [exact Hn|]. lra.
Qed.

Lemma nth_error_hd (l : list Q) (d : Q) :
  l <> [] -> nth_error l 0 = Some (hd d l).
Proof. destruct l; [contradiction | reflexivity]. Qed.

Lemma nth_error_last (l : list Q) (d : Q) :
  l <> [] -> nth_error l (length l - 1) = Some (last l d).
Proof.
  induction l as [|x l IH]; intros Hl; [contradiction|].
  destruct l as [|y l]; [reflexivity|].
  replace (length (x :: y :: l) - 1)%nat with (S (length (y :: l) - 1))
    by (cbn [length]; lia).
  cbn [nth_error]. rewrite IH by discriminate. reflexivity.
Qed.

Lemma num_at_first (l : list Q) (d : Q) :
  l <> [] -> num_at l 0 = Some (hd d l).
Proof. intros Hl. unfold num_at. cbn. now apply nth_error_hd. Qed.

Lemma num_at_last (l : list Q) (d : Q) :
  l <> [] -> num_at l (Z.of_nat (length l) - 1) = Some (last l d).
Proof.
  intros Hl. unfold num_at.
  assert (0 < length l)%nat by (destruct l; [contradiction | cbn; lia]).
  replace (Z.of_nat (length l) - 1 <? 0)%Z with false
    by (symmetry; apply Z.ltb_ge; lia).
  replace (Z.to_nat (Z.of_nat (length l) - 1)) with (length l - 1)%nat by lia.
  now apply nth_error_last.
Qed.

Lemma sort_numeric_nonempty (data : list Q) :
  data <> [] -> sort_numeric data <> [].
Proof.
  intros Hd E. apply (f_equal (@length Q)) in E.
  rewrite sort_numeric_length in E. destruct data; [contradiction | discriminate].
Qed.

(** One nearest-rank read of [calculatePercentiles]. *)
Lemma rank_read (data : list Q) (p : Q) :
  data <> [] -> 0 <= p -> p < 1 ->
  exists v,
    num_at (sort_numeric data)
      (Qfloor (nat_Q (length (sort_numeric data)) * p)) = Some v
    /\ nth_error (sort_numeric data)
         (Z.to_nat (Qfloor (nat_Q (length (sort_numeric data)) * p)))
       = Some v
    /\ In v data.
Proof.
  intros Hd Hp0 Hp1.
  destruct (num_at_defined (sort_numeric data)
              (Qfloor (nat_Q (length (sort_numeric data)) * p)))
    as (v & Hv & Hn).
  { apply floor_index_range; [now apply StatisticsFacts.sorted_nonempty | |];
      assumption. }
  exists v. split; [exact Hv|]. split; [exact Hn|].
  apply (Permutation_in _ (sort_numeric_perm data)).
  eapply nth_error_In, Hn.
Qed.

Lemma rank_nonneg (n : nat) (p : Q) :
  0 <= p -> (0 <= Qfloor (nat_Q n * p))%Z.
Proof.
  intros Hp. change 0%Z with (Qfloor 0). apply Qfloor_resp_le.
  apply Qmult_le_0_compat; [apply nat_Q_nonneg | exact Hp].
Qed.

(** X18: on a non-empty array [calculatePercentiles] returns five numbers
    that are elements of the array and are in order,
    p5 <= p25 <= p50 <= p75 <= p95. *)
Theorem percentiles_are_ordered_members (data : list Q) :
  data <> [] ->
  exists v5 v25 v50 v75 v95,
    calculatePercentiles data
    = [ ("p5", Some v5); ("p25", Some v25); ("p50", Some v50);
        ("p75", Some v75); ("p95", Some v95) ]
    /\ (v5 <= v25 /\ v25 <= v50 /\ v50 <= v75 /\ v75 <= v95)
    /\ (In v5 data /\ In v25 data /\ In v50 data /\ In v75 data
        /\ In v95 data).
Proof.
  intros Hd. unfold calculatePercentiles. cbv zeta.
  destruct (rank_read data 0.05 Hd) as (v5 & E5 & N5 & I5); [easy | easy |].
  destruct (rank_read data 0.25 Hd) as (v25 & E25 & N25 & I25);
    [easy | easy |].
  destruct (rank_read data 0.50 Hd) as (v50 & E50 & N50 & I50);
    [easy | easy |].
  destruct (rank_read data 0.75 Hd) as (v75 & E75 & N75 & I75);
    [easy | easy |].
  destruct (rank_read data 0.95 Hd) as (v95 & E95 & N95 & I95);
    [easy | easy |].
  exists v5, v25, v50, v75, v95.
  rewrite E5, E25, E50, E75, E95. split; [reflexivity|].
  pose proof (sort_numeric_sorted data) as Hs.
  split; [| repeat split; assumption].
  repeat split.
  - apply (TimeSeriesFacts.percentile_reads_ordered _ 0.05 0.25 _ _ Hs);
      [easy | now apply rank_nonneg | exact N5 | exact N25].
  - apply (TimeSeriesFacts.percentile_reads_ordered _ 0.25 0.50 _ _ Hs);
      [easy | now apply rank_nonneg | exact N25 | exact N50].
  - apply (TimeSeriesFacts.percentile_reads_ordered _ 0.50 0.75 _ _ Hs);
      [easy | now apply rank_nonneg | exact N50 | exact N75].
  - apply (TimeSeriesFacts.percentile_reads_ordered _ 0.75 0.95 _ _ Hs);
      [easy | now apply rank_nonneg | exact N75 | exact N95].
Qed.

Lemma percentiles_are_ordered_members_witness :
  let data : list Q := [7; 3; 9; 1; 5] in
  data <> []
  /\ exists v5 v25 v50 v75 v95,
       calculatePercentiles data
       = [ ("p5", Some v5); ("p25", Some v25); ("p50", Some v50);
           ("p75", Some v75); ("p95", Some v95) ]
       /\ (v5 <= v25 /\ v25 <= v50 /\ v50 <= v75 /\ v75 <= v95)
       /\ (In v5 data /\ In v25 data /\ In v50 data /\ In v75 data
           /\ In v95 data).
Proof.
  intros data.
  assert (Hd : data <> []) by discriminate.
  split; [exact Hd|].
  exact (percentiles_are_ordered_members data Hd).
Defined.

(** ** Extremes and mean of calculateStatistics *)

(** X19: on a non-empty array the min and max [calculateStatistics]
    reports are the least and the greatest element; the mean it reports is
    the sum of the elements divided by their number, which in exact
    arithmetic lies between the two.  (In binary64 the sum and the
    quotient are rounded: the mean can leave the interval by a last
    digit, as on three equal elements 0.1.) *)
Theorem statistics_mean_between_extremes
    (Math_sqrt : Q -> Q) (data : list Q) :
  data <> [] ->
  exists o mn mx m,
    calculateStatistics Math_sqrt data = Some o
    /\ obj_get o "min" = Some (Some mn)
    /\ obj_get o "max" = Some (Some mx)
    /\ obj_get o "mean" = Some (Some m)
    /\ is_min mn data /\ is_max mx data
    /\ m * nat_Q (length data) == Qsum data
    /\ mn <= m /\ m <= mx.
Proof.
  intros Hd. rewrite (StatisticsFacts.calculateStatistics_nonempty _ _ Hd).
  cbv zeta. unfold calculatePercentiles. cbv zeta.
  pose proof (sort_numeric_nonempty data Hd) as Hs.
  rewrite (num_at_first _ 0 Hs), (num_at_last _ 0 Hs).
  rewrite sort_numeric_length.
  pose proof (sorted_hd_min data 0 Hd) as Hmin.
  pose proof (sorted_last_max data 0 Hd) as Hmax.
  assert (Hn : 0 < nat_Q (length data))
    by (apply nat_Q_pos; destruct data; [contradiction | cbn; lia]).
  destruct (average_bounds data (hd 0 (sort_numeric data))
              (last (sort_numeric data) 0) Hd) as [Hlo Hhi].
  { intros x Hx. split; [now apply (proj2 Hmin) | now apply (proj2 Hmax)]. }
  eexists _, _, _, _. split; [reflexivity|].
  split; [reflexivity|]. split; [reflexivity|]. split; [reflexivity|].
  split; [exact Hmin|]. split; [exact Hmax|].
  split; [| split; assumption].
  rewrite fold_left_Qplus. field. lra.
Qed.

Lemma statistics_mean_between_extremes_witness :
  let data : list Q := [7; 3; 9; 1; 5] in
  data <> []
  /\ exists o mn mx m,
       calculateStatistics (fun x => x) data = Some o
       /\ obj_get o "min" = Some (Some mn)
       /\ obj_get o "max" = Some (Some mx)
       /\ obj_get o "mean" = Some (Some m)
       /\ is_min mn data /\ is_max mx data
       /\ m * nat_Q (length data) == Qsum data
       /\ mn <= m /\ m <= mx.
Proof.
  intros data.
  assert (Hd : data <> []) by discriminate.
  split; [exact Hd|].
  exact (statistics_mean_between_extremes (fun x => x) data Hd).
Defined.

(** ** The two summaries side by side *)

Lemma floor_unique (x : Q) (z : Z) :
  inject_Z z <= x -> x < inject_Z (z + 1) -> Qfloor x = z.
Proof.
  intros Hlo Hhi.
  assert (H1 : (z <= Qfloor x)%Z).
  { rewrite <- (Qfloor_Z z). now apply Qfloor_resp_le. }
  assert (H2 : (Qfloor x < z + 1)%Z).
  { rewrite Zlt_Qlt. apply Qle_lt_trans with x; [apply Qfloor_le | exact Hhi]. }
  lia.
Qed.

(** The rank of the 50th percentile is half the length, rounded down. *)
Lemma half_rank (n : nat) : Qfloor (nat_Q n * 0.50) = Z.of_nat (n / 2).
Proof.
  apply floor_unique.
  - assert (H : (2 * Z.of_nat (n / 2) <= Z.of_nat n)%Z)
      by (pose proof (Nat.div_mod_eq n 2); lia).
    rewrite Zle_Qle, inject_Z_mult in H.
    change (inject_Z 2) with 2 in H. unfold nat_Q. lra.
  - assert (H : (Z.of_nat n < 2 * (Z.of_nat (n / 2) + 1))%Z).
    { pose proof (Nat.div_mod_eq n 2).
      pose proof (Nat.mod_upper_bound n 2). lia. }
    rewrite Zlt_Qlt, inject_Z_mult, inject_Z_plus in H.
    change (inject_Z 2) with 2 in H. change (inject_Z 1) with 1 in H.
    rewrite inject_Z_plus. change (inject_Z 1) with 1.
    unfold nat_Q. lra.
Qed.

Lemma mean_nonempty (l : list Q) :
  l <> [] ->
  Statistics.mean l = fold_left Qplus l 0 / nat_Q (length l).
Proof. intros Hl. destruct l; [contradiction | reflexivity]. Qed.

Lemma percentile_in_range (s : list Q) (p : Q) :
  s <> [] -> 0 <= p -> p < 1 ->
  Statistics.percentile s p = num_at s (Qfloor (nat_Q (length s) * p)).
Proof.
  intros Hs Hp0 Hp1. unfold Statistics.percentile.
  assert (Hn : (0 < length s)%nat)
    by (destruct s; [contradiction | cbn; lia]).
  destruct (Nat.eqb_spec (length s) 0); [lia|]. cbv zeta.
  pose proof (floor_index_range (length s) p Hn Hp0 Hp1).
  f_equal. lia.
Qed.

(** X20: on a non-empty array [Statistics.summarize] and
    [HistogramBinner.calculateStatistics] report the same mean, stdDev,
    min, max, p5, p25, p75 and p95; when the number of elements is odd
    they report the same median too. *)
Theorem summaries_agree (Math_sqrt : Q -> Q) (data : list Q) :
  data <> [] ->
  exists o s,
    calculateStatistics Math_sqrt data = Some o
    /\ Statistics.summarize Math_sqrt data = Some s
    /\ (forall k,
          In k ["mean"; "stdDev"; "min"; "max"; "p5"; "p25"; "p75"; "p95"] ->
          obj_get s k = obj_get o k)
    /\ ((length data mod 2 = 1)%nat ->
        obj_get s "median" = obj_get o "median").
Proof.
  intros Hd.
  rewrite (StatisticsFacts.calculateStatistics_nonempty _ _ Hd).
  rewrite (StatisticsFacts.summarize_nonempty _ _ Hd).
  cbv zeta. unfold calculatePercentiles. cbv zeta.
  pose proof (sort_numeric_nonempty data Hd) as Hs.
  assert (Hsq : forall f : Q -> Q, map f data <> [])
    by (intros f; destruct data; [contradiction | discriminate]).
  unfold Statistics.stdDev.
  destruct (Nat.eqb_spec (length data) 0) as [E | _];
    [destruct data; [contradiction | discriminate]|].
  cbv zeta.
  rewrite (mean_nonempty _ (Hsq _)), length_map.
  rewrite (mean_nonempty _ Hd).
  rewrite !(percentile_in_range _ _ Hs) by easy.
  rewrite !sort_numeric_length.
  eexists _, _. split; [reflexivity|]. split; [reflexivity|]. split.
  - intros k Hk.
    repeat (destruct Hk as [<- | Hk]; [reflexivity|]). destruct Hk.
  - intros Hodd. cbn [obj_get obj_spread obj_set obj_read String.eqb
                        Ascii.eqb Bool.eqb fold_left].
    rewrite half_rank.
    unfold Statistics.median.
    destruct (Nat.eqb_spec (length data) 0) as [E | _];
      [destruct data; [contradiction | discriminate]|].
    cbv zeta. rewrite sort_numeric_length.
    replace (length data mod 2 =? 0)%nat with false
      by (symmetry; apply Nat.eqb_neq; lia).
    unfold num_at.
    replace (Z.of_nat (length data / 2) <? 0)%Z with false
      by (symmetry; apply Z.ltb_ge; lia).
    rewrite Nat2Z.id.
    assert (Hmid : (length data / 2 < length (sort_numeric data))%nat).
    { rewrite sort_numeric_length.
      apply Nat.div_lt; [destruct data; [contradiction | cbn; lia] | lia]. }
    rewrite (nth_error_nth' _ 0 Hmid). reflexivity.
Qed.

Lemma summaries_agree_witness :
  let data : list Q := [7; 3; 9; 1; 5] in
  data <> []
  /\ exists o s,
       calculateStatistics (fun x => x) data = Some o
       /\ Statistics.summarize (fun x => x) data = Some s
       /\ (forall k,
             In k ["mean"; "stdDev"; "min"; "max"; "p5"; "p25"; "p75";
                   "p95"] ->
             obj_get s k = obj_get o k)
       /\ ((length data mod 2 = 1)%nat ->
           obj_get s "median" = obj_get o "median").
Proof.
  intros data.
  assert (Hd : data <> []) by discriminate.
  split; [exact Hd|].
  exact (summaries_agree (fun x => x) data Hd).
Defined.

(** ** The median *)

Lemma sorted_entry_bounds (data : list Q) (lo hi : Q) (i : nat) :
  (forall x, In x data -> lo <= x /\ x <= hi) ->
  (i < length data)%nat ->
  lo <= nth i (sort_numeric data) 0 /\ nth i (sort_numeric data) 0 <= hi.
Proof.
  intros H Hi. apply H.
  apply (Permutation_in _ (sort_numeric_perm data)).
  apply nth_In. now rewrite sort_numeric_length.
Qed.

(** X21: the median of a non-empty array lies between any two numbers
    that bound all its elements, so between its minimum and its maximum. *)
Theorem median_between_bounds (data : list Q) (lo hi : Q) :
  data <> [] ->
  (forall x, In x data -> lo <= x /\ x <= hi) ->
  lo <= Statistics.median data /\ Statistics.median data <= hi.
Proof.
  intros Hd H. unfold Statistics.median.
  assert (Hn : (0 < length data)%nat)
    by (destruct data; [contradiction | cbn; lia]).
  destruct (Nat.eqb_spec (length data) 0) as [E | _]; [lia|].
  cbv zeta. rewrite sort_numeric_length.
  assert (Hmid : (length data / 2 < length data)%nat)
    by (apply Nat.div_lt; lia).
  destruct (sorted_entry_bounds data lo hi (length data / 2) H Hmid)
    as [Hl2 Hh2].
  destruct (Nat.eqb_spec (length data mod 2) 0) as [Heven | Hodd].
  - assert (Hmid1 : (length data / 2 - 1 < length data)%nat) by lia.
    destruct (sorted_entry_bounds data lo hi _ H Hmid1) as [Hl1 Hh1].
    revert Hl1 Hh1 Hl2 Hh2.
    generalize (nth (length data / 2 - 1) (sort_numeric data) 0)
               (nth (length data / 2) (sort_numeric data) 0).
    intros a b Hl1 Hh1 Hl2 Hh2. split.
    + apply Qle_shift_div_l; lra.
    + apply Qle_shift_div_r; lra.
  - split; assumption.
Qed.

Lemma median_between_bounds_witness :
  let data : list Q := [7; 3; 9; 1] in
  data <> []
  /\ (forall x, In x data -> 1 <= x /\ x <= 9)
  /\ 1 <= Statistics.median data /\ Statistics.median data <= 9.
Proof.
  intros data.
  assert (Hd : data <> []) by discriminate.
  assert (H : forall x, In x data -> 1 <= x /\ x <= 9).
  { intros x [<- | [<- | [<- | [<- | []]]]]; split; discriminate. }
  split; [exact Hd|]. split; [exact H|].
  exact (median_between_bounds data 1 9 Hd H).
Defined.

(** ** Variance and standard deviation *)

Lemma Qsum_square_deviations (l : list Q) (m : Q) :
  Qsum (map (fun val => Qpower (val - m) 2) l)
  == Qsum (map (fun val => val * val) l) - 2 * m * Qsum l
     + nat_Q (length l) * (m * m).
Proof.
  induction l as [|x l IH].
  - cbn [map Qsum fold_right length]. change (nat_Q 0) with 0. ring.
  - cbn [map Qsum fold_right length].
    fold (Qsum (map (fun val => Qpower (val - m) 2) l)).
    fold (Qsum (map (fun val => val * val) l)). fold (Qsum l).
    rewrite IH, BinnerFacts.nat_Q_S.
    change (Qpower (x - m) 2) with ((x - m) * (x - m)). ring.
Qed.

Lemma Qsum_squares_nonneg (l : list Q) (m : Q) :
  0 <= Qsum (map (fun val => Qpower (val - m) 2) l).
Proof.
  induction l as [|x l IH]; cbn [map Qsum fold_right]; [apply Qle_refl|].
  fold (Qsum (map (fun val => Qpower (val - m) 2) l)).
  change (Qpower (x - m) 2) with ((x - m) * (x - m)).
  pose proof (Qsqr_nonneg (x - m)). lra.
Qed.

(** X22: the variance of a non-empty array is never negative and equals
    the mean of the squares minus the square of the mean; the standard
    deviation is [Math.sqrt] of the variance. *)
Theorem variance_is_mean_square_minus_square_mean
    (Math_sqrt : Q -> Q) (data : list Q) :
  data <> [] ->
  0 <= Statistics.variance data
  /\ Statistics.variance data
     == Statistics.mean (map (fun val => val * val) data)
        - Statistics.mean data * Statistics.mean data
  /\ Statistics.stdDev Math_sqrt data
     = Math_sqrt (Statistics.variance data).
Proof.
  intros Hd.
  assert (Hsq : forall f : Q -> Q, map f data <> [])
    by (intros f; destruct data; [contradiction | discriminate]).
  assert (Hn : 0 < nat_Q (length data))
    by (apply nat_Q_pos; destruct data; [contradiction | cbn; lia]).
  unfold Statistics.stdDev, Statistics.variance.
  destruct (Nat.eqb_spec (length data) 0) as [E | _];
    [destruct data; [contradiction | discriminate]|].
  cbv zeta. split; [| split; [| reflexivity]].
  - rewrite (mean_nonempty _ (Hsq _)), length_map, fold_left_Qplus.
    apply Qle_shift_div_l; [exact Hn|].
    pose proof (Qsum_squares_nonneg data (Statistics.mean data)). lra.
  - rewrite !(mean_nonempty _ (Hsq _)), !length_map, !fold_left_Qplus.
    rewrite Qsum_square_deviations.
    rewrite (mean_nonempty _ Hd), fold_left_Qplus.
    field. lra.
Qed.

Lemma variance_is_mean_square_minus_square_mean_witness :
  let data : list Q := [7; 3; 9; 1] in
  data <> []
  /\ 0 <= Statistics.variance data
  /\ Statistics.variance data
     == Statistics.mean (map (fun val => val * val) data)
        - Statistics.mean data * Statistics.mean data
  /\ Statistics.stdDev (fun x => x) data
     = (fun x => x) (Statistics.variance data).
Proof.
  intros data.
  assert (Hd : data <> []) by discriminate.
  split; [exact Hd|].
  exact (variance_is_mean_square_minus_square_mean (fun x => x) data Hd).
Defined.

End StatisticsMoreFacts.

(* ================================================================== *)
(** * More on the outperformance probability *)
(* ================================================================== *)

Module OutperformanceMoreFacts.

Import HistogramBinner Spec SpecMore JsFacts SortFacts OutperformanceFacts.

Lemma probability_nonempty (a b : list Q) :
  a <> [] -> length a = length b ->
  calculateOutperformanceProbability a b
  = Ok (Num (nat_Q (wins a b) / nat_Q (length a))).
Proof.
  intros Ha Hl. unfold calculateOutperformanceProbability.
  rewrite Hl, Nat.eqb_refl. cbn [negb]. rewrite <- Hl.
  rewrite (counting_loop a b Hl). unfold jdiv.
  assert (Hn : 0 < nat_Q (length a))
    by (apply nat_Q_pos; destruct a; [contradiction | cbn; lia]).
  destruct (Qeq_bool (nat_Q (length a)) 0) eqn:E; [|reflexivity].
  apply Qeq_bool_iff in E. lra.
Qed.

(** X23: on two non-empty arrays of equal length the probability that the
    first outperforms the second lies between 0 and 1, and what the hook
    reports as the probability that the second wins, one minus it, is in
    exact arithmetic the probability that the second outperforms the
    first plus the share of the ties.  (In binary64 the two sides of this
    equation can differ in the last digit.) *)
Theorem complement_counts_the_ties (a b : list Q) :
  a <> [] -> length a = length b ->
  exists p q,
    calculateOutperformanceProbability a b = Ok (Num p)
    /\ calculateOutperformanceProbability b a = Ok (Num q)
    /\ 0 <= p /\ p <= 1
    /\ UseSimulation.probabilityMortgageWins (Num p) = Num (1 - p)
    /\ 1 - p == q + nat_Q (ties a b) / nat_Q (length a).
Proof.
  intros Ha Hl.
  assert (Hb : b <> []).
  { intros E. rewrite E in Hl. destruct a; [contradiction | discriminate]. }
  rewrite (probability_nonempty a b Ha Hl).
  rewrite (probability_nonempty b a Hb (eq_sym Hl)).
  assert (Hn : 0 < nat_Q (length a))
    by (apply nat_Q_pos; destruct a; [contradiction | cbn; lia]).
  pose proof (wins_ties_partition a b Hl) as Hp.
  assert (HpQ : nat_Q (wins a b) + nat_Q (wins b a) + nat_Q (ties a b)
                == nat_Q (length a)).
  { rewrite <- Hp. unfold nat_Q.
    rewrite !Nat2Z.inj_add, !inject_Z_plus. reflexivity. }
  pose proof (nat_Q_nonneg (wins a b)) as H1.
  pose proof (nat_Q_nonneg (wins b a)) as H2.
  pose proof (nat_Q_nonneg (ties a b)) as H3.
  eexists _, _. split; [reflexivity|]. split; [reflexivity|].
  rewrite <- Hl.
  revert Hn HpQ H1 H2 H3.
  generalize (nat_Q (wins a b)) (nat_Q (wins b a)) (nat_Q (ties a b))
             (nat_Q (length a)).
  intros w w' t n Hn HpQ H1 H2 H3.
  split; [apply Qle_shift_div_l; lra|].
  split; [apply Qle_shift_div_r; lra|].
  split; [reflexivity|].
  assert (E : n == w + w' + t) by lra.
  rewrite E at 1 2 3. field. lra.
Qed.

Lemma complement_counts_the_ties_witness :
  let a : list Q := [3; 1; 2; 5] in
  let b : list Q := [2; 1; 4; 4] in
  a <> [] /\ length a = length b
  /\ exists p q,
       calculateOutperformanceProbability a b = Ok (Num p)
       /\ calculateOutperformanceProbability b a = Ok (Num q)
       /\ 0 <= p /\ p <= 1
       /\ UseSimulation.probabilityMortgageWins (Num p) = Num (1 - p)
       /\ 1 - p == q + nat_Q (ties a b) / nat_Q (length a).
Proof.
  intros a b.
  assert (Ha : a <> []) by discriminate.
  assert (Hl : length a = length b) by reflexivity.
  split; [exact Ha|]. split; [exact Hl|].
  exact (complement_counts_the_ties a b Ha Hl).
Defined.

(** X24: [Statistics.probabilityOutperforms] returns what
    [HistogramBinner.calculateOutperformanceProbability] returns on arrays
    of equal length, and throws, with a message of its own, exactly when
    the lengths differ. *)
Theorem probabilityOutperforms_agrees (a b : list Q) :
  (length a = length b ->
   Statistics.probabilityOutperforms a b
   = calculateOutperformanceProbability a b)
  /\ (length a <> length b ->
      Statistics.probabilityOutperforms a b
      = Throw (Error "Arrays must have equal length"))
  /\ ((exists e, Statistics.probabilityOutperforms a b = Throw e)
      <-> length a <> length b).
Proof.
  unfold Statistics.probabilityOutperforms,
    calculateOutperformanceProbability.
  destruct (Nat.eqb_spec (length a) (length b)) as [E | E]; cbn [negb].
  - split; [reflexivity|]. split; [intros H; contradiction|].
    split; [intros [e H]; discriminate | intros H; contradiction].
  - split; [intros H; contradiction|]. split; [reflexivity|].
    split; [intros _; exact E | intros _; eexists; reflexivity].
Qed.

Lemma probabilityOutperforms_agrees_witness :
  let a : list Q := [3; 1; 2; 5] in
  let b : list Q := [2; 1; 4; 4] in
  length a = length b
  /\ Statistics.probabilityOutperforms a b
     = calculateOutperformanceProbability a b.
Proof.
  intros a b.
  assert (Hl : length a = length b) by reflexivity.
  split; [exact Hl|].
  exact (proj1 (probabilityOutperforms_agrees a b) Hl).
Defined.

End OutperformanceMoreFacts.

(* ================================================================== *)
(** * More on the bands of the fan chart *)
(* ================================================================== *)

Module BandsMoreFacts.

Import HistogramBinner TimeSeriesStats Spec SpecMore SpecBands.
Import JsFacts SortFacts TimeSeriesFacts.

Lemma js_getZ_numbers (s : list Q) (i : Z) :
  js_getZ (map Some s) i = num_at s i.
Proof.
  unfold js_getZ, num_at. destruct (i <? 0)%Z; [reflexivity|].
  apply js_get_map_Some.
Qed.

(** The summing loop over an array of numbers. *)
Lemma summing_loop (s : list Q) :
  for_range 0 (length s)
    (fun i sum => jadd sum (ToNumber (js_get (map Some s) i))) (Num 0)
  = Num (fold_left Qplus s 0).
Proof.
  pose (P := fun (i : nat) (sum : jsnum) =>
               sum = Num (fold_left Qplus (firstn i s) 0)).
  assert (H : P (0 + length s)%nat
                (for_range 0 (length s)
                   (fun i sum => jadd sum (ToNumber (js_get (map Some s) i)))
                   (Num 0))).
  { apply for_range_inv; [reflexivity|].
    intros i sum Hi ->. unfold P.
    destruct (nth_error s i) as [x|] eqn:Ex;
      [| apply nth_error_None in Ex; lia].
    rewrite js_get_map_Some, Ex.
    rewrite (ValuatorFacts.firstn_S_snoc _ _ _ Ex), fold_left_app.
    reflexivity. }
  unfold P in H. cbn [Nat.add] in H. now rewrite firstn_all in H.
Qed.

(** What [computeTimeSeriesBands] returns on a non-empty matrix whose rows
    reach the last year. *)
Lemma computeTimeSeriesBands_bands (paths : list (list Q)) (years : Z) :
  paths <> [] ->
  (0 <= years <= MAX_ARRAY_LENGTH - 1)%Z ->
  (forall row, In row paths -> (Z.to_nat years + 1 <= length row)%nat) ->
  computeTimeSeriesBands paths years
  = Ok (map (fun y => Some (band_of paths y)) (seq 0 (Z.to_nat years + 1))).
Proof.
  intros Hne Hy Hrows. unfold computeTimeSeriesBands.
  rewrite EngineFacts.new_Array_ok by lia. rewrite rbind_Ok.
  replace (Z.to_nat (years + 1)) with (Z.to_nat years + 1)%nat by lia.
  cbv zeta. rewrite for_range_fill_all.
  f_equal. apply map_ext_in. intros y Hin. apply in_seq in Hin.
  rewrite gathered_column
    by (intros row Hrow; specialize (Hrows row Hrow); lia).
  assert (Hlen : length (sorted_column paths y) = length paths).
  { unfold sorted_column. now rewrite sort_numeric_length, length_map. }
  rewrite !js_getZ_numbers.
  assert (Hsum : for_range 0 (length paths)
                   (fun i sum =>
                      jadd sum
                        (ToNumber
                           (js_get (map Some (sorted_column paths y)) i)))
                   (Num 0)
                 = Num (fold_left Qplus (sorted_column paths y) 0))
    by (rewrite <- Hlen; apply summing_loop).
  rewrite Hsum.
  unfold band_of. cbv zeta. unfold jdiv.
  assert (Hn : 0 < nat_Q (length paths))
    by (apply nat_Q_pos; destruct paths; [contradiction | cbn; lia]).
  destruct (Qeq_bool (nat_Q (length paths)) 0) eqn:E; [|reflexivity].
  apply Qeq_bool_iff in E. lra.
Qed.

Lemma Qsum_perm (l l' : list Q) : Permutation l l' -> Qsum l == Qsum l'.
Proof.
  induction 1 as [| x l l' _ IH | x y l | l l' l'' _ IH1 _ IH2];
    cbn [Qsum fold_right].
  - reflexivity.
  - fold (Qsum l). fold (Qsum l'). now rewrite IH.
  - fold (Qsum l). ring.
  - now rewrite IH1.
Qed.

(** X25: [computeTimeSeriesBands] throws a RangeError when [years] is
    below -1, returns no band when it is -1, and, given no path at all,
    returns for every year a band whose percentiles are undefined and
    whose mean is NaN. *)
Theorem bands_without_data (paths : list (list Q)) (years : Z) :
  ((years < -1)%Z ->
   computeTimeSeriesBands paths years
   = Throw (RangeError "Invalid array length"))
  /\ computeTimeSeriesBands paths (-1) = Ok []
  /\ ((0 <= years <= MAX_ARRAY_LENGTH - 1)%Z ->
      computeTimeSeriesBands [] years
      = Ok (map (fun y => Some (empty_band y))
              (seq 0 (Z.to_nat years + 1)))).
Proof.
  split; [| split].
  - intros Hy. unfold computeTimeSeriesBands.
    now rewrite EngineFacts.new_Array_negative by lia.
  - reflexivity.
  - intros Hy. unfold computeTimeSeriesBands.
    rewrite EngineFacts.new_Array_ok by lia. rewrite rbind_Ok.
    replace (Z.to_nat (years + 1)) with (Z.to_nat years + 1)%nat by lia.
    cbv zeta. rewrite for_range_fill_all. reflexivity.
Qed.

Lemma bands_without_data_witness :
  ((-3 < -1)%Z /\
   computeTimeSeriesBands [[1; 2]] (-3)
   = Throw (RangeError "Invalid array length"))
  /\ ((0 <= 2 <= MAX_ARRAY_LENGTH - 1)%Z /\
      computeTimeSeriesBands [] 2
      = Ok (map (fun y => Some (empty_band y)) (seq 0 (Z.to_nat 2 + 1)))).
Proof.
  assert (H1 : (-3 < -1)%Z) by lia.
  assert (H2 : (0 <= 2 <= MAX_ARRAY_LENGTH - 1)%Z)
    by (unfold MAX_ARRAY_LENGTH; lia).
  split.
  - split; [exact H1|].
    exact (proj1 (bands_without_data [[1; 2]] (-3)) H1).
  - split; [exact H2|].
    exact (proj2 (proj2 (bands_without_data [] 2)) H2).
Defined.

(** X26: on a non-empty matrix whose rows reach the last year, the
    percentiles of the band of each year are those [calculatePercentiles]
    gives for the values of that year, and the mean of the band is their
    sum divided by the number of paths. *)
Theorem bands_hold_column_statistics (paths : list (list Q)) (years : Z) :
  paths <> [] ->
  (0 <= years <= MAX_ARRAY_LENGTH - 1)%Z ->
  (forall row, In row paths -> (Z.to_nat years + 1 <= length row)%nat) ->
  exists bands,
    computeTimeSeriesBands paths years = Ok bands
    /\ forall y, (y <= Z.to_nat years)%nat ->
         exists band m,
           nth_error bands y = Some (Some band)
           /\ p5 band = obj_read (calculatePercentiles (column paths y)) "p5"
           /\ p25 band
              = obj_read (calculatePercentiles (column paths y)) "p25"
           /\ p50 band
              = obj_read (calculatePercentiles (column paths y)) "p50"
           /\ p75 band
              = obj_read (calculatePercentiles (column paths y)) "p75"
           /\ p95 band
              = obj_read (calculatePercentiles (column paths y)) "p95"
           /\ mean band = Num m
           /\ m == Qsum (column paths y) / nat_Q (length paths).
Proof.
  intros Hne Hy Hrows.
  rewrite (computeTimeSeriesBands_bands paths years Hne Hy Hrows).
  eexists. split; [reflexivity|].
  intros y Hyy.
  rewrite nth_error_map, nth_error_seq.
  replace (y <? Z.to_nat years + 1)%nat with true
    by (symmetry; apply Nat.ltb_lt; lia).
  cbn [option_map Nat.add].
  eexists _, _. split; [reflexivity|].
  unfold band_of. cbv zeta. cbn [p5 p25 p50 p75 p95 mean].
  unfold calculatePercentiles. cbv zeta.
  rewrite sort_numeric_length.
  assert (Hc : length (column paths y) = length paths)
    by (unfold column; apply length_map).
  rewrite !Hc.
  do 5 (split; [reflexivity|]).
  split; [reflexivity|].
  rewrite StatisticsMoreFacts.fold_left_Qplus.
  unfold sorted_column. fold (column paths y).
  rewrite (Qsum_perm _ _ (sort_numeric_perm (column paths y))).
  unfold Qdiv. ring.
Qed.

Lemma bands_hold_column_statistics_witness :
  let paths := [[0; 3; 5]; [0; 1; 6]; [0; 2; 4]] in
  paths <> []
  /\ (0 <= 2 <= MAX_ARRAY_LENGTH - 1)%Z
  /\ (forall row, In row paths -> (Z.to_nat 2 + 1 <= length row)%nat)
  /\ exists bands,
       computeTimeSeriesBands paths 2 = Ok bands
       /\ forall y, (y <= Z.to_nat 2)%nat ->
            exists band m,
              nth_error bands y = Some (Some band)
              /\ p5 band
                 = obj_read (calculatePercentiles (column paths y)) "p5"
              /\ p25 band
                 = obj_read (calculatePercentiles (column paths y)) "p25"
              /\ p50 band
                 = obj_read (calculatePercentiles (column paths y)) "p50"
              /\ p75 band
                 = obj_read (calculatePercentiles (column paths y)) "p75"
              /\ p95 band
                 = obj_read (calculatePercentiles (column paths y)) "p95"
              /\ mean band = Num m
              /\ m == Qsum (column paths y) / nat_Q (length paths).
Proof.
  intros paths.
  assert (Hne : paths <> []) by discriminate.
  assert (Hy : (0 <= 2 <= MAX_ARRAY_LENGTH - 1)%Z)
    by (unfold MAX_ARRAY_LENGTH; lia).
  assert (Hrows : forall row, In row paths ->
                              (Z.to_nat 2 + 1 <= length row)%nat).
  { intros row [<- | [<- | [<- | []]]]; simpl; lia. }
  split; [exact Hne|]. split; [exact Hy|]. split; [exact Hrows|].
  exact (bands_hold_column_statistics paths 2 Hne Hy Hrows).
Defined.

End BandsMoreFacts.

(* ================================================================== *)
(** * The rows of the fan chart *)
(* ================================================================== *)

Module ChartFacts.

Import HistogramBinner TimeSeriesStats Spec SpecMore SpecBands.
Import JsFacts SortFacts TimeSeriesFacts BandsMoreFacts.

Lemma nth_error_indexed {A B : Type} (F : nat -> A -> B) (l : list A) :
  forall s i,
    nth_error (map (fun '(j, x) => F j x) (combine (seq s (length l)) l)) i
    = option_map (F (s + i)%nat) (nth_error l i).
Proof.
  induction l as [|x l IH]; intros s i.
  - now destruct i.
  - cbn [length seq combine map]. destruct i as [|i].
    + cbn [nth_error option_map]. now rewrite Nat.add_0_r.
    + cbn [nth_error]. rewrite IH. now rewrite Nat.add_succ_comm.
Qed.

(** Entry [i] of [timeSeriesData] is band [i] with the mortgage value of
    year [i]. *)
Lemma nth_error_timeSeriesData
    (bands : list (option Band)) (mortgagePath : list (option Q)) (i : nat) :
  nth_error (UseSimulation.timeSeriesData bands mortgagePath) i
  = option_map
      (option_map
         (fun b =>
            {| UseSimulation.band := b;
               UseSimulation.mortgage := js_get mortgagePath i |}))
      (nth_error bands i).
Proof.
  unfold UseSimulation.timeSeriesData.
  rewrite (nth_error_indexed
             (fun j slot =>
                option_map
                  (fun band =>
                     {| UseSimulation.band := band;
                        UseSimulation.mortgage := js_get mortgagePath j |})
                  slot)).
  reflexivity.
Qed.

(** A nearest-rank read in the sorted values of a year. *)
Lemma band_read (paths : list (list Q)) (y : nat) (p : Q) :
  paths <> [] -> 0 <= p -> p < 1 ->
  exists v,
    num_at (sorted_column paths y) (Qfloor (nat_Q (length paths) * p))
    = Some v
    /\ nth_error (sorted_column paths y)
         (Z.to_nat
            (Qfloor (nat_Q (length (sorted_column paths y)) * p)))
       = Some v.
Proof.
  intros Hne Hp0 Hp1.
  assert (Hlen : length (sorted_column paths y) = length paths).
  { unfold sorted_column. now rewrite sort_numeric_length, length_map. }
  assert (Hs : sorted_column paths y <> []).
  { intros E. rewrite E in Hlen.
    destruct paths; [contradiction | discriminate]. }
  destruct (percentile_read _ p Hs Hp0 Hp1) as (v & Hv & Hn).
  exists v. split; [| exact Hn].
  rewrite <- Hlen, <- js_getZ_numbers. exact Hv.
Qed.

(** X27: for the bands of a non-empty matrix whose rows reach the last
    year, each row of the fan chart carries the year and the mortgage
    value of that year, its three stacked heights are differences of
    consecutive percentiles and are not negative, and in exact arithmetic
    they add up, on the base, to the 95th percentile.  (In binary64 each
    difference is rounded, and the stacked sum can differ from the 95th
    percentile in the last digits.) *)
Theorem chart_rows_stack_up_to_p95
    (paths : list (list Q)) (years : Z) (mortgagePath : list (option Q)) :
  paths <> [] ->
  (0 <= years <= MAX_ARRAY_LENGTH - 1)%Z ->
  (forall row, In row paths -> (Z.to_nat years + 1 <= length row)%nat) ->
  exists bands,
    computeTimeSeriesBands paths years = Ok bands
    /\ forall y, (y <= Z.to_nat years)%nat ->
         exists row b lower inner upper top,
           nth_error
             (TimeChart.chartData
                (UseSimulation.timeSeriesData bands mortgagePath)) y
           = Some (Some row)
           /\ TimeChart.year row = Z.of_nat y
           /\ TimeChart.mortgage row = js_get mortgagePath y
           /\ TimeChart.base row = Some b
           /\ TimeChart.outerLower row = Num lower
           /\ TimeChart.innerBand row = Num inner
           /\ TimeChart.outerUpper row = Num upper
           /\ TimeChart._p95 row = Some top
           /\ 0 <= lower /\ 0 <= inner /\ 0 <= upper
           /\ b + lower + inner + upper == top.
Proof.
  intros Hne Hy Hrows.
  rewrite (computeTimeSeriesBands_bands paths years Hne Hy Hrows).
  eexists. split; [reflexivity|].
  intros y Hyy. unfold TimeChart.chartData.
  rewrite nth_error_map, nth_error_timeSeriesData, nth_error_map,
    nth_error_seq.
  replace (y <? Z.to_nat years + 1)%nat with true
    by (symmetry; apply Nat.ltb_lt; lia).
  cbn [option_map Nat.add UseSimulation.band UseSimulation.mortgage].
  unfold band_of. cbv zeta. cbn [year p5 p25 p50 p75 p95 mean].
  destruct (band_read paths y 0.05 Hne) as (v5 & E5 & N5); [easy | easy |].
  destruct (band_read paths y 0.25 Hne) as (v25 & E25 & N25);
    [easy | easy |].
  destruct (band_read paths y 0.75 Hne) as (v75 & E75 & N75);
    [easy | easy |].
  destruct (band_read paths y 0.95 Hne) as (v95 & E95 & N95);
    [easy | easy |].
  rewrite E5, E25, E75, E95.
  pose proof (sort_numeric_sorted (map (fun row => nth y row 0) paths))
    as Hs.
  fold (sorted_column paths y) in Hs.
  assert (H1 : v5 <= v25).
  { apply (percentile_reads_ordered _ 0.05 0.25 _ _ Hs);
      [easy | now apply StatisticsMoreFacts.rank_nonneg | exact N5
       | exact N25]. }
  assert (H2 : v25 <= v75).
  { apply (percentile_reads_ordered _ 0.25 0.75 _ _ Hs);
      [easy | now apply StatisticsMoreFacts.rank_nonneg | exact N25
       | exact N75]. }
  assert (H3 : v75 <= v95).
  { apply (percentile_reads_ordered _ 0.75 0.95 _ _ Hs);
      [easy | now apply StatisticsMoreFacts.rank_nonneg | exact N75
       | exact N95]. }
  eexists _, v5, (v25 - v5), (v75 - v25), (v95 - v75), v95.
  split; [reflexivity|].
  cbn [TimeChart.year TimeChart.mortgage TimeChart.base TimeChart.outerLower
       TimeChart.innerBand TimeChart.outerUpper TimeChart._p95].
  do 7 (split; [reflexivity|]).
  split; [lra|]. split; [lra|]. split; [lra|]. ring.
Qed.

Lemma chart_rows_stack_up_to_p95_witness :
  let paths := [[0; 3; 5]; [0; 1; 6]; [0; 2; 4]] in
  let mortgagePath : list (option Q) := [Some 0; Some 2; Some 4] in
  paths <> []
  /\ (0 <= 2 <= MAX_ARRAY_LENGTH - 1)%Z
  /\ (forall row, In row paths -> (Z.to_nat 2 + 1 <= length row)%nat)
  /\ exists bands,
       computeTimeSeriesBands paths 2 = Ok bands
       /\ forall y, (y <= Z.to_nat 2)%nat ->
            exists row b lower inner upper top,
              nth_error
                (TimeChart.chartData
                   (UseSimulation.timeSeriesData bands mortgagePath)) y
              = Some (Some row)
              /\ TimeChart.year row = Z.of_nat y
              /\ TimeChart.mortgage row = js_get mortgagePath y
              /\ TimeChart.base row = Some b
              /\ TimeChart.outerLower row = Num lower
              /\ TimeChart.innerBand row = Num inner
              /\ TimeChart.outerUpper row = Num upper
              /\ TimeChart._p95 row = Some top
              /\ 0 <= lower /\ 0 <= inner /\ 0 <= upper
              /\ b + lower + inner + upper == top.
Proof.
  intros paths mortgagePath.
  assert (Hne : paths <> []) by discriminate.
  assert (Hy : (0 <= 2 <= MAX_ARRAY_LENGTH - 1)%Z)
    by (unfold MAX_ARRAY_LENGTH; lia).
  assert (Hrows : forall row, In row paths ->
                              (Z.to_nat 2 + 1 <= length row)%nat).
  { intros row [<- | [<- | [<- | []]]]; simpl; lia. }
  split; [exact Hne|]. split; [exact Hy|]. split; [exact Hrows|].
  exact (chart_rows_stack_up_to_p95 paths 2 mortgagePath Hne Hy Hrows).
Defined.

End ChartFacts.

(* ================================================================== *)
(** * The value axis of the histogram *)
(* ================================================================== *)

Module HistogramChartFacts.

Import HistogramBinner HistogramChart Spec SpecMore JsFacts SortFacts.

Lemma Qltb_true (x y : Q) : Qltb x y = true <-> x < y.
Proof.
  unfold Qltb. rewrite negb_true_iff. split.
  - intros H. apply Qnot_le_lt. intros Hle.
    apply Qle_bool_iff in Hle. congruence.
  - intros H. destruct (Qle_bool y x) eqn:E; [|reflexivity].
    apply Qle_bool_iff in E. lra.
Qed.

(** Rounding up to a multiple of a positive step. *)
Lemma ceiling_step (value step : Q) :
  0 < step ->
  value <= inject_Z (Qceiling (value / step)) * step
  /\ inject_Z (Qceiling (value / step)) * step < value + step.
Proof.
  intros Hs.
  pose proof (Qle_ceiling (value / step)) as Hle.
  pose proof (Qceiling_lt (value / step)) as Hlt.
  unfold Z.sub in Hlt. rewrite inject_Z_plus, inject_Z_opp in Hlt.
  change (inject_Z 1) with 1 in Hlt.
  assert (E : value / step * step == value) by (field; lra).
  set (q := value / step) in *. clearbody q.
  set (c := inject_Z (Qceiling q)) in *. clearbody c.
  assert (H1 : q * step <= c * step)
    by (apply Qmult_le_compat_r; [exact Hle | lra]).
  assert (H2 : (c + -(1)) * step < q * step)
    by (apply Qmult_lt_compat_r; [exact Hs | exact Hlt]).
  split; lra.
Qed.

(** X28: [roundTo] never rounds down, adds less than 500000 (less than
    10000 below 100000, less than 100000 below 1000000), and returns a
    whole multiple of 10000. *)
Theorem roundTo_rounds_up (value : Q) :
  value <= roundTo value
  /\ roundTo value < value + 500000
  /\ (value < 100000 -> roundTo value < value + 10000)
  /\ (value < 1000000 -> roundTo value < value + 100000)
  /\ exists k : Z, roundTo value == inject_Z k * 10000.
Proof.
  unfold roundTo.
  destruct (Qltb value 100000) eqn:E1.
  - destruct (ceiling_step value 10000) as [Hle Hlt]; [easy|].
    split; [exact Hle|]. split; [lra|]. split; [intros _; exact Hlt|].
    split; [intros _; lra|].
    now exists (Qceiling (value / 10000)).
  - assert (H1 : ~ value < 100000).
    { intros H. apply Qltb_true in H. congruence. }
    destruct (Qltb value 1000000) eqn:E2.
    + destruct (ceiling_step value 100000) as [Hle Hlt]; [easy|].
      split; [exact Hle|]. split; [lra|].
      split; [intros H; contradiction|]. split; [intros _; exact Hlt|].
      exists (Qceiling (value / 100000) * 10)%Z.
      rewrite inject_Z_mult. change (inject_Z 10) with 10. ring.
    + assert (H2 : ~ value < 1000000).
      { intros H. apply Qltb_true in H. congruence. }
      destruct (ceiling_step value 500000) as [Hle Hlt]; [easy|].
      split; [exact Hle|]. split; [exact Hlt|].
      split; [intros H; contradiction|]. split; [intros H; contradiction|].
      exists (Qceiling (value / 500000) * 50)%Z.
      rewrite inject_Z_mult. change (inject_Z 50) with 50. ring.
Qed.

Lemma roundTo_rounds_up_witness :
  (123456 < 1000000 /\ roundTo 123456 < 123456 + 100000).
Proof.
  assert (H : 123456 < 1000000) by reflexivity.
  split; [exact H|].
  exact (proj1 (proj2 (proj2 (proj2 (roundTo_rounds_up 123456)))) H).
Defined.

(** ** generateTicks *)

(** The loop of [generateTicks]: at most [slots] ticks, evenly spaced from
    the first one and none beyond [max]. *)
Lemma ticks_loop_spec (max tickInterval : Q) :
  0 < tickInterval ->
  forall slots tick,
    (length (ticks_loop slots tick max tickInterval) <= slots)%nat
    /\ (forall i t,
          nth_error (ticks_loop slots tick max tickInterval) i = Some t ->
          t == tick + nat_Q i * tickInterval /\ t <= max)
    /\ (tick <= max -> (0 < slots)%nat ->
        ticks_loop slots tick max tickInterval <> []).
Proof.
  intros HI. induction slots as [|slots IH]; intros tick.
  - cbn [ticks_loop length]. split; [lia|].
    split; [intros [|i] t H; discriminate | intros _ H; lia].
  - cbn [ticks_loop].
    destruct (Qle_bool tick max) eqn:E.
    + apply Qle_bool_iff in E.
      destruct (IH (tick + tickInterval)) as (Hlen & Hnth & _).
      split; [cbn [length]; lia|].
      split; [| intros _ _; discriminate].
      intros [|i] t Ht.
      * injection Ht as <-. change (nat_Q 0) with 0. split; [ring | exact E].
      * cbn [nth_error] in Ht. destruct (Hnth i t Ht) as [Ht1 Ht2].
        split; [| exact Ht2].
        rewrite Ht1, BinnerFacts.nat_Q_S. ring.
    + cbn [length]. split; [lia|].
      split; [intros [|i] t H; discriminate|].
      intros Hle _. apply Qle_bool_iff in Hle. congruence.
Qed.

(** Evenly spaced numbers are in ascending order. *)
Lemma spaced_sorted (l : list Q) (tick step : Q) :
  0 <= step ->
  (forall i t, nth_error l i = Some t -> t == tick + nat_Q i * step) ->
  StronglySorted Qle l.
Proof.
  intros Hs. revert tick. induction l as [|x l IH]; intros tick H.
  - constructor.
  - constructor.
    + apply (IH (tick + step)). intros i t Hi.
      rewrite (H (S i) t Hi), BinnerFacts.nat_Q_S. ring.
    + apply Forall_forall. intros y Hy.
      apply In_nth_error in Hy as [i Hi].
      rewrite (H 0%nat x eq_refl), (H (S i) y Hi).
      change (nat_Q 0) with 0. pose proof (nat_Q_nonneg (S i)).
      assert (0 <= nat_Q (S i) * step) by (apply Qmult_le_0_compat; lra).
      lra.
Qed.

(** X29: [generateTicks] returns between one and eight ticks; for a
    domain whose lower end is not above its upper end every tick lies in
    the domain and the ticks are in ascending order. *)
Theorem ticks_lie_in_the_domain (min max : Q) :
  (0 < length (generateTicks min max) <= 8)%nat
  /\ (min <= max ->
      (forall t, In t (generateTicks min max) -> min <= t /\ t <= max)
      /\ StronglySorted Qle (generateTicks min max)).
Proof.
  unfold generateTicks. cbv zeta.
  set (tickInterval :=
         if Qle_bool (max - min) 500000 then 100000
         else if Qle_bool (max - min) 2000000 then 250000
         else if Qle_bool (max - min) 5000000 then 500000
         else 1000000).
  assert (HI : 0 < tickInterval).
  { unfold tickInterval.
    destruct (Qle_bool (max - min) 500000); [reflexivity|].
    destruct (Qle_bool (max - min) 2000000); [reflexivity|].
    destruct (Qle_bool (max - min) 5000000); reflexivity. }
  set (start := inject_Z (Qceiling (min / tickInterval)) * tickInterval).
  assert (Hstart : min <= start).
  { unfold start. now apply ceiling_step. }
  destruct (ticks_loop_spec max tickInterval HI 8 start)
    as (Hlen & Hnth & _).
  destruct (Nat.ltb_spec 0 (length (ticks_loop 8 start max tickInterval)))
    as [Hpos | Hzero].
  - split; [lia|]. intros Hmm. split.
    + intros t Ht. apply In_nth_error in Ht as [i Hi].
      destruct (Hnth i t Hi) as [Ht1 Ht2]. split; [| exact Ht2].
      rewrite Ht1. pose proof (nat_Q_nonneg i).
      assert (0 <= nat_Q i * tickInterval)
        by (apply Qmult_le_0_compat; lra).
      lra.
    + apply spaced_sorted with (tick := start) (step := tickInterval);
        [lra|].
      intros i t Hi. now apply Hnth.
  - split; [cbn [length]; lia|]. intros Hmm. split.
    + intros t [<- | [<- | []]]; split; lra.
    + repeat constructor. exact Hmm.
Qed.

Lemma ticks_lie_in_the_domain_witness :
  0 <= 730000
  /\ (forall t, In t (generateTicks 0 730000) -> 0 <= t /\ t <= 730000)
  /\ StronglySorted Qle (generateTicks 0 730000).
Proof.
  assert (H : 0 <= 730000) by discriminate.
  split; [exact H|].
  exact (proj2 (ticks_lie_in_the_domain 0 730000) H).
Defined.

(** ** The domain of the axis *)








End HistogramChartFacts.

(* ================================================================== *)
(** * The bins in binary64 *)
(* ================================================================== *)

Module Binary64Facts.

Import PrimFloat HistogramBinner64 SpecBinary64.

(** The claim C5 as it is stated fails on the code, by rounding.  On the
    outcomes 32, 31, 6, 30, 31 the automatic bin count is 23 and the bin
    width (32 - 6) / 23; the last bin ends at 6 + 23 * ((32 - 6) / 23),
    which binary64 rounds to 31.999999999999996
    ([0x1.fffffffffffffp+4]), one unit in the last place below the
    greatest outcome, 32. *)
Lemma last_bin_ends_below_the_maximum :
  calculateOptimalBins (fun _ _ => cube_root_of_5)
    (sort_numeric five_outcomes) = Some 23%Z
  /\ last_bin_end (binData (fun _ _ => cube_root_of_5) five_outcomes None)
     = Some 0x1.fffffffffffffp+4%float
  /\ maximum five_outcomes = 32%float
  /\ (0x1.fffffffffffffp+4 <? 32)%float = true
  /\ ~ ends_at_maximum five_outcomes
         (binData (fun _ _ => cube_root_of_5) five_outcomes None).
Proof.
  split; [vm_compute; reflexivity|].
  split; [vm_compute; reflexivity|].
  split; [vm_compute; reflexivity|].
  split; [vm_compute; reflexivity|].
  intros (e & He & Hm).
  vm_compute in He. injection He as <-.
  vm_compute in Hm.
  assert (H : (0x1.fffffffffffffp+4 <? 32)%float = true) by reflexivity.
  rewrite Hm in H. vm_compute in H. discriminate.
Qed.

End Binary64Facts.
